(** * mobweb2: the deployment platform's server routes and storage gateway

    A shallow embedding of [server/storage.ts] and [server/routes.ts]
    (with the table definitions of the shared schema), followed by the
    properties of the deployment pipeline, the access checks, the quota and
    subdomain checks, the analytics endpoints and the chat endpoints, and
    then by those of creation, deletion and the listings, of users,
    registration and the admin session, and by what no sequence of requests
    breaks.

    Asynchronous handlers are run to completion one at a time; a promise that
    rejects is a thrown error.  Three things the handlers cannot control are
    inputs of the model: the clock, the failures of the database (a schedule
    that says, call by call, whether the next query throws) and the answers
    of the upstream chat-completion service. *)

From Stdlib Require Import ZArith List String Ascii Bool Lia.
From Stdlib Require Import Sorted Permutation DecimalString.
Import ListNotations.
Local Open Scope string_scope.
Local Open Scope Z_scope.

Set Implicit Arguments.
Set Warnings "-register-all".

(* ================================================================== *)
(** ** JavaScript values *)

(** The values that [JSON.parse] produces, and [undefined]. Numbers are the
    integers: a fractional number is truthy like a non-zero integer, but an
    integer column refuses it and its text has a fraction, so a body or an
    upstream answer that holds one is outside the model. An object lists
    each key once, as [JSON.parse] leaves it. *)
Inductive JsVal : Type :=
| JsUndefined
| JsNull
| JsBool (b : bool)
| JsNum (n : Z)
| JsStr (s : string)
| JsArr (xs : list JsVal)
| JsObj (fields : list (string * JsVal)).

Definition str_eqb (a b : string) : bool := String.eqb a b.

Definition str_empty (s : string) : bool :=
  match s with EmptyString => true | String _ _ => false end.

(** [ToBoolean]. *)
Definition truthy (v : JsVal) : bool :=
  match v with
  | JsUndefined | JsNull => false
  | JsBool b => b
  | JsNum n => negb (n =? 0)
  | JsStr s => negb (str_empty s)
  | JsArr _ | JsObj _ => true
  end.

(** [a || b]. *)
Definition js_or (a b : JsVal) : JsVal := if truthy a then a else b.

(** [typeof v === 'string']. *)
Definition is_string (v : JsVal) : bool :=
  match v with JsStr _ => true | _ => false end.

Definition nullish (v : JsVal) : bool :=
  match v with JsUndefined | JsNull => true | _ => false end.

Fixpoint lookup_field (k : string) (fields : list (string * JsVal)) : JsVal :=
  match fields with
  | [] => JsUndefined
  | (k', v) :: rest => if str_eqb k k' then v else lookup_field k rest
  end.

(** [v.k] on a value that is neither [undefined] nor [null], for a key [k]
    that is not an array index and not [length]: only objects have it. *)
Definition member (v : JsVal) (k : string) : JsVal :=
  match v with
  | JsObj fields => lookup_field k fields
  | _ => JsUndefined
  end.

(** [v[0]] on a value that is neither [undefined] nor [null]. *)
Definition element0 (v : JsVal) : JsVal :=
  match v with
  | JsArr (x :: _) => x
  | JsObj fields => lookup_field "0" fields
  | JsStr (String c _) => JsStr (String c EmptyString)
  | _ => JsUndefined
  end.

(** [v?.k]. *)
Definition opt_member (v : JsVal) (k : string) : JsVal :=
  if nullish v then JsUndefined else member v k.

(** The own enumerable string-keyed properties that [{...v}] copies. The
    indices of an array or of a string are copied too, but no schema below
    reads a numeric key, so they are left out. *)
Definition spread (v : JsVal) : list (string * JsVal) :=
  match v with
  | JsObj fields => fields
  | _ => []
  end.

(* ------------------------------------------------------------------ *)
(** *** [parseInt] with no radix argument *)

(** A string holds the UTF-8 bytes of the JavaScript string. [parseInt]
    skips what [String.prototype.trim] trims: the white space and the line
    terminators of the language. Six of them are one byte long. *)
Definition is_ws (c : ascii) : bool :=
  let n := nat_of_ascii c in
  (Nat.eqb n 32 || Nat.eqb n 9 || Nat.eqb n 10 || Nat.eqb n 11
   || Nat.eqb n 12 || Nat.eqb n 13)%bool.

(** U+00A0, the no-break space, is the one of two bytes. *)
Definition is_ws2 (c1 c2 : ascii) : bool :=
  (Nat.eqb (nat_of_ascii c1) 194 && Nat.eqb (nat_of_ascii c2) 160)%bool.

(** Those of three bytes: U+1680, U+2000 to U+200A, U+2028, U+2029, U+202F,
    U+205F, U+3000 and U+FEFF. *)
Definition is_ws3 (c1 c2 c3 : ascii) : bool :=
  let a := nat_of_ascii c1 in
  let b := nat_of_ascii c2 in
  let c := nat_of_ascii c3 in
  (Nat.eqb a 225 && Nat.eqb b 154 && Nat.eqb c 128
   || Nat.eqb a 226 && Nat.eqb b 128
      && (Nat.leb 128 c && Nat.leb c 138
          || Nat.eqb c 168 || Nat.eqb c 169 || Nat.eqb c 175)
   || Nat.eqb a 226 && Nat.eqb b 129 && Nat.eqb c 159
   || Nat.eqb a 227 && Nat.eqb b 128 && Nat.eqb c 128
   || Nat.eqb a 239 && Nat.eqb b 187 && Nat.eqb c 191)%bool.

Fixpoint skip_ws (s : string) : string :=
  match s with
  | String c r =>
      if is_ws c then skip_ws r
      else
        match r with
        | String c2 r2 =>
            if is_ws2 c c2 then skip_ws r2
            else
              match r2 with
              | String c3 r3 => if is_ws3 c c2 c3 then skip_ws r3 else s
              | EmptyString => s
              end
        | EmptyString => s
        end
  | EmptyString => s
  end.

Definition digit_val (radix : Z) (c : ascii) : option Z :=
  let n := Z.of_nat (nat_of_ascii c) in
  let d :=
    if (48 <=? n) && (n <=? 57) then Some (n - 48)
    else if (97 <=? n) && (n <=? 102) then Some (n - 87)
    else if (65 <=? n) && (n <=? 70) then Some (n - 55)
    else None in
  match d with
  | Some v => if v <? radix then Some v else None
  | None => None
  end.

(** The longest prefix of digits, as a number; [None] when it is empty. *)
Fixpoint digits (radix : Z) (s : string) (acc : option Z) : option Z :=
  match s with
  | String c r =>
      match digit_val radix c with
      | Some d =>
          digits radix r
            (Some (radix * (match acc with Some a => a | None => 0 end) + d))
      | None => acc
      end
  | EmptyString => acc
  end.

Definition unsigned_int (s : string) : option Z :=
  match s with
  | String "0" (String "x" r) | String "0" (String "X" r) => digits 16 r None
  | _ => digits 10 s None
  end.

(** [parseInt(s)]; [None] is [NaN]. The result is the exact integer (a
    [number] rounds beyond 2^53, far outside the range of any key). *)
Definition parseInt (s : string) : option Z :=
  match skip_ws s with
  | String "-" r => option_map Z.opp (unsigned_int r)
  | String "+" r => unsigned_int r
  | r => unsigned_int r
  end.

(** The range of an [integer] column of the database. *)
Definition fits_integer (n : Z) : bool :=
  (-2147483648 <=? n) && (n <=? 2147483647).

(** A route or query parameter that may be absent: [parseInt(undefined)]
    reads the string ["undefined"]. *)
Definition parseInt_param (p : option string) : option Z :=
  parseInt (match p with Some s => s | None => "undefined" end).

(** [n || d] on a number. *)
Definition num_or (n : option Z) (d : Z) : Z :=
  match n with
  | Some v => if v =? 0 then d else v
  | None => d
  end.

Definition string_of_Z (n : Z) : string := NilZero.string_of_int (Z.to_int n).

Definition nl : string := String (ascii_of_nat 10) EmptyString.

(** [lines.join('\n')]. *)
Fixpoint join_lines (lines : list string) : string :=
  match lines with
  | [] => ""
  | [l] => l
  | l :: rest => l ++ nl ++ join_lines rest
  end.

(* ------------------------------------------------------------------ *)
(** *** The text of a value *)

Definition quote : string := String (ascii_of_nat 34) EmptyString.
Definition backslash : string := String (ascii_of_nat 92) EmptyString.

Definition hex_digit (n : nat) : ascii :=
  ascii_of_nat (if Nat.ltb n 10 then 48 + n else 87 + n).

(** What [JSON.stringify] writes for one character of a string. *)
Definition json_char (c : ascii) : string :=
  let n := nat_of_ascii c in
  if Nat.eqb n 34 then backslash ++ quote
  else if Nat.eqb n 92 then backslash ++ backslash
  else if Nat.eqb n 8 then backslash ++ "b"
  else if Nat.eqb n 12 then backslash ++ "f"
  else if Nat.eqb n 10 then backslash ++ "n"
  else if Nat.eqb n 13 then backslash ++ "r"
  else if Nat.eqb n 9 then backslash ++ "t"
  else if Nat.ltb n 32 then
    backslash ++ "u00"
    ++ String (hex_digit (Nat.div n 16)) (String (hex_digit (Nat.modulo n 16)) "")
  else String c "".

Fixpoint json_chars (s : string) : string :=
  match s with
  | String c r => json_char c ++ json_chars r
  | EmptyString => ""
  end.

Definition json_string (s : string) : string := quote ++ json_chars s ++ quote.

(** [JSON.stringify(v)] for a value inside an array or an object: an
    [undefined] element is written [null], an [undefined] member is left
    out. *)
Fixpoint stringify (v : JsVal) : string :=
  match v with
  | JsUndefined | JsNull => "null"
  | JsBool b => if b then "true" else "false"
  | JsNum n => string_of_Z n
  | JsStr s => json_string s
  | JsArr xs => "[" ++ String.concat "," (map stringify xs) ++ "]"
  | JsObj fields =>
      "{"
      ++ String.concat ","
           (flat_map (fun kv =>
                        match kv with
                        | (_, JsUndefined) => []
                        | (k, x) => [json_string k ++ ":" ++ stringify x]
                        end) fields)
      ++ "}"
  end.

(** An element of an array literal of the database: quoted, with its
    backslashes and quotes escaped. *)
Fixpoint escape_chars (s : string) : string :=
  match s with
  | String c r =>
      (if Nat.eqb (nat_of_ascii c) 92 then backslash ++ backslash
       else if Nat.eqb (nat_of_ascii c) 34 then backslash ++ quote
       else String c "")
      ++ escape_chars r
  | EmptyString => ""
  end.

Definition escape_element (s : string) : string := quote ++ escape_chars s ++ quote.

Fixpoint array_element (v : JsVal) : string :=
  match v with
  | JsUndefined | JsNull => "NULL"
  | JsBool b => escape_element (if b then "true" else "false")
  | JsNum n => escape_element (string_of_Z n)
  | JsStr s => escape_element s
  | JsArr xs => "{" ++ String.concat "," (map array_element xs) ++ "}"
  | JsObj _ => escape_element (stringify v)
  end.

(** What the PostgreSQL driver sends for a value bound to a query, as
    node-postgres and the drivers made from it do: [null] for [null] and
    [undefined] ([None]), a string as it is, [toString()] of a number or a
    boolean, an array literal for an array and [JSON.stringify] of an
    object. A [text] column holds that text. *)
Definition column_text (v : JsVal) : option string :=
  match v with
  | JsUndefined | JsNull => None
  | JsBool b => Some (if b then "true" else "false")
  | JsNum n => Some (string_of_Z n)
  | JsStr s => Some s
  | JsArr xs => Some ("{" ++ String.concat "," (map array_element xs) ++ "}")
  | JsObj _ => Some (stringify v)
  end.

(* ================================================================== *)
(** ** A monad for handlers: state and thrown errors *)

Inductive Outcome (A : Type) : Type :=
| Ok (a : A)
| Throw (message : string).
Arguments Ok {A} a.
Arguments Throw {A} message.

Definition M (S A : Type) : Type := S -> Outcome A * S.

Definition ret {S A} (a : A) : M S A := fun s => (Ok a, s).

Definition bind {S A B} (m : M S A) (k : A -> M S B) : M S B :=
  fun s =>
    match m s with
    | (Ok a, s') => k a s'
    | (Throw e, s') => (Throw e, s')
    end.

Definition throw {S A} (message : string) : M S A := fun s => (Throw message, s).

(** [try { body } catch (error) { handler }]: the handler starts from the
    state the body had reached when it threw. *)
Definition try_catch {S A} (body : M S A) (handler : string -> M S A) : M S A :=
  fun s =>
    match body s with
    | (Ok a, s') => (Ok a, s')
    | (Throw e, s') => handler e s'
    end.

Definition get {S} : M S S := fun s => (Ok s, s).
Definition modify {S} (f : S -> S) : M S unit := fun s => (Ok tt, f s).

Declare Scope monad_scope.
Delimit Scope monad_scope with monad.
Notation "x <- m ;; k" := (bind m (fun x => k))
  (at level 61, m at next level, right associativity) : monad_scope.
Notation "m ;; k" := (bind m (fun _ => k))
  (at level 61, right associativity) : monad_scope.
Local Open Scope monad_scope.

(** [console.error] writes to the server's log only. *)
Definition console_error {S} (label : string) (message : string) : M S unit :=
  ret tt.

(* ================================================================== *)
(** ** The shared schema: one record per table row *)

(** Timestamps are milliseconds since the epoch. A nullable column is an
    [option]; [None] is SQL [NULL]. *)
Definition Timestamp := Z.

Module User.
Record t := mk {
  id : string;
  email : option string;
  firstName : option string;
  lastName : option string;
  profileImageUrl : option string;
  isPremium : option bool;
  createdAt : option Timestamp;
  updatedAt : option Timestamp;
}.
End User.

Module Application.
Record t := mk {
  id : Z;
  userId : string;
  name : string;
  subdomain : string;
  description : option string;
  sourceType : string;
  sourceUrl : option string;
  buildCommand : option string;
  outputDir : option string;
  status : string;
  deploymentUrl : option string;
  storageUsed : option Z;
  lastDeployedAt : option Timestamp;
  createdAt : option Timestamp;
  updatedAt : option Timestamp;
}.
End Application.

Module Deployment.
Record t := mk {
  id : Z;
  applicationId : Z;
  status : string;
  buildLogs : option string;
  groqAnalysis : option JsVal;
  deployedAt : option Timestamp;
  createdAt : option Timestamp;
}.
End Deployment.

(** The tracking route inserts what the request carries without validating
    it, so [path] and [referer] hold the value handed to the driver. *)
Module Analytics.
Record t := mk {
  id : Z;
  applicationId : Z;
  visitorIp : option string;
  userAgent : option string;
  country : option string;
  city : option string;
  referer : JsVal;
  path : JsVal;
  visitedAt : option Timestamp;
}.
End Analytics.

(** [response] is the value the chat route resolved; it is a string whenever
    the upstream service answers with text or a fallback is used. *)
Module GroqConversation.
Record t := mk {
  id : Z;
  userId : string;
  message : string;
  response : string;
  createdAt : option Timestamp;
}.
End GroqConversation.

(** A column of an insert: left out (the column's default applies), given
    as [null], or given a value. *)
Inductive Given (A : Type) : Type :=
| Absent
| Null
| Val (a : A).
Arguments Absent {A}.
Arguments Null {A}.
Arguments Val {A} a.

Definition stored {A} (g : Given A) (default : option A) : option A :=
  match g with
  | Absent => default
  | Null => None
  | Val a => Some a
  end.

Module InsertApplication.
Record t := mk {
  userId : string;
  name : string;
  subdomain : string;
  description : Given string;
  sourceType : string;
  sourceUrl : Given string;
  buildCommand : Given string;
  outputDir : Given string;
  status : option string;
  deploymentUrl : Given string;
  storageUsed : Given Z;
  lastDeployedAt : Given Timestamp;
}.
End InsertApplication.

Module InsertDeployment.
Record t := mk {
  applicationId : option Z;
  status : option string;
}.
End InsertDeployment.

Module InsertAnalytics.
Record t := mk {
  applicationId : Z;
  visitorIp : option string;
  userAgent : option string;
  path : JsVal;
  referer : JsVal;
  country : option string;
  city : option string;
}.
End InsertAnalytics.

Module InsertGroqConversation.
Record t := mk {
  userId : string;
  message : string;
  response : JsVal;
}.
End InsertGroqConversation.

(** [Partial<Application>] and [Partial<Deployment>], restricted to the keys
    some caller writes; [None] is a key that is not in the object. *)
Module ApplicationPatch.
Record t := mk {
  status : option string;
  lastDeployedAt : option Timestamp;
  deploymentUrl : option string;
}.
End ApplicationPatch.

Module DeploymentPatch.
Record t := mk {
  status : option string;
  deployedAt : option Timestamp;
  buildLogs : option string;
  groqAnalysis : option JsVal;
}.
End DeploymentPatch.

(* ------------------------------------------------------------------ *)
(** *** zod insert schemas *)

Inductive Parsed (A : Type) : Type :=
| ParseOk (data : A)
| ParseError (message : string).
Arguments ParseOk {A} data.
Arguments ParseError {A} message.

(** A required text column: [z.string()]. *)
Definition required_string (k : string) (o : list (string * JsVal)) : option string :=
  match lookup_field k o with
  | JsStr s => Some s
  | _ => None
  end.

(** A nullable text column, or one with a default:
    [z.string().nullable().optional()]. *)
Definition optional_string (k : string) (o : list (string * JsVal))
  : option (Given string) :=
  match lookup_field k o with
  | JsUndefined => Some Absent
  | JsNull => Some Null
  | JsStr s => Some (Val s)
  | _ => None
  end.

(** A non-null text column with a default: [z.string().optional()]. *)
Definition defaulted_string (k : string) (o : list (string * JsVal))
  : option (option string) :=
  match lookup_field k o with
  | JsUndefined => Some None
  | JsStr s => Some (Some s)
  | _ => None
  end.

(** A nullable [integer] column: a number outside the column's range is
    refused. *)
Definition optional_int (k : string) (o : list (string * JsVal))
  : option (Given Z) :=
  match lookup_field k o with
  | JsUndefined => Some Absent
  | JsNull => Some Null
  | JsNum n => if fits_integer n then Some (Val n) else None
  | _ => None
  end.

(** A nullable timestamp column is [z.date()]: no JSON value is a [Date]. *)
Definition optional_date (k : string) (o : list (string * JsVal))
  : option (Given Timestamp) :=
  match lookup_field k o with
  | JsUndefined => Some Absent
  | JsNull => Some Null
  | _ => None
  end.

(** The handlers pass the library's message on as it is. Its wording is
    the library's and is not part of the sources: the text here names the
    field and stands for it, and no statement below is about the text. *)
Definition invalid {A} (k : string) : Parsed A :=
  ParseError ("Validation error: Invalid value at " ++ k).

Definition field {A B} (k : string) (c : list (string * JsVal) -> option A)
    (o : list (string * JsVal)) (rest : A -> Parsed B) : Parsed B :=
  match c o with
  | Some x => rest x
  | None => invalid k
  end.

(** [insertApplicationSchema.safeParse({...body, userId})]. *)
Definition insertApplicationSchema (body : JsVal) (userId : string)
  : Parsed InsertApplication.t :=
  let o := spread body in
  field "name" (required_string "name") o (fun name =>
  field "subdomain" (required_string "subdomain") o (fun subdomain =>
  field "description" (optional_string "description") o (fun description =>
  field "sourceType" (required_string "sourceType") o (fun sourceType =>
  field "sourceUrl" (optional_string "sourceUrl") o (fun sourceUrl =>
  field "buildCommand" (optional_string "buildCommand") o (fun buildCommand =>
  field "outputDir" (optional_string "outputDir") o (fun outputDir =>
  field "status" (defaulted_string "status") o (fun status =>
  field "deploymentUrl" (optional_string "deploymentUrl") o (fun deploymentUrl =>
  field "storageUsed" (optional_int "storageUsed") o (fun storageUsed =>
  field "lastDeployedAt" (optional_date "lastDeployedAt") o (fun lastDeployedAt =>
  ParseOk (InsertApplication.mk userId name subdomain description sourceType
             sourceUrl buildCommand outputDir status deploymentUrl storageUsed
             lastDeployedAt)))))))))))).

(** [insertGroqConversationSchema.safeParse({...body, userId})]: [message]
    and [response] are both required text columns. *)
Definition insertGroqConversationSchema (body : JsVal) (userId : string)
  : Parsed InsertGroqConversation.t :=
  let o := spread body in
  field "message" (required_string "message") o (fun message =>
  field "response" (required_string "response") o (fun response =>
  ParseOk (InsertGroqConversation.mk userId message (JsStr response)))).

(* ================================================================== *)
(** ** The world a handler runs in *)

(** The body of a chat-completion request. The temperature is kept in
    tenths. *)
Record ChatRequest := mkChatRequest {
  model : string;
  system_content : string;
  user_content : string;
  max_tokens : Z;
  temperature_tenths : Z;
}.

Inductive Body : Type :=
| BadJson
| Json (data : JsVal).

Record HttpResponse := mkHttpResponse {
  http_status : Z;
  http_body : Body;
}.

(** [response.ok]. *)
Definition ok (r : HttpResponse) : bool :=
  (200 <=? http_status r) && (http_status r <=? 299).

Inductive FetchOutcome : Type :=
| NetworkError (message : string)
| Responded (r : HttpResponse).

Record File := mkFile {
  originalname : string;
  size : Z;
}.

(** Work started without being awaited. *)
Inductive Task : Type :=
| ProcessDeployment (deploymentId : Z) (application : Application.t)
    (file : option File).

(** What a run did, oldest first: the requests sent upstream and the writes
    the database accepted. *)
Inductive Event : Type :=
| EvFetch (request : ChatRequest)
| EvInsertApplication (row : Application.t)
| EvUpdateApplication (id : Z) (updates : ApplicationPatch.t)
| EvDeleteApplication (id : Z)
| EvInsertDeployment (row : Deployment.t)
| EvUpdateDeployment (id : Z) (updates : DeploymentPatch.t)
| EvInsertAnalytics (row : Analytics.t)
| EvInsertConversation (row : GroqConversation.t).

Record Db := mkDb {
  users : list User.t;
  applications : list Application.t;
  deployments : list Deployment.t;
  analytics : list Analytics.t;
  groqConversations : list GroqConversation.t;
  applications_seq : Z;
  deployments_seq : Z;
  analytics_seq : Z;
  groqConversations_seq : Z;
}.

(** [faults] is consumed one entry per query: [Some message] makes that
    query throw and leave the tables as they were, [None] lets it through,
    and an exhausted schedule lets everything through. [net] is consumed one
    entry per [fetch]; an exhausted list is a network error. *)
Record World := mkWorld {
  db : Db;
  clock : Timestamp;
  faults : list (option string);
  net : list FetchOutcome;
  trace : list Event;
  spawned : list Task;
}.

Definition with_db (f : Db -> Db) (w : World) : World :=
  mkWorld (f (db w)) (clock w) (faults w) (net w) (trace w) (spawned w).
Definition with_clock (c : Timestamp) (w : World) : World :=
  mkWorld (db w) c (faults w) (net w) (trace w) (spawned w).
Definition with_faults (fs : list (option string)) (w : World) : World :=
  mkWorld (db w) (clock w) fs (net w) (trace w) (spawned w).
Definition with_net (n : list FetchOutcome) (w : World) : World :=
  mkWorld (db w) (clock w) (faults w) n (trace w) (spawned w).
Definition record_event (e : Event) (w : World) : World :=
  mkWorld (db w) (clock w) (faults w) (net w) (trace w ++ [e]) (spawned w).
Definition spawn (t : Task) (w : World) : World :=
  mkWorld (db w) (clock w) (faults w) (net w) (trace w) (spawned w ++ [t]).

Definition set_applications (rows : list Application.t) (d : Db) : Db :=
  mkDb (users d) rows (deployments d) (analytics d) (groqConversations d)
    (applications_seq d) (deployments_seq d) (analytics_seq d)
    (groqConversations_seq d).
Definition add_application (row : Application.t) (d : Db) : Db :=
  mkDb (users d) (applications d ++ [row]) (deployments d) (analytics d)
    (groqConversations d) (applications_seq d + 1) (deployments_seq d)
    (analytics_seq d) (groqConversations_seq d).
Definition set_deployments (rows : list Deployment.t) (d : Db) : Db :=
  mkDb (users d) (applications d) rows (analytics d) (groqConversations d)
    (applications_seq d) (deployments_seq d) (analytics_seq d)
    (groqConversations_seq d).
Definition add_deployment (row : Deployment.t) (d : Db) : Db :=
  mkDb (users d) (applications d) (deployments d ++ [row]) (analytics d)
    (groqConversations d) (applications_seq d) (deployments_seq d + 1)
    (analytics_seq d) (groqConversations_seq d).
Definition add_analytics (row : Analytics.t) (d : Db) : Db :=
  mkDb (users d) (applications d) (deployments d) (analytics d ++ [row])
    (groqConversations d) (applications_seq d) (deployments_seq d)
    (analytics_seq d + 1) (groqConversations_seq d).
Definition add_conversation (row : GroqConversation.t) (d : Db) : Db :=
  mkDb (users d) (applications d) (deployments d) (analytics d)
    (groqConversations d ++ [row]) (applications_seq d) (deployments_seq d)
    (analytics_seq d) (groqConversations_seq d + 1).

(** An insert draws its key from the sequence before the constraints are
    checked, and the sequence does not go back when the insert is refused. *)
Definition use_application_key (d : Db) : Db :=
  mkDb (users d) (applications d) (deployments d) (analytics d)
    (groqConversations d) (applications_seq d + 1) (deployments_seq d)
    (analytics_seq d) (groqConversations_seq d).
Definition use_deployment_key (d : Db) : Db :=
  mkDb (users d) (applications d) (deployments d) (analytics d)
    (groqConversations d) (applications_seq d) (deployments_seq d + 1)
    (analytics_seq d) (groqConversations_seq d).
Definition use_analytics_key (d : Db) : Db :=
  mkDb (users d) (applications d) (deployments d) (analytics d)
    (groqConversations d) (applications_seq d) (deployments_seq d)
    (analytics_seq d + 1) (groqConversations_seq d).
Definition use_conversation_key (d : Db) : Db :=
  mkDb (users d) (applications d) (deployments d) (analytics d)
    (groqConversations d) (applications_seq d) (deployments_seq d)
    (analytics_seq d) (groqConversations_seq d + 1).

Definition IO (A : Type) : Type := M World A.

(** [new Date()]. *)
Definition now : IO Timestamp := fun w => (Ok (clock w), w).

(** [await new Promise(resolve => setTimeout(resolve, ms))]. The clock is a
    logical one: time passes in the pauses only; a query or a request to
    the upstream service takes none. A timestamp of the model is therefore
    the earliest one the code can write at that point. *)
Definition sleep (ms : Z) : IO unit := fun w => (Ok tt, with_clock (clock w + ms) w).

(** The error, if any, that the schedule holds for the next query. *)
Definition head_fault (fs : list (option string)) : option string :=
  match fs with
  | Some message :: _ => Some message
  | _ => None
  end.

(** One round trip to the database: it uses up the head of the schedule. *)
Definition query : IO unit :=
  fun w =>
    (match head_fault (faults w) with
     | Some message => Throw message
     | None => Ok tt
     end,
     with_faults (tl (faults w)) w).

Definition emit (e : Event) : IO unit := modify (record_event e).

(** [await fetch(url, {method: 'POST', headers, body: JSON.stringify(request)})]. *)
Definition fetch (request : ChatRequest) : IO HttpResponse :=
  fun w =>
    let w1 := record_event (EvFetch request) w in
    match net w with
    | Responded r :: rest => (Ok r, with_net rest w1)
    | NetworkError message :: rest => (Throw message, with_net rest w1)
    | [] => (Throw "fetch failed", w1)
    end.

(** [await response.json()]. *)
Definition json {S} (r : HttpResponse) : M S JsVal :=
  match http_body r with
  | Json data => ret data
  | BadJson => throw "Unexpected token in JSON"
  end.

(** [v.k], which throws on [undefined] and [null]. *)
Definition get_member {S} (v : JsVal) (k : string) : M S JsVal :=
  if nullish v then throw ("Cannot read properties of undefined (reading " ++ k ++ ")")
  else ret (member v k).

(** [v[0]], which throws on [undefined] and [null]. *)
Definition get_element0 {S} (v : JsVal) : M S JsVal :=
  if nullish v then throw "Cannot read properties of undefined (reading 0)"
  else ret (element0 v).

(** [data.choices[0]?.message?.content]. *)
Definition first_choice_content {S} (data : JsVal) : M S JsVal :=
  choices <- get_member data "choices" ;;
  choice <- get_element0 choices ;;
  ret (opt_member (opt_member choice "message") "content").

(* ================================================================== *)
(** ** server/storage.ts: [DatabaseStorage] *)

(** [ORDER BY key DESC]: [NULL] sorts first, rows with equal keys keep the
    table's order. *)
Definition desc_le (a b : option Timestamp) : bool :=
  match a, b with
  | None, _ => true
  | Some _, None => false
  | Some x, Some y => y <=? x
  end.

Fixpoint insert_desc {A} (key : A -> option Timestamp) (x : A) (l : list A) : list A :=
  match l with
  | [] => [x]
  | y :: rest =>
      if desc_le (key x) (key y) then x :: l else y :: insert_desc key x rest
  end.

Definition order_by_desc {A} (key : A -> option Timestamp) (rows : list A) : list A :=
  fold_right (insert_desc key) [] rows.

(** A [number] that a route parsed out of the URL, used as an integer key
    or column. The database refuses the query when it is [NaN] ([None]),
    which is not the text of an integer, and when it is outside the range of
    the column. *)
Definition integer (n : option Z) : IO Z :=
  match n with
  | Some z =>
      if fits_integer z then ret z
      else throw "value is out of range for type integer"
  | None => throw "invalid input syntax for type integer: NaN"
  end.

(** [const [row] = rows; return row]. *)
Definition first_row {A} (rows : list A) : option A := hd_error rows.

(** [select().from(table).where(eq(table.id, id))], first row. *)
Definition select_user (id : string) (d : Db) : option User.t :=
  first_row (filter (fun u => str_eqb (User.id u) id) (users d)).

Definition select_application (id : Z) (d : Db) : option Application.t :=
  first_row (filter (fun a => Application.id a =? id) (applications d)).

Definition select_deployment (id : Z) (d : Db) : option Deployment.t :=
  first_row (filter (fun r => Deployment.id r =? id) (deployments d)).

Module storage.

Definition getUser (id : string) : IO (option User.t) :=
  query ;;
  w <- get ;;
  ret (select_user id (db w)).

Definition getUserApplications (userId : string) : IO (list Application.t) :=
  query ;;
  w <- get ;;
  ret (order_by_desc Application.createdAt
         (filter (fun a => str_eqb (Application.userId a) userId)
            (applications (db w)))).

Definition getApplication (id : option Z) : IO (option Application.t) :=
  query ;;
  id <- integer id ;;
  w <- get ;;
  ret (select_application id (db w)).

Definition subdomain_taken (subdomain : string) (d : Db) : bool :=
  existsb (fun a => str_eqb (Application.subdomain a) subdomain) (applications d).

Definition user_exists (userId : string) (d : Db) : bool :=
  existsb (fun u => str_eqb (User.id u) userId) (users d).

Definition application_exists (id : Z) (d : Db) : bool :=
  existsb (fun a => Application.id a =? id) (applications d).

(** The row an insert builds: the serial key, the column defaults and
    [defaultNow()]. *)
Definition application_row (id : Z) (t : Timestamp) (app : InsertApplication.t)
  : Application.t :=
  Application.mk id
    (InsertApplication.userId app)
    (InsertApplication.name app)
    (InsertApplication.subdomain app)
    (stored (InsertApplication.description app) None)
    (InsertApplication.sourceType app)
    (stored (InsertApplication.sourceUrl app) None)
    (stored (InsertApplication.buildCommand app) None)
    (stored (InsertApplication.outputDir app) (Some "dist"))
    (match InsertApplication.status app with Some s => s | None => "pending" end)
    (stored (InsertApplication.deploymentUrl app) None)
    (stored (InsertApplication.storageUsed app) (Some 0))
    (stored (InsertApplication.lastDeployedAt app) None)
    (Some t) (Some t).

(** The insert is refused by the table's own constraints: [subdomain] is
    unique and [userId] references [users]. *)
Definition createApplication (app : InsertApplication.t) : IO Application.t :=
  query ;;
  w <- get ;;
  if subdomain_taken (InsertApplication.subdomain app) (db w) then
    modify (with_db use_application_key) ;;
    throw "duplicate key value violates unique constraint applications_subdomain_unique"
  else if negb (user_exists (InsertApplication.userId app) (db w)) then
    modify (with_db use_application_key) ;;
    throw "insert on table applications violates foreign key constraint"
  else
    let newApp := application_row (applications_seq (db w)) (clock w) app in
    modify (with_db (add_application newApp)) ;;
    emit (EvInsertApplication newApp) ;;
    ret newApp.

Definition patch_application (updates : ApplicationPatch.t) (t : Timestamp)
    (a : Application.t) : Application.t :=
  Application.mk (Application.id a) (Application.userId a) (Application.name a)
    (Application.subdomain a) (Application.description a)
    (Application.sourceType a) (Application.sourceUrl a)
    (Application.buildCommand a) (Application.outputDir a)
    (match ApplicationPatch.status updates with
     | Some s => s
     | None => Application.status a
     end)
    (match ApplicationPatch.deploymentUrl updates with
     | Some u => Some u
     | None => Application.deploymentUrl a
     end)
    (Application.storageUsed a)
    (match ApplicationPatch.lastDeployedAt updates with
     | Some d => Some d
     | None => Application.lastDeployedAt a
     end)
    (Application.createdAt a) (Some t).

(** [UPDATE applications SET ... WHERE id = $id], on the tables. *)
Definition update_applications (id : Z) (updates : ApplicationPatch.t)
    (t : Timestamp) (d : Db) : Db :=
  set_applications
    (map (fun a => if Application.id a =? id
                   then patch_application updates t a else a)
       (applications d)) d.

(** [.set({...updates, updatedAt: new Date()}).where(eq(applications.id, id))]. *)
Definition updateApplication (id : Z) (updates : ApplicationPatch.t)
  : IO (option Application.t) :=
  t <- now ;;
  query ;;
  modify (with_db (update_applications id updates t)) ;;
  emit (EvUpdateApplication id updates) ;;
  w <- get ;;
  ret (select_application id (db w)).

(** The rows of [deployments] and [analytics] reference the application
    without a cascade, so the delete is refused while any exists. *)
Definition deleteApplication (id : option Z) : IO unit :=
  query ;;
  id <- integer id ;;
  w <- get ;;
  if existsb (fun d => Deployment.applicationId d =? id) (deployments (db w))
     || existsb (fun e => Analytics.applicationId e =? id) (analytics (db w))
  then throw "update or delete on table applications violates foreign key constraint"
  else
    modify (with_db (fun d =>
      set_applications
        (filter (fun a => negb (Application.id a =? id)) (applications d)) d)) ;;
    emit (EvDeleteApplication id).

Definition checkSubdomainAvailable (subdomain : string) : IO bool :=
  query ;;
  w <- get ;;
  let existing :=
    first_row (filter (fun a => str_eqb (Application.subdomain a) subdomain)
                 (applications (db w))) in
  ret (match existing with Some _ => false | None => true end).

Definition getApplicationDeployments (applicationId : option Z)
  : IO (list Deployment.t) :=
  query ;;
  applicationId <- integer applicationId ;;
  w <- get ;;
  ret (order_by_desc Deployment.createdAt
         (filter (fun d => Deployment.applicationId d =? applicationId)
            (deployments (db w)))).

Definition createDeployment (deployment : InsertDeployment.t) : IO Deployment.t :=
  query ;;
  applicationId <- integer (InsertDeployment.applicationId deployment) ;;
  w <- get ;;
  if negb (application_exists applicationId (db w)) then
    modify (with_db use_deployment_key) ;;
    throw "insert on table deployments violates foreign key constraint"
  else
    let newDeployment :=
      Deployment.mk (deployments_seq (db w))
        applicationId
        (match InsertDeployment.status deployment with
         | Some s => s
         | None => "pending"
         end)
        None None None (Some (clock w)) in
    modify (with_db (add_deployment newDeployment)) ;;
    emit (EvInsertDeployment newDeployment) ;;
    ret newDeployment.

Definition patch_deployment (updates : DeploymentPatch.t) (d : Deployment.t)
  : Deployment.t :=
  Deployment.mk (Deployment.id d) (Deployment.applicationId d)
    (match DeploymentPatch.status updates with
     | Some s => s
     | None => Deployment.status d
     end)
    (match DeploymentPatch.buildLogs updates with
     | Some l => Some l
     | None => Deployment.buildLogs d
     end)
    (match DeploymentPatch.groqAnalysis updates with
     | Some g => Some g
     | None => Deployment.groqAnalysis d
     end)
    (match DeploymentPatch.deployedAt updates with
     | Some t => Some t
     | None => Deployment.deployedAt d
     end)
    (Deployment.createdAt d).

(** [UPDATE deployments SET ... WHERE id = $id], on the tables. *)
Definition update_deployments (id : Z) (updates : DeploymentPatch.t) (d : Db)
  : Db :=
  set_deployments
    (map (fun r => if Deployment.id r =? id
                   then patch_deployment updates r else r)
       (deployments d)) d.

(** [.set(updates).where(eq(deployments.id, id))]. *)
Definition updateDeployment (id : Z) (updates : DeploymentPatch.t)
  : IO (option Deployment.t) :=
  query ;;
  modify (with_db (update_deployments id updates)) ;;
  emit (EvUpdateDeployment id updates) ;;
  w <- get ;;
  ret (select_deployment id (db w)).

Definition recordAnalytics (analyticsData : InsertAnalytics.t) : IO unit :=
  query ;;
  w <- get ;;
  if negb (application_exists (InsertAnalytics.applicationId analyticsData) (db w)) then
    modify (with_db use_analytics_key) ;;
    throw "insert on table analytics violates foreign key constraint"
  else
    let row :=
      Analytics.mk (analytics_seq (db w))
        (InsertAnalytics.applicationId analyticsData)
        (InsertAnalytics.visitorIp analyticsData)
        (InsertAnalytics.userAgent analyticsData)
        (InsertAnalytics.country analyticsData)
        (InsertAnalytics.city analyticsData)
        (InsertAnalytics.referer analyticsData)
        (InsertAnalytics.path analyticsData)
        (Some (clock w)) in
    modify (with_db (add_analytics row)) ;;
    emit (EvInsertAnalytics row).

Definition ms_per_day : Z := 24 * 60 * 60 * 1000.

(** [daysAgo] is computed and then not used: the [where] clause holds the
    application test alone. ([setDate] moves the calendar day; away from a
    change of daylight-saving time that is [days] times 24 hours.) *)
Definition getApplicationAnalytics (applicationId : option Z) (days : Z)
  : IO (list Analytics.t) :=
  t <- now ;;
  let daysAgo := t - days * ms_per_day in
  query ;;
  applicationId <- integer applicationId ;;
  w <- get ;;
  ret (order_by_desc Analytics.visitedAt
         (filter (fun e => Analytics.applicationId e =? applicationId)
            (analytics (db w)))).

(** [response] is a [text] column that is not null: the row holds the text
    of the value it is given, and [returning()] gives that text back. *)
Definition createConversation (conversation : InsertGroqConversation.t)
  : IO GroqConversation.t :=
  query ;;
  w <- get ;;
  match column_text (InsertGroqConversation.response conversation) with
  | None =>
      modify (with_db use_conversation_key) ;;
      throw "null value in column response violates not-null constraint"
  | Some response =>
      if negb (user_exists (InsertGroqConversation.userId conversation) (db w)) then
        modify (with_db use_conversation_key) ;;
        throw "insert on table groq_conversations violates foreign key constraint"
      else
        let newConversation :=
          GroqConversation.mk (groqConversations_seq (db w))
            (InsertGroqConversation.userId conversation)
            (InsertGroqConversation.message conversation)
            response
            (Some (clock w)) in
        modify (with_db (add_conversation newConversation)) ;;
        emit (EvInsertConversation newConversation) ;;
        ret newConversation
  end.

End storage.

(* ================================================================== *)
(** ** server/routes.ts *)

Inductive Payload : Type :=
| Message (message : string)
| ApplicationJson (application : Application.t)
| DeploymentJson (deployment : Deployment.t)
| DeploymentsJson (deployments : list Deployment.t)
| AnalyticsJson (analytics : list Analytics.t)
| ConversationJson (conversation : GroqConversation.t)
| ChatJson (response : JsVal)
| SuccessJson
| AvailableJson (available : bool)
| NoContent.

Record Response := mkResponse {
  status : Z;
  payload : Payload;
}.

(** [res.status(code).json(payload)]. *)
Definition respond {S} (code : Z) (p : Payload) : M S Response :=
  ret (mkResponse code p).

Definition groq_model : string := "mixtral-8x7b-32768".

(** [!user?.isPremium]. *)
Definition not_premium (user : option User.t) : bool :=
  match user with
  | Some u => match User.isPremium u with Some b => negb b | None => true end
  | None => true
  end.

(** [a !== b] on strings. *)
Definition differs (a b : string) : bool := negb (str_eqb a b).

(** [GET /api/applications/:id]; [sub] is [req.user.claims.sub]. *)
Definition get_application (sub : string) (id : string) : IO Response :=
  try_catch
    (let applicationId := parseInt id in
     application <- storage.getApplication applicationId ;;
     match application with
     | None => respond 404 (Message "Application not found")
     | Some application =>
         if differs (Application.userId application) sub then
           respond 403 (Message "Access denied")
         else respond 200 (ApplicationJson application)
     end)
    (fun error =>
       console_error "Error fetching application:" error ;;
       respond 500 (Message "Failed to fetch application")).

(** [POST /api/applications] *)
Definition post_applications (sub : string) (body : JsVal) : IO Response :=
  try_catch
    (let userId := sub in
     user <- storage.getUser userId ;;
     userApps <- storage.getUserApplications userId ;;
     if not_premium user && (1 <=? Z.of_nat (List.length userApps)) then
       respond 403 (Message
         "Free tier limited to 1 application. Upgrade to premium for unlimited apps.")
     else
       match insertApplicationSchema body userId with
       | ParseError message => respond 400 (Message message)
       | ParseOk data =>
           isAvailable <- storage.checkSubdomainAvailable
                            (InsertApplication.subdomain data) ;;
           if negb isAvailable then
             respond 400 (Message "Subdomain already taken")
           else
             application <- storage.createApplication data ;;
             respond 201 (ApplicationJson application)
       end)
    (fun error =>
       console_error "Error creating application:" error ;;
       respond 500 (Message "Failed to create application")).

(** [DELETE /api/applications/:id] *)
Definition delete_application (sub : string) (id : string) : IO Response :=
  try_catch
    (let applicationId := parseInt id in
     application <- storage.getApplication applicationId ;;
     match application with
     | None => respond 404 (Message "Application not found")
     | Some application =>
         if differs (Application.userId application) sub then
           respond 403 (Message "Access denied")
         else
           storage.deleteApplication applicationId ;;
           respond 204 NoContent
     end)
    (fun error =>
       console_error "Error deleting application:" error ;;
       respond 500 (Message "Failed to delete application")).

(** [GET /api/applications/:id/deployments] *)
Definition get_deployments (sub : string) (id : string) : IO Response :=
  try_catch
    (let applicationId := parseInt id in
     application <- storage.getApplication applicationId ;;
     match application with
     | None => respond 404 (Message "Application not found")
     | Some application =>
         if differs (Application.userId application) sub then
           respond 403 (Message "Access denied")
         else
           deployments <- storage.getApplicationDeployments applicationId ;;
           respond 200 (DeploymentsJson deployments)
     end)
    (fun error =>
       console_error "Error fetching deployments:" error ;;
       respond 500 (Message "Failed to fetch deployments")).

(** [POST /api/applications/:id/deploy]: [processDeployment] is called
    without [await], so the response does not wait for it. *)
Definition post_deploy (sub : string) (id : string) (file : option File)
  : IO Response :=
  try_catch
    (let applicationId := parseInt id in
     application <- storage.getApplication applicationId ;;
     match application with
     | None => respond 404 (Message "Application not found")
     | Some application =>
         if differs (Application.userId application) sub then
           respond 403 (Message "Access denied")
         else
           deployment <- storage.createDeployment
                           (InsertDeployment.mk applicationId (Some "building")) ;;
           modify (spawn (ProcessDeployment (Deployment.id deployment)
                            application file)) ;;
           respond 201 (DeploymentJson deployment)
     end)
    (fun error =>
       console_error "Error starting deployment:" error ;;
       respond 500 (Message "Failed to start deployment")).

(* ------------------------------------------------------------------ *)
(** *** [processDeployment] *)

(** The function's two mutable locals, which its [catch] block still sees. *)
Record Locals := mkLocals {
  logs : list string;
  analysisResult : JsVal;
}.

Definition Proc (A : Type) : Type := M (Locals * World) A.

Definition io {A} (m : IO A) : Proc A :=
  fun s => let r := m (snd s) in (fst r, (fst s, snd r)).

(** [array.push(x)]. *)
Definition push {A} (array : list A) (x : A) : list A := array ++ [x].

(** [logs.push(line)]. *)
Definition logs_push (line : string) : Proc unit :=
  modify (fun s => (mkLocals (push (logs (fst s)) line) (analysisResult (fst s)), snd s)).

(** [analysisResult = v]. *)
Definition assign_analysisResult (v : JsVal) : Proc unit :=
  modify (fun s => (mkLocals (logs (fst s)) v, snd s)).

(** [logs.join('\n')]. *)
Definition logs_join : Proc string :=
  s <- get ;; ret (join_lines (logs (fst s))).

Definition read_analysisResult : Proc JsVal :=
  s <- get ;; ret (analysisResult (fst s)).

(** [`${v}`] on a nullable text column. *)
Definition interpolate (v : option string) : string :=
  match v with Some s => s | None => "null" end.

(** [v || d] on a nullable text column. *)
Definition text_or (v : option string) (d : string) : string :=
  match v with
  | Some s => if str_empty s then d else s
  | None => d
  end.

Definition indent : string := "        ".

Definition analysisPrompt (application : Application.t) : string :=
  "Analyze this " ++ Application.sourceType application
    ++ " project for deployment optimization:" ++ nl
  ++ indent ++ "- Application name: " ++ Application.name application ++ nl
  ++ indent ++ "- Source type: " ++ Application.sourceType application ++ nl
  ++ indent ++ "- Build command: "
    ++ text_or (Application.buildCommand application) "auto-detect" ++ nl
  ++ indent ++ "- Output directory: "
    ++ interpolate (Application.outputDir application) ++ nl
  ++ indent ++ nl
  ++ indent ++ "Provide:" ++ nl
  ++ indent ++ "1. Recommended build configuration" ++ nl
  ++ indent ++ "2. Performance optimizations" ++ nl
  ++ indent ++ "3. Potential deployment issues" ++ nl
  ++ indent ++ "4. Security considerations" ++ nl
  ++ indent ++ nl
  ++ indent ++ "Be concise and practical.".

Definition analysis_request (application : Application.t) : ChatRequest :=
  mkChatRequest groq_model
    "You are an expert deployment engineer. Analyze projects and provide deployment optimization recommendations."
    (analysisPrompt application) 512 3.

Definition skipped_line : string :=
  "GroqAI analysis skipped - using default configuration".

Definition completed_line : string :=
  "GroqAI analysis completed successfully".

(** Lines 189-241: the analysis stage, with its own [try]/[catch]. *)
Definition analyze (application : Application.t) : Proc unit :=
  logs_push "Analyzing code with GroqAI..." ;;
  assign_analysisResult (JsStr "") ;;
  try_catch
    (groqResponse <- io (fetch (analysis_request application)) ;;
     if ok groqResponse then
       data <- json groqResponse ;;
       content <- first_choice_content data ;;
       assign_analysisResult (js_or content (JsStr "Analysis completed")) ;;
       logs_push completed_line
     else
       logs_push skipped_line)
    (fun error =>
       console_error "GroqAI analysis error:" error ;;
       logs_push skipped_line).

(** [{ analysis: analysisResult }]. *)
Definition analysis_blob (v : JsVal) : JsVal := JsObj [("analysis", v)].

Definition processDeployment (deploymentId : Z) (application : Application.t)
    (file : option File) : Proc unit :=
  try_catch
    (logs_push "Initializing deployment..." ;;
     l <- logs_join ;;
     io (storage.updateDeployment deploymentId
           (DeploymentPatch.mk None None (Some l) None)) ;;

     analyze application ;;

     l <- logs_join ;;
     a <- read_analysisResult ;;
     io (storage.updateDeployment deploymentId
           (DeploymentPatch.mk None None (Some l) (Some (analysis_blob a)))) ;;

     logs_push "Optimizing dependencies..." ;;
     io (sleep 1000) ;;

     logs_push "Building application..." ;;
     io (sleep 1500) ;;

     logs_push "Running tests..." ;;
     io (sleep 1000) ;;

     logs_push "Deploying to CDN..." ;;
     io (sleep 1500) ;;

     logs_push "Configuring subdomain..." ;;
     io (sleep 1000) ;;

     logs_push "Deployment complete!" ;;

     t <- io now ;;
     l <- logs_join ;;
     io (storage.updateDeployment deploymentId
           (DeploymentPatch.mk (Some "success") (Some t) (Some l) None)) ;;

     t <- io now ;;
     io (storage.updateApplication (Application.id application)
           (ApplicationPatch.mk (Some "live") (Some t)
              (Some ("https://" ++ Application.subdomain application
                       ++ ".seskrow.com")))) ;;
     ret tt)
    (fun error =>
       console_error "Deployment error:" error ;;
       logs_push ("Deployment failed: " ++ error) ;;

       l <- logs_join ;;
       io (storage.updateDeployment deploymentId
             (DeploymentPatch.mk (Some "failed") None (Some l) None)) ;;

       io (storage.updateApplication (Application.id application)
             (ApplicationPatch.mk (Some "failed") None None)) ;;
       ret tt).

(** A detached task, run to completion. Nothing awaits its promise, so a
    rejection reaches no handler; the outcome is returned to be observed. *)
Definition run_task (t : Task) : IO unit :=
  match t with
  | ProcessDeployment deploymentId application file =>
      fun w =>
        let r := processDeployment deploymentId application file
                   (mkLocals [] JsUndefined, w) in
        (fst r, snd (snd r))
  end.

(** The event loop taking up the oldest detached task. *)
Definition start_detached (w : World) : Outcome unit * World :=
  match spawned w with
  | t :: rest =>
      run_task t (mkWorld (db w) (clock w) (faults w) (net w) (trace w) rest)
  | [] => (Ok tt, w)
  end.

(* ------------------------------------------------------------------ *)
(** *** Analytics and chat routes *)

(** [GET /api/applications/:id/analytics]; [days] is [req.query.days]. *)
Definition get_analytics (sub : string) (id : string) (days : option string)
  : IO Response :=
  try_catch
    (let applicationId := parseInt id in
     application <- storage.getApplication applicationId ;;
     match application with
     | None => respond 404 (Message "Application not found")
     | Some application =>
         if differs (Application.userId application) sub then
           respond 403 (Message "Access denied")
         else
           let days := num_or (parseInt_param days) 30 in
           analytics <- storage.getApplicationAnalytics applicationId days ;;
           respond 200 (AnalyticsJson analytics)
     end)
    (fun error =>
       console_error "Error fetching analytics:" error ;;
       respond 500 (Message "Failed to fetch analytics")).

Definition chat_request (message : string) : ChatRequest :=
  mkChatRequest groq_model
    "You are a helpful AI assistant for SESKROW, a web hosting and deployment platform. Help users with deployment issues, code optimization, build configurations, and general development questions. Be concise but thorough in your responses. Focus on practical, actionable advice."
    message 1024 7.

Definition chat_empty_fallback : string :=
  "Sorry, I could not generate a response.".

Definition chat_error_fallback : string :=
  "I apologize, but I'm having trouble connecting to the AI service right now. Please try again in a moment, or contact support if the issue persists.".

(** [POST /api/groq/chat] *)
Definition post_chat (sub : string) (body : JsVal) : IO Response :=
  try_catch
    (let userId := sub in
     match insertGroqConversationSchema body userId with
     | ParseError message => respond 400 (Message message)
     | ParseOk validation_data =>
         response <-
           try_catch
             (groqResponse <-
                fetch (chat_request (InsertGroqConversation.message validation_data)) ;;
              (if negb (ok groqResponse) then
                 throw ("GroqAI API error: " ++ string_of_Z (http_status groqResponse))
               else ret tt) ;;
              data <- json groqResponse ;;
              content <- first_choice_content data ;;
              ret (js_or content (JsStr chat_empty_fallback)))
             (fun error =>
                console_error "GroqAI API error:" error ;;
                ret (JsStr chat_error_fallback)) ;;
         conversation <-
           storage.createConversation
             (InsertGroqConversation.mk
                (InsertGroqConversation.userId validation_data)
                (InsertGroqConversation.message validation_data)
                response) ;;
         respond 201 (ConversationJson conversation)
     end)
    (fun error =>
       console_error "Error creating conversation:" error ;;
       respond 500 (Message "Failed to process chat message")).

Definition public_system_prompt : string :=
  "You are a helpful AI assistant for SESKROW, a premium web hosting platform. You help visitors understand:" ++ nl
  ++ nl
  ++ "- Platform features and capabilities" ++ nl
  ++ "- Deployment process and options" ++ nl
  ++ "- Pricing and plans" ++ nl
  ++ "- Technical requirements" ++ nl
  ++ "- Getting started guidance" ++ nl
  ++ nl
  ++ "Be helpful, concise, and friendly. Focus on SESKROW's key benefits: AI-powered deployment, instant hosting, GitHub integration, and developer-friendly features.".

Definition public_chat_request (message : string) : ChatRequest :=
  mkChatRequest groq_model public_system_prompt message 500 7.

Definition public_empty_fallback : string :=
  "I apologize, but I cannot provide a response at the moment.".

Definition public_status_fallback : string :=
  "I'm having trouble connecting right now. Please try again or contact our support team for assistance.".

Definition public_error_fallback : string :=
  "I'm currently unavailable. Please try again later or contact our support team for help.".

(** The text of a value already known to be a string. *)
Definition text_of (v : JsVal) : string :=
  match v with JsStr s => s | _ => "" end.

(** [POST /api/groq/public-chat] *)
Definition post_public_chat (body : JsVal) : IO Response :=
  try_catch
    (message <- get_member body "message" ;;
     if negb (truthy message) || negb (is_string message) then
       respond 400 (Message "Message is required")
     else
       response <-
         try_catch
           (groqResponse <- fetch (public_chat_request (text_of message)) ;;
            if ok groqResponse then
              data <- json groqResponse ;;
              content <- first_choice_content data ;;
              ret (js_or content (JsStr public_empty_fallback))
            else
              ret (JsStr public_status_fallback))
           (fun error =>
              console_error "GroqAI public chat error:" error ;;
              ret (JsStr public_error_fallback)) ;;
       respond 200 (ChatJson response))
    (fun error =>
       console_error "Error in public chat:" error ;;
       respond 500 (Message "Failed to process chat message")).

(** [POST /api/track/:subdomain]; [ip] is [req.ip] and [userAgent] is
    [req.get('User-Agent')]. *)
Definition post_track (subdomain : string) (body : JsVal) (ip : option string)
    (userAgent : option string) : IO Response :=
  try_catch
    (path <- get_member body "path" ;;
     referer <- get_member body "referer" ;;
     apps <- storage.getUserApplications "" ;;
     let application :=
       find (fun app => str_eqb (Application.subdomain app) subdomain) apps in
     match application with
     | None => respond 404 (Message "Application not found")
     | Some application =>
         storage.recordAnalytics
           (InsertAnalytics.mk (Application.id application) ip
              (Some (text_or userAgent ""))
              (js_or path (JsStr "/"))
              (js_or referer (JsStr ""))
              (Some "Unknown") (Some "Unknown")) ;;
         respond 200 SuccessJson
     end)
    (fun error =>
       console_error "Error tracking analytics:" error ;;
       respond 500 (Message "Failed to track analytics")).

(** [GET /api/check-subdomain/:subdomain] *)
Definition get_check_subdomain (subdomain : string) : IO Response :=
  try_catch
    (isAvailable <- storage.checkSubdomainAvailable subdomain ;;
     respond 200 (AvailableJson isAvailable))
    (fun error =>
       console_error "Error checking subdomain:" error ;;
       respond 500 (Message "Failed to check subdomain")).

(** The five operations scoped to one application. *)
Inductive AppOperation : Type :=
| OpFetch
| OpDelete
| OpDeployments
| OpDeploy (file : option File)
| OpAnalytics (days : option string).

Definition run_operation (op : AppOperation) (sub : string) (id : string)
  : IO Response :=
  match op with
  | OpFetch => get_application sub id
  | OpDelete => delete_application sub id
  | OpDeployments => get_deployments sub id
  | OpDeploy file => post_deploy sub id file
  | OpAnalytics days => get_analytics sub id days
  end.

(* ================================================================== *)
(** ** Vocabulary of the properties *)

(** The first [n] queries of a schedule go through. *)
Fixpoint calm (n : nat) (fs : list (option string)) : Prop :=
  match n with
  | O => True
  | S k => head_fault fs = None /\ calm k (tl fs)
  end.

(** The upstream call fails: no answer, a status outside 2xx, a body that
    is not JSON, or a JSON body with no [choices] in it. *)
Definition upstream_failed (o : option FetchOutcome) : bool :=
  match o with
  | None | Some (NetworkError _) => true
  | Some (Responded r) =>
      negb (ok r)
      || match http_body r with
         | BadJson => true
         | Json data => nullish data || nullish (member data "choices")
         end
  end.

(** The upstream call answers 2xx with [choices: []]. *)
Definition empty_choices (o : option FetchOutcome) : bool :=
  match o with
  | Some (Responded r) =>
      ok r
      && match http_body r with
         | Json data =>
             match member data "choices" with
             | JsArr [] => true
             | _ => false
             end
         | BadJson => false
         end
  | _ => false
  end.

(** [data.choices[0]?.message?.content], once [data.choices] is known to be
    there. *)
Definition content_of (data : JsVal) : JsVal :=
  opt_member (opt_member (element0 (member data "choices")) "message") "content".

(** What the analysis stage makes of the upstream answer: the line it logs
    and the value it leaves in [analysisResult] (shown below to be what
    [analyze] does). *)
Definition analysis_outcome (o : option FetchOutcome) : string * JsVal :=
  match o with
  | Some (Responded r) =>
      if ok r then
        match http_body r with
        | Json data =>
            if nullish data || nullish (member data "choices") then
              (skipped_line, JsStr "")
            else
              (completed_line,
               js_or (content_of data) (JsStr "Analysis completed"))
        | BadJson => (skipped_line, JsStr "")
        end
      else (skipped_line, JsStr "")
  | Some (NetworkError _) | None => (skipped_line, JsStr "")
  end.

(** Either the upstream call failed or it answered with no choice. *)
Definition degraded (o : option FetchOutcome) : bool :=
  upstream_failed o || empty_choices o.

(** The text each chat route resolves from the upstream answer (shown below
    to be what the route's inner [try] block returns). *)
Definition public_reply (o : option FetchOutcome) : JsVal :=
  match o with
  | Some (Responded r) =>
      if ok r then
        match http_body r with
        | Json data =>
            if nullish data || nullish (member data "choices") then
              JsStr public_error_fallback
            else js_or (content_of data) (JsStr public_empty_fallback)
        | BadJson => JsStr public_error_fallback
        end
      else JsStr public_status_fallback
  | Some (NetworkError _) | None => JsStr public_error_fallback
  end.

Definition chat_reply (o : option FetchOutcome) : JsVal :=
  match o with
  | Some (Responded r) =>
      if ok r then
        match http_body r with
        | Json data =>
            if nullish data || nullish (member data "choices") then
              JsStr chat_error_fallback
            else js_or (content_of data) (JsStr chat_empty_fallback)
        | BadJson => JsStr chat_error_fallback
        end
      else JsStr chat_error_fallback
  | Some (NetworkError _) | None => JsStr chat_error_fallback
  end.

(** The content the upstream service gave, when the call succeeded and its
    body holds [choices]; [undefined] otherwise. *)
Definition upstream_content (o : option FetchOutcome) : JsVal :=
  match o with
  | Some (Responded r) =>
      if ok r then
        match http_body r with
        | Json data =>
            if nullish data || nullish (member data "choices") then JsUndefined
            else content_of data
        | BadJson => JsUndefined
        end
      else JsUndefined
  | Some (NetworkError _) | None => JsUndefined
  end.

(** A chat route resolved [v] from the content [c] the upstream service
    gave: the content itself when it is truthy, a non-empty fallback string
    otherwise. *)
Definition resolved_from (c v : JsVal) : Prop :=
  (truthy c = true -> v = c)
  /\ (truthy c = false -> exists s, v = JsStr s /\ s <> "").

(** Rows in the order of [ORDER BY key DESC]. *)
Definition newest_first {A} (key : A -> option Timestamp) (a b : A) : Prop :=
  desc_le (key a) (key b) = true.

(** [b] is [a] with whole lines added after it. *)
Definition line_prefix (a b : string) : Prop :=
  a = b \/ exists rest, b = a ++ nl ++ rest.

(** [line] is the last thing appended to [text]. *)
Definition ends_with_line (text line : string) : Prop :=
  text = line \/ exists before, text = before ++ nl ++ line.

(** The updates of [deployments] that a run got accepted, oldest first. *)
Fixpoint deployment_writes (evs : list Event) : list (Z * DeploymentPatch.t) :=
  match evs with
  | [] => []
  | EvUpdateDeployment id p :: rest => (id, p) :: deployment_writes rest
  | _ :: rest => deployment_writes rest
  end.

Definition log_texts (ups : list (Z * DeploymentPatch.t)) : list string :=
  flat_map (fun u => match DeploymentPatch.buildLogs (snd u) with
                     | Some l => [l]
                     | None => []
                     end) ups.

(** The error that ends the [try] block of a run, if any: the message of
    the first of its [n] awaited writes that throws, how many writes were
    accepted before it, and what is left of the schedule for the [catch]
    block. *)
Fixpoint first_fault (n : nat) (fs : list (option string))
  : option (nat * string * list (option string)) :=
  match n with
  | O => None
  | S k =>
      match head_fault fs with
      | Some message => Some (O, message, tl fs)
      | None =>
          match first_fault k (tl fs) with
          | Some (i, message, rest) => Some (S i, message, rest)
          | None => None
          end
      end
  end.

Definition error_of (failure : option (nat * string * list (option string)))
  : option string :=
  option_map (fun f => snd (fst f)) failure.

(** A terminal status together with the log text that goes with it:
    [success] over a text whose last line is "Deployment complete!",
    [failed] over a text that ends with the line made of
    "Deployment failed: " and the message of the error [error]. *)
Definition closes (error : option string) (status : string) (text : string)
  : Prop :=
  (status = "success" /\ ends_with_line text "Deployment complete!")
  \/ (status = "failed"
      /\ exists message,
           error = Some message
           /\ ends_with_line text ("Deployment failed: " ++ message)).

(** An update carries the logs, and when it sets a status it closes them. *)
Definition well_ended (error : option string) (p : DeploymentPatch.t) : Prop :=
  match DeploymentPatch.status p, DeploymentPatch.buildLogs p with
  | None, Some _ => True
  | Some s, Some text => closes error s text
  | _, None => False
  end.

(** The log text of a row ends with [line]. *)
Definition logs_end_with (line : string) (d : Deployment.t) : Prop :=
  exists text, Deployment.buildLogs d = Some text /\ ends_with_line text line.

(** The two statuses a deployment can end in. *)
Definition terminal (status : string) : Prop :=
  status = "success" \/ status = "failed".

(** The deployment row exists and its status is terminal. *)
Definition ends_terminal (id : Z) (w : World) : Prop :=
  exists d, select_deployment id (db w) = Some d /\ terminal (Deployment.status d).

(** An update that touches [status] and [buildLogs] and nothing else. *)
Definition only_status_and_logs (p : DeploymentPatch.t) : Prop :=
  DeploymentPatch.deployedAt p = None /\ DeploymentPatch.groqAnalysis p = None.

Definition quota_refusal : Response :=
  mkResponse 403 (Message
    "Free tier limited to 1 application. Upgrade to premium for unlimited apps.").

Definition not_found : Response := mkResponse 404 (Message "Application not found").
Definition access_denied : Response := mkResponse 403 (Message "Access denied").
Definition subdomain_conflict : Response :=
  mkResponse 400 (Message "Subdomain already taken").

Definition owned_by (userId : string) (d : Db) : list Application.t :=
  filter (fun a => str_eqb (Application.userId a) userId) (applications d).

Definition nonempty_text (v : JsVal) : Prop :=
  exists s, v = JsStr s /\ s <> "".

(* ------------------------------------------------------------------ *)
(** *** A small database to run the handlers on *)

Module Sample.
Definition alice : User.t :=
  User.mk "alice" (Some "alice@example.com") None None None (Some false)
    (Some 0) (Some 0).
Definition bob : User.t :=
  User.mk "bob" None None None None (Some true) (Some 0) (Some 0).

Definition demo : Application.t :=
  Application.mk 1 "alice" "Demo" "demo-1" None "zip" None None (Some "dist")
    "pending" None (Some 0) None (Some 10) (Some 10).

Definition deployment : Deployment.t :=
  Deployment.mk 1 1 "building" None None None (Some 20).

Definition day : Z := storage.ms_per_day.

(** A visit a hundred days before [start], and one an hour before. *)
Definition old_visit : Analytics.t :=
  Analytics.mk 1 1 (Some "10.0.0.1") (Some "curl") (Some "Unknown")
    (Some "Unknown") (JsStr "") (JsStr "/") (Some 0).
Definition new_visit : Analytics.t :=
  Analytics.mk 2 1 (Some "10.0.0.2") (Some "curl") (Some "Unknown")
    (Some "Unknown") (JsStr "") (JsStr "/") (Some (100 * day - 3600000)).

Definition tables : Db :=
  mkDb [alice; bob] [demo] [deployment] [old_visit; new_visit] [] 2 2 3 1.

Definition start : Timestamp := 100 * day.

Definition world (fs : list (option string)) (answers : list FetchOutcome)
  : World :=
  mkWorld tables start fs answers [] [].

Definition answer (data : JsVal) : FetchOutcome :=
  Responded (mkHttpResponse 200 (Json data)).

Definition pipeline : Task := ProcessDeployment 1 demo None.

(** The same platform before [demo] was created, and the request that
    creates it. *)
Definition fresh : World :=
  mkWorld (mkDb [alice; bob] [] [] [] [] 1 1 1 1) start [] [] [] [].
Definition demo_request : JsVal :=
  JsObj [("name", JsStr "Demo"); ("subdomain", JsStr "demo-1");
         ("sourceType", JsStr "zip")].

(** A request for a second application under the subdomain of [demo]. *)
Definition copy_request : JsVal :=
  JsObj [("name", JsStr "Copy"); ("subdomain", JsStr "demo-1");
         ("sourceType", JsStr "zip")].
Definition copy : InsertApplication.t :=
  InsertApplication.mk "bob" "Copy" "demo-1" Absent "zip" Absent Absent Absent
    None Absent Absent Absent.
End Sample.

(* ================================================================== *)
(** ** More of server/storage.ts *)

(** What [typeof users.$inferInsert] lets a caller give. *)
Module UpsertUser.
Record t := mk {
  id : string;
  email : Given string;
  firstName : Given string;
  lastName : Given string;
  profileImageUrl : Given string;
  isPremium : Given bool;
  createdAt : Given Timestamp;
  updatedAt : Given Timestamp;
}.
End UpsertUser.

Definition set_users (rows : list User.t) (d : Db) : Db :=
  mkDb rows (applications d) (deployments d) (analytics d) (groqConversations d)
    (applications_seq d) (deployments_seq d) (analytics_seq d)
    (groqConversations_seq d).

(** A column of [SET]: a key that is left out keeps the old value. *)
Definition assigned {A} (g : Given A) (old : option A) : option A :=
  match g with
  | Absent => old
  | Null => None
  | Val a => Some a
  end.

(** [a = b] on a nullable column: [NULL] equals nothing. *)
Definition same_text (a b : option string) : bool :=
  match a, b with
  | Some x, Some y => str_eqb x y
  | _, _ => false
  end.

Module storage_users.

(** The row [INSERT ... VALUES (userData)] builds, with the column
    defaults. *)
Definition inserted (t : Timestamp) (u : UpsertUser.t) : User.t :=
  User.mk (UpsertUser.id u)
    (stored (UpsertUser.email u) None)
    (stored (UpsertUser.firstName u) None)
    (stored (UpsertUser.lastName u) None)
    (stored (UpsertUser.profileImageUrl u) None)
    (stored (UpsertUser.isPremium u) (Some false))
    (stored (UpsertUser.createdAt u) (Some t))
    (stored (UpsertUser.updatedAt u) (Some t)).

(** The row [DO UPDATE SET {...userData, updatedAt: new Date()}] leaves. *)
Definition updated (t : Timestamp) (u : UpsertUser.t) (old : User.t) : User.t :=
  User.mk (UpsertUser.id u)
    (assigned (UpsertUser.email u) (User.email old))
    (assigned (UpsertUser.firstName u) (User.firstName old))
    (assigned (UpsertUser.lastName u) (User.lastName old))
    (assigned (UpsertUser.profileImageUrl u) (User.profileImageUrl old))
    (assigned (UpsertUser.isPremium u) (User.isPremium old))
    (assigned (UpsertUser.createdAt u) (User.createdAt old))
    (Some t).

(** [email] is unique: some other row already holds this one. *)
Definition email_taken (id : string) (email : option string) (d : Db) : bool :=
  existsb (fun u => negb (str_eqb (User.id u) id) && same_text (User.email u) email)
    (users d).

(** [insert(users).values(userData).onConflictDoUpdate({target: users.id,
    set: {...userData, updatedAt: new Date()}}).returning()]. The trace
    keeps no event for this table. *)
Definition upsertUser (userData : UpsertUser.t) : IO User.t :=
  t <- now ;;
  query ;;
  w <- get ;;
  let id := UpsertUser.id userData in
  match select_user id (db w) with
  | None =>
      let user := inserted (clock w) userData in
      if email_taken id (User.email user) (db w) then
        throw "duplicate key value violates unique constraint users_email_unique"
      else
        modify (with_db (fun d => set_users (users d ++ [user]) d)) ;;
        ret user
  | Some old =>
      let user := updated t userData old in
      if email_taken id (User.email user) (db w) then
        throw "duplicate key value violates unique constraint users_email_unique"
      else
        modify (with_db (fun d =>
          set_users
            (map (fun u => if str_eqb (User.id u) id then updated t userData u else u)
               (users d)) d)) ;;
        ret user
  end.

(** [getUserConversations(userId, limit = 50)]; the query builder leaves
    the [LIMIT] clause out when the number is negative. *)
Definition getUserConversations (userId : string) (limit : option Z)
  : IO (list GroqConversation.t) :=
  let limit := match limit with Some l => l | None => 50 end in
  query ;;
  w <- get ;;
  let rows :=
    order_by_desc GroqConversation.createdAt
      (filter (fun c => str_eqb (GroqConversation.userId c) userId)
         (groqConversations (db w))) in
  ret (if limit <? 0 then rows else firstn (Z.to_nat limit) rows).

End storage_users.

(* ================================================================== *)
(** ** More of server/routes.ts *)

(** What the listing routes send. *)
Inductive Listing : Type :=
| UserBody (user : option User.t)
| ApplicationsBody (applications : list Application.t)
| ConversationsBody (conversations : list GroqConversation.t)
| ErrorBody (message : string).

Record Reply := mkReply {
  reply_status : Z;
  reply_body : Listing;
}.

Definition reply {S} (code : Z) (b : Listing) : M S Reply := ret (mkReply code b).

(** [GET /api/auth/user] *)
Definition get_auth_user (sub : string) : IO Reply :=
  try_catch
    (let userId := sub in
     user <- storage.getUser userId ;;
     reply 200 (UserBody user))
    (fun error =>
       console_error "Error fetching user:" error ;;
       reply 500 (ErrorBody "Failed to fetch user")).

(** [GET /api/applications] *)
Definition get_applications (sub : string) : IO Reply :=
  try_catch
    (let userId := sub in
     applications <- storage.getUserApplications userId ;;
     reply 200 (ApplicationsBody applications))
    (fun error =>
       console_error "Error fetching applications:" error ;;
       reply 500 (ErrorBody "Failed to fetch applications")).

(** [GET /api/groq/conversations] *)
Definition get_conversations (sub : string) : IO Reply :=
  try_catch
    (let userId := sub in
     conversations <- storage_users.getUserConversations userId None ;;
     reply 200 (ConversationsBody conversations))
    (fun error =>
       console_error "Error fetching conversations:" error ;;
       reply 500 (ErrorBody "Failed to fetch conversations")).

(** A response whose body is a JSON value. *)
Record JsonReply := mkJsonReply {
  json_status : Z;
  json_body : JsVal;
}.

Definition send {S} (code : Z) (body : JsVal) : M S JsonReply :=
  ret (mkJsonReply code body).

Definition message_body (message : string) : JsVal :=
  JsObj [("message", JsStr message)].

Definition success_body : JsVal := JsObj [("success", JsBool true)].

(** [a === s] for a string literal [s]. *)
Definition is_text (a : JsVal) (s : string) : bool :=
  match a with
  | JsStr x => str_eqb x s
  | _ => false
  end.

(** [storage.createUser(...)]: [DatabaseStorage] has no such method, so the
    call throws once its argument has been built. *)
Definition storage_createUser {A} (user : JsVal) : IO A :=
  throw "storage.createUser is not a function".

(** [POST /api/register] *)
Definition post_register (body : JsVal) : IO JsonReply :=
  try_catch
    (let userData := body in
     t <- now ;;
     email <- get_member userData "email" ;;
     firstName <- get_member userData "firstName" ;;
     lastName <- get_member userData "lastName" ;;
     plan <- get_member userData "plan" ;;
     user <- storage_createUser
               (JsObj [("id", JsStr ("user_" ++ string_of_Z t));
                       ("email", email);
                       ("firstName", firstName);
                       ("lastName", lastName);
                       ("plan", plan);
                       ("isPremium", JsBool (negb (is_text plan "free")))]) ;;
     send 201 (JsObj [("success", JsBool true); ("user", user)]))
    (fun error =>
       console_error "Registration error:" error ;;
       send 500 (message_body "Failed to register user")).

(* ------------------------------------------------------------------ *)
(** *** Admin routes *)

(** [req.session]: the flag is [undefined] until a route sets it. *)
Record Session := mkSession {
  isAdmin : JsVal;
}.

Definition Admin (A : Type) : Type := M Session A.

Definition mock_users : JsVal :=
  JsArr
    [JsObj [("id", JsStr "1"); ("email", JsStr "user1@example.com");
            ("firstName", JsStr "John"); ("lastName", JsStr "Doe");
            ("plan", JsStr "free"); ("isPremium", JsBool false);
            ("createdAt", JsStr "2024-01-01"); ("lastLogin", JsStr "2024-01-15");
            ("totalApplications", JsNum 2); ("totalFileUploads", JsNum 5);
            ("monthlyRevenue", JsNum 0)];
     JsObj [("id", JsStr "2"); ("email", JsStr "user2@example.com");
            ("firstName", JsStr "Jane"); ("lastName", JsStr "Smith");
            ("plan", JsStr "premium"); ("isPremium", JsBool true);
            ("createdAt", JsStr "2024-01-02"); ("lastLogin", JsStr "2024-01-16");
            ("totalApplications", JsNum 8); ("totalFileUploads", JsNum 15);
            ("monthlyRevenue", JsNum 35)]].

Definition mock_analytics : JsVal :=
  JsObj [("totalRevenue", JsNum 1250); ("monthlyRevenue", JsNum 350);
         ("totalUsers", JsNum 125); ("premiumUsers", JsNum 45)].

(** [POST /api/admin/login] *)
Definition post_admin_login (body : JsVal) : Admin JsonReply :=
  try_catch
    (username <- get_member body "username" ;;
     password <- get_member body "password" ;;
     if is_text username "admin" && is_text password "seskrow2024" then
       modify (fun _ => mkSession (JsBool true)) ;;
       send 200 success_body
     else
       send 401 (message_body "Invalid credentials"))
    (fun error =>
       console_error "Admin login error:" error ;;
       send 500 (message_body "Login failed")).

(** [GET /api/admin/verify] *)
Definition get_admin_verify : Admin JsonReply :=
  session <- get ;;
  if truthy (isAdmin session) then send 200 success_body
  else send 401 (message_body "Unauthorized").

(** [GET /api/admin/users] *)
Definition get_admin_users : Admin JsonReply :=
  session <- get ;;
  if negb (truthy (isAdmin session)) then send 401 (message_body "Unauthorized")
  else send 200 mock_users.

(** [GET /api/admin/analytics] *)
Definition get_admin_analytics : Admin JsonReply :=
  session <- get ;;
  if negb (truthy (isAdmin session)) then send 401 (message_body "Unauthorized")
  else send 200 mock_analytics.

(** [GET /api/admin/logout] *)
Definition get_admin_logout : Admin JsonReply :=
  modify (fun _ => mkSession (JsBool false)) ;;
  send 200 success_body.

Inductive AdminRequest : Type :=
| Login (body : JsVal)
| Verify
| ListUsers
| ReadAnalytics
| Logout.

Definition serve_admin (q : AdminRequest) : Admin JsonReply :=
  match q with
  | Login body => post_admin_login body
  | Verify => get_admin_verify
  | ListUsers => get_admin_users
  | ReadAnalytics => get_admin_analytics
  | Logout => get_admin_logout
  end.

(** The requests of one session, served in order. *)
Fixpoint serve_all (qs : list AdminRequest) (s : Session) : Session :=
  match qs with
  | [] => s
  | q :: rest => serve_all rest (snd (serve_admin q s))
  end.

(** The login that is accepted. *)
Definition good_login (q : AdminRequest) : bool :=
  match q with
  | Login body =>
      negb (nullish body)
      && is_text (member body "username") "admin"
      && is_text (member body "password") "seskrow2024"
  | _ => false
  end.

(** What the flag is after the requests [qs], read off the last request
    among them that is an accepted login or a logout. *)
Fixpoint flag_after (qs : list AdminRequest) (start : JsVal) : JsVal :=
  match qs with
  | [] => start
  | q :: rest =>
      flag_after rest
        (if good_login q then JsBool true
         else match q with Logout => JsBool false | _ => start end)
  end.

(* ------------------------------------------------------------------ *)
(** *** Vocabulary of the further properties *)

(** A route that reads. *)
Inductive ReadRequest : Type :=
| ReadUser
| ReadApplications
| ReadConversations
| ReadApplication (id : string)
| ReadDeployments (id : string)
| ReadAnalyticsOf (id : string) (days : option string)
| ReadSubdomain (subdomain : string).

(** The world a read leaves. *)
Definition after_read (q : ReadRequest) (sub : string) (w : World) : World :=
  match q with
  | ReadUser => snd (get_auth_user sub w)
  | ReadApplications => snd (get_applications sub w)
  | ReadConversations => snd (get_conversations sub w)
  | ReadApplication id => snd (get_application sub id w)
  | ReadDeployments id => snd (get_deployments sub id w)
  | ReadAnalyticsOf id days => snd (get_analytics sub id days w)
  | ReadSubdomain subdomain => snd (get_check_subdomain subdomain w)
  end.

(** What a run of the pipeline may do to a row of [deployments]: nothing
    when it is not the target, and in any case it keeps the key, the
    application and the creation time. *)
Definition deployment_kept (target : Z) (r r' : Deployment.t) : Prop :=
  Deployment.id r' = Deployment.id r
  /\ Deployment.applicationId r' = Deployment.applicationId r
  /\ Deployment.createdAt r' = Deployment.createdAt r
  /\ (Deployment.id r <> target -> r' = r).

(** And to a row of [applications]: only the status, the URL and the two
    times of a target row change. *)
Definition application_kept (target : Z) (a a' : Application.t) : Prop :=
  Application.id a' = Application.id a
  /\ Application.userId a' = Application.userId a
  /\ Application.name a' = Application.name a
  /\ Application.subdomain a' = Application.subdomain a
  /\ Application.description a' = Application.description a
  /\ Application.sourceType a' = Application.sourceType a
  /\ Application.sourceUrl a' = Application.sourceUrl a
  /\ Application.buildCommand a' = Application.buildCommand a
  /\ Application.outputDir a' = Application.outputDir a
  /\ Application.storageUsed a' = Application.storageUsed a
  /\ Application.createdAt a' = Application.createdAt a
  /\ (Application.id a <> target -> a' = a).

(** The sequences are ahead of every key in use, and no key is used
    twice. *)
Definition keys_fresh (d : Db) : Prop :=
  Forall (fun a => Application.id a < applications_seq d) (applications d)
  /\ Forall (fun r => Deployment.id r < deployments_seq d) (deployments d)
  /\ NoDup (map Application.id (applications d))
  /\ NoDup (map Deployment.id (deployments d)).

(** The application updates of a run, each with the event just before it. *)
Fixpoint application_writes (previous : option Event) (evs : list Event)
  : list (option Event * ApplicationPatch.t) :=
  match evs with
  | [] => []
  | EvUpdateApplication id p :: rest =>
      (previous, p) :: application_writes (Some (EvUpdateApplication id p)) rest
  | e :: rest => application_writes (Some e) rest
  end.

(** The status an event writes to a deployment, if it is such an update. *)
Definition deployment_status_of (e : option Event) : option string :=
  match e with
  | Some (EvUpdateDeployment _ p) => DeploymentPatch.status p
  | _ => None
  end.

Definition fetches (evs : list Event) : list ChatRequest :=
  flat_map (fun e => match e with EvFetch q => [q] | _ => [] end) evs.

(** The same rows in every table; the sequences may differ. *)
Definition same_tables (d d' : Db) : Prop :=
  users d' = users d
  /\ applications d' = applications d
  /\ deployments d' = deployments d
  /\ analytics d' = analytics d
  /\ groqConversations d' = groqConversations d.

(** The key the database reads in an [:id] parameter, if it reads one. *)
Definition integer_key (id : string) : option Z :=
  match parseInt id with
  | Some n => if fits_integer n then Some n else None
  | None => None
  end.

(** The message each guarded operation sends with a 500. *)
Definition failure_message (op : AppOperation) : string :=
  match op with
  | OpFetch => "Failed to fetch application"
  | OpDelete => "Failed to delete application"
  | OpDeployments => "Failed to fetch deployments"
  | OpDeploy _ => "Failed to start deployment"
  | OpAnalytics _ => "Failed to fetch analytics"
  end.

(** The quota lets this user create an application. *)
Definition within_quota (sub : string) (d : Db) : Prop :=
  not_premium (select_user sub d) = false \/ owned_by sub d = [].

(** No row of [deployments] or [analytics] refers to the application. *)
Definition unreferenced (n : Z) (d : Db) : Prop :=
  existsb (fun r => Deployment.applicationId r =? n) (deployments d) = false
  /\ existsb (fun e => Analytics.applicationId e =? n) (analytics d) = false.

(* ------------------------------------------------------------------ *)
(** *** Actions, and what they keep *)

(** [id] is the primary key of [users], and no two users share an
    [email]. *)
Definition users_unique (d : Db) : Prop :=
  NoDup (map User.id (users d))
  /\ forall u v, In u (users d) -> In v (users d) ->
       User.id u <> User.id v ->
       same_text (User.email u) (User.email v) = false.

(** Everything a client, or the event loop with a detached task, can make
    the server do to the world. *)
Inductive Action : Type :=
| SignIn (userData : UpsertUser.t)
| Create (sub : string) (body : JsVal)
| Delete (sub id : string)
| Deploy (sub id : string) (file : option File)
| RunDetached
| Track (subdomain : string) (body : JsVal) (ip userAgent : option string)
| Chat (sub : string) (body : JsVal)
| PublicChat (body : JsVal)
| Read (q : ReadRequest) (sub : string).

Definition act (a : Action) (w : World) : World :=
  match a with
  | SignIn userData => snd (storage_users.upsertUser userData w)
  | Create sub body => snd (post_applications sub body w)
  | Delete sub id => snd (delete_application sub id w)
  | Deploy sub id file => snd (post_deploy sub id file w)
  | RunDetached => snd (start_detached w)
  | Track subdomain body ip userAgent =>
      snd (post_track subdomain body ip userAgent w)
  | Chat sub body => snd (post_chat sub body w)
  | PublicChat body => snd (post_public_chat body w)
  | Read q sub => after_read q sub w
  end.

(** Actions served one after the other, each run to completion. *)
Definition run_all (l : list Action) (w : World) : World :=
  fold_left (fun w a => act a w) l w.

(** The ways one action can change the tables. *)
Inductive db_step (d : Db) : Db -> Prop :=
| step_none : db_step d d
| step_keys d' :
    users d' = users d ->
    applications d' = applications d ->
    deployments d' = deployments d ->
    analytics d' = analytics d ->
    groqConversations d' = groqConversations d ->
    applications_seq d <= applications_seq d' ->
    deployments_seq d <= deployments_seq d' ->
    db_step d d'
| step_users rows :
    (forall k, storage.user_exists k d = true ->
               existsb (fun u => str_eqb (User.id u) k) rows = true) ->
    db_step d (set_users rows d)
| step_application row :
    Application.id row = applications_seq d ->
    storage.subdomain_taken (Application.subdomain row) d = false ->
    storage.user_exists (Application.userId row) d = true ->
    within_quota (Application.userId row) d ->
    db_step d (add_application row d)
| step_removed n :
    unreferenced n d ->
    db_step d
      (set_applications
         (filter (fun a => negb (Application.id a =? n)) (applications d)) d)
| step_deployment row :
    Deployment.id row = deployments_seq d ->
    storage.application_exists (Deployment.applicationId row) d = true ->
    db_step d (add_deployment row d)
| step_pipeline d' k t :
    users d' = users d ->
    analytics d' = analytics d ->
    groqConversations d' = groqConversations d ->
    applications_seq d' = applications_seq d ->
    deployments_seq d' = deployments_seq d ->
    Forall2 (deployment_kept k) (deployments d) (deployments d') ->
    Forall2 (application_kept t) (applications d) (applications d') ->
    db_step d d'
| step_visit row :
    storage.application_exists (Analytics.applicationId row) d = true ->
    db_step d (add_analytics row d)
| step_conversation row :
    storage.user_exists (GroqConversation.userId row) d = true ->
    db_step d (add_conversation row d).

(** Every reference points at a row that is there. *)
Definition well_referenced (d : Db) : Prop :=
  Forall (fun a => storage.user_exists (Application.userId a) d = true)
    (applications d)
  /\ Forall (fun r => storage.application_exists (Deployment.applicationId r) d = true)
       (deployments d)
  /\ Forall (fun e => storage.application_exists (Analytics.applicationId e) d = true)
       (analytics d)
  /\ Forall (fun c => storage.user_exists (GroqConversation.userId c) d = true)
       (groqConversations d).

(** What the constraints of the schema promise about the tables. *)
Definition consistent (d : Db) : Prop :=
  keys_fresh d
  /\ well_referenced d
  /\ NoDup (map Application.subdomain (applications d)).

(** The columns of an application that say what it is and whose. *)
Definition same_identity (a a' : Application.t) : Prop :=
  Application.id a' = Application.id a
  /\ Application.userId a' = Application.userId a
  /\ Application.name a' = Application.name a
  /\ Application.subdomain a' = Application.subdomain a
  /\ Application.description a' = Application.description a
  /\ Application.sourceType a' = Application.sourceType a
  /\ Application.sourceUrl a' = Application.sourceUrl a
  /\ Application.buildCommand a' = Application.buildCommand a
  /\ Application.outputDir a' = Application.outputDir a
  /\ Application.storageUsed a' = Application.storageUsed a
  /\ Application.createdAt a' = Application.createdAt a.

(** A user who is not premium owns at most one application. *)
Definition quota_respected (d : Db) : Prop :=
  forall sub,
    not_premium (select_user sub d) = true ->
    (List.length (owned_by sub d) <= 1)%nat.

(** An action that is not a sign-in. *)
Definition keeps_users (a : Action) : bool :=
  match a with
  | SignIn _ => false
  | _ => true
  end.

(* ================================================================== *)
(** ** Running the monad one step at a time *)

Section Steps.
Context {S A B : Type}.

Lemma bind_step (m : M S A) (k : A -> M S B) (s : S) :
  bind m k s =
  match m s with
  | (Ok a, s') => k a s'
  | (Throw e, s') => (Throw e, s')
  end.
Proof. reflexivity. Qed.

Lemma try_bind (m : M S A) (k : A -> M S B) (h : string -> M S B) (s : S) :
  try_catch (bind m k) h s =
  match m s with
  | (Ok a, s') => try_catch (k a) h s'
  | (Throw e, s') => h e s'
  end.
Proof. unfold try_catch, bind. destruct (m s) as [[a|e] s']; reflexivity. Qed.

Lemma try_ret (a : A) (h : string -> M S A) (s : S) :
  try_catch (ret a) h s = (Ok a, s).
Proof. reflexivity. Qed.
End Steps.

Section LocalSteps.
Variables (l : Locals) (w : World).

Lemma logs_push_run line :
  logs_push line (l, w) =
  (Ok tt, (mkLocals (push (logs l) line) (analysisResult l), w)).
Proof. reflexivity. Qed.

Lemma logs_join_run : logs_join (l, w) = (Ok (join_lines (logs l)), (l, w)).
Proof. reflexivity. Qed.

Lemma read_analysisResult_run :
  read_analysisResult (l, w) = (Ok (analysisResult l), (l, w)).
Proof. reflexivity. Qed.

Lemma console_error_run a b : console_error a b (l, w) = (Ok tt, (l, w)).
Proof. reflexivity. Qed.

Lemma ret_run {A} (a : A) : ret a (l, w) = (Ok a, (l, w)).
Proof. reflexivity. Qed.
End LocalSteps.

Section WorldSteps.
Variables (l : Locals) (d : Db) (c : Timestamp) (fs : list (option string))
  (nt : list FetchOutcome) (tr : list Event) (sp : list Task).

Lemma io_now_run :
  io now (l, mkWorld d c fs nt tr sp) = (Ok c, (l, mkWorld d c fs nt tr sp)).
Proof. reflexivity. Qed.

Lemma io_sleep_run ms :
  io (sleep ms) (l, mkWorld d c fs nt tr sp) =
  (Ok tt, (l, mkWorld d (c + ms) fs nt tr sp)).
Proof. reflexivity. Qed.

Lemma io_updateDeployment id p :
  io (storage.updateDeployment id p) (l, mkWorld d c fs nt tr sp) =
  match head_fault fs with
  | Some e => (Throw e, (l, mkWorld d c (tl fs) nt tr sp))
  | None =>
      (Ok (select_deployment id (storage.update_deployments id p d)),
       (l, mkWorld (storage.update_deployments id p d) c (tl fs) nt
             (tr ++ [EvUpdateDeployment id p]) sp))
  end.
Proof.
  unfold io, storage.updateDeployment, query, bind; cbn.
  destruct (head_fault fs); reflexivity.
Qed.

Lemma io_updateApplication id p :
  io (storage.updateApplication id p) (l, mkWorld d c fs nt tr sp) =
  match head_fault fs with
  | Some e => (Throw e, (l, mkWorld d c (tl fs) nt tr sp))
  | None =>
      (Ok (select_application id (storage.update_applications id p c d)),
       (l, mkWorld (storage.update_applications id p c d) c (tl fs) nt
             (tr ++ [EvUpdateApplication id p]) sp))
  end.
Proof.
  unfold io, storage.updateApplication, query, bind; cbn.
  destruct (head_fault fs); reflexivity.
Qed.

(** The analysis stage never throws; it logs two lines and sends one
    request. *)
Lemma analyze_run (application : Application.t) :
  analyze application (l, mkWorld d c fs nt tr sp) =
  (Ok tt,
   (mkLocals (push (push (logs l) "Analyzing code with GroqAI...")
                (fst (analysis_outcome (hd_error nt))))
      (snd (analysis_outcome (hd_error nt))),
    mkWorld d c fs (tl nt) (tr ++ [EvFetch (analysis_request application)]) sp)).
Proof.
  destruct l as [lg ar].
  unfold analyze, analysis_outcome, content_of.
  destruct nt as [|[m|[st [|data]]] nt'];
    cbv [bind ret throw try_catch get modify console_error io logs_push
         assign_analysisResult with_net record_event fetch json get_member
         get_element0 first_choice_content fst snd logs analysisResult db clock
         faults net trace spawned];
    cbn [hd_error tl http_body]; try reflexivity.
  - destruct (ok _); reflexivity.
  - destruct (ok _); [|reflexivity].
    destruct (nullish data) eqn:Hd; cbn [orb]; [reflexivity|].
    destruct (nullish (member data "choices")) eqn:Hc; reflexivity.
Qed.
End WorldSteps.

(** One statement of [processDeployment]: expose it, run it, go on. *)
Ltac step :=
  first [ rewrite try_bind | rewrite try_ret | rewrite bind_step ];
  first [ rewrite io_updateDeployment | rewrite io_updateApplication
        | rewrite analyze_run | rewrite logs_push_run | rewrite logs_join_run
        | rewrite read_analysisResult_run | rewrite io_now_run
        | rewrite io_sleep_run | rewrite console_error_run | rewrite ret_run
        | idtac ];
  cbv beta iota; cbn [logs analysisResult].

(** Every run of the pipeline, one goal per way the schedule can go. The
    run is set aside under a name while it is computed, so that each step
    rewrites one copy of it. *)
Ltac run_pipeline :=
  match goal with
  | |- context [run_task (ProcessDeployment ?i ?a ?f) ?w] =>
      let r := fresh "r" in
      let Hr := fresh "Hr" in
      remember (run_task (ProcessDeployment i a f) w) as r eqn:Hr;
      revert Hr; unfold run_task, processDeployment;
      repeat (step;
              try match goal with
                  | H : head_fault ?fs = _
                    |- context [match head_fault ?fs with _ => _ end] =>
                      rewrite H; cbv beta iota
                  | |- context [match head_fault ?fs with _ => _ end] =>
                      destruct (head_fault fs) eqn:?
                  end);
      rewrite ?ret_run; cbn [fst snd]; intros ->; cbn [fst snd trace db]
  end.

(* ------------------------------------------------------------------ *)
(** *** Lines and tables *)

Lemma append_assoc (a b c : string) : (a ++ b) ++ c = a ++ (b ++ c).
Proof. induction a; cbn; congruence. Qed.

Lemma push_nonempty {A} (l : list A) (x : A) : push l x <> [].
Proof. unfold push. destruct l; discriminate. Qed.

Lemma join_lines_push (l : list string) (x : string) :
  l <> [] -> join_lines (push l x) = join_lines l ++ nl ++ x.
Proof.
  unfold push. induction l as [|a l IH]; [congruence|]. intros _.
  destruct l as [|b l]; [reflexivity|].
  change (join_lines ((a :: b :: l) ++ [x]))
    with (a ++ nl ++ join_lines ((b :: l) ++ [x])).
  rewrite IH by discriminate.
  change (join_lines (a :: b :: l)) with (a ++ nl ++ join_lines (b :: l)).
  now rewrite !append_assoc.
Qed.

Lemma line_prefix_refl a : line_prefix a a.
Proof. now left. Qed.

Lemma line_prefix_push a l x :
  l <> [] -> line_prefix a (join_lines l) -> line_prefix a (join_lines (push l x)).
Proof.
  intros Hl H. rewrite join_lines_push by assumption. destruct H as [->|[rest ->]].
  - right. now exists x.
  - right. exists (rest ++ nl ++ x). now rewrite !append_assoc.
Qed.

Lemma ends_with_line_push l x : ends_with_line (join_lines (push l x)) x.
Proof.
  destruct l as [|a l]; [now left|]. right. exists (join_lines (a :: l)).
  now apply join_lines_push.
Qed.

Lemma select_deployment_updated id p d :
  select_deployment id (storage.update_deployments id p d)
  = option_map (storage.patch_deployment p) (select_deployment id d).
Proof.
  unfold select_deployment, storage.update_deployments.
  cbn [deployments set_deployments].
  induction (deployments d) as [|r rows IH]; [reflexivity|]. cbn [map filter].
  destruct (Deployment.id r =? id) eqn:E.
  - cbn [storage.patch_deployment Deployment.id]. rewrite E. reflexivity.
  - rewrite E. exact IH.
Qed.

Lemma select_deployment_applications id i p t d :
  select_deployment id (storage.update_applications i p t d) = select_deployment id d.
Proof. reflexivity. Qed.

Lemma select_application_updated id p t d :
  select_application id (storage.update_applications id p t d)
  = option_map (storage.patch_application p t) (select_application id d).
Proof.
  unfold select_application, storage.update_applications.
  cbn [applications set_applications].
  induction (applications d) as [|r rows IH]; [reflexivity|]. cbn [map filter].
  destruct (Application.id r =? id) eqn:E.
  - cbn [storage.patch_application Application.id]. rewrite E. reflexivity.
  - rewrite E. exact IH.
Qed.

Lemma select_application_deployments id i p d :
  select_application id (storage.update_deployments i p d) = select_application id d.
Proof. reflexivity. Qed.

Lemma closes_success error l :
  closes error "success" (join_lines (push l "Deployment complete!")).
Proof. left. split; [reflexivity|apply ends_with_line_push]. Qed.

Lemma closes_failed l message :
  closes (Some message) "failed"
    (join_lines (push l ("Deployment failed: " ++ message))).
Proof.
  right. split; [reflexivity|]. exists message.
  split; [reflexivity|apply ends_with_line_push].
Qed.

Ltac lines :=
  repeat first [ apply line_prefix_refl
               | apply line_prefix_push; [apply push_nonempty|] ].

Ltac each :=
  repeat first [ apply Forall_nil | apply Forall_cons
               | apply SSorted_nil | apply SSorted_cons ].

(** The events a run added, read off the final trace. *)
Ltac added_events :=
  rewrite <- ?(app_assoc (A:=Event));
  first [ exists []; split; [symmetry; apply app_nil_r|]
        | eexists; split; [reflexivity|] ];
  cbn [app deployment_writes log_texts flat_map DeploymentPatch.buildLogs
       DeploymentPatch.status DeploymentPatch.deployedAt
       DeploymentPatch.groqAnalysis snd fst].

Ltac final_row H :=
  rewrite ?select_deployment_applications, ?select_deployment_updated, H;
  cbn [option_map].

(* ================================================================== *)
(** ** The deployment pipeline *)

(** C1, as stated, fails when the database is down for the whole run: the
    first update throws, the update of the [catch] block throws too, and the
    deployment keeps the status it was created with. *)
Lemma pipeline_can_end_building :
  let w := Sample.world [Some "connection refused"; Some "connection refused"] [] in
  let r := run_task Sample.pipeline w in
  fst r = Throw "connection refused"
  /\ trace (snd r) = []
  /\ option_map Deployment.status (select_deployment 1 (db (snd r))) = Some "building"
  /\ ~ ends_terminal 1 (snd r).
Proof.
  cbv zeta. repeat split; try reflexivity.
  intros [d [H [E|E]]]; vm_compute in H; injection H as <-; discriminate E.
Qed.

(** C1, amended: whatever the database and the upstream service do, every
    update of the deployment that a run persists carries the whole log text,
    each text is the previous one with lines added after it, and an update
    that sets a status sets [success] over a text whose last line is
    "Deployment complete!" or [failed] over a text that ends with the line
    "Deployment failed: " and the message of the error that stopped the
    run. How the run ends is decided by its awaited writes alone. When the
    four of the [try] block are accepted, it ends without error at
    [success]. When one of them throws and the update of the [catch] block
    is accepted, the deployment is [failed] over that line, and the run ends
    without error unless the update of the application that follows throws.
    When the update of the [catch] block throws too, the run ends with that
    error uncaught and writes no [failed]: the status is the one the
    deployment had, or [success] if the write that threw came after the
    success update. *)
Theorem pipeline_logs_and_status deploymentId application file w d :
  select_deployment deploymentId (db w) = Some d ->
  let r := run_task (ProcessDeployment deploymentId application file) w in
  let failure := first_fault 4 (faults w) in
  exists evs,
    trace (snd r) = (trace w ++ evs)%list
    /\ Forall (fun u => fst u = deploymentId
                        /\ well_ended (error_of failure) (snd u))
         (deployment_writes evs)
    /\ StronglySorted line_prefix (log_texts (deployment_writes evs))
    /\ exists d',
         select_deployment deploymentId (db (snd r)) = Some d'
         /\ match failure with
            | None =>
                fst r = Ok tt
                /\ Deployment.status d' = "success"
                /\ logs_end_with "Deployment complete!" d'
            | Some (accepted, message, rest) =>
                match head_fault rest with
                | None =>
                    Deployment.status d' = "failed"
                    /\ logs_end_with ("Deployment failed: " ++ message) d'
                    /\ fst r = match head_fault (tl rest) with
                               | None => Ok tt
                               | Some e => Throw e
                               end
                | Some e =>
                    fst r = Throw e
                    /\ Deployment.status d'
                       = (if Nat.eqb accepted 3 then "success"
                          else Deployment.status d)
                    /\ (accepted = 3%nat ->
                        logs_end_with "Deployment complete!" d')
                end
            end.
Proof.
  destruct w as [db0 c fs nt tr sp]. cbn [db faults]. intros Hd. cbv zeta.
  cbn [first_fault].
  run_pipeline.
  all: cbv beta iota; cbn [error_of option_map fst snd].
  all: added_events.
  all: split;
    [ each; (split; [reflexivity|]);
      cbn [well_ended snd DeploymentPatch.status DeploymentPatch.buildLogs];
      first [exact I | apply closes_success | apply closes_failed] | ].
  all: split; [ each; lines | ].
  all: final_row Hd; eexists; (split; [reflexivity|]);
    unfold logs_end_with;
    cbn [storage.patch_deployment Deployment.buildLogs Deployment.status
         DeploymentPatch.status DeploymentPatch.buildLogs Nat.eqb].
  all: repeat split; try reflexivity;
    try (intros H; discriminate H);
    try (intros _);
    eexists; (split; [reflexivity|apply ends_with_line_push]).
Qed.

Lemma pipeline_logs_and_status_witness :
  let w := Sample.world [None; Some "disk full"] [] in
  let r := run_task Sample.pipeline w in
  select_deployment 1 (db w) = Some Sample.deployment
  /\ fst r = Ok tt
  /\ exists d',
       select_deployment 1 (db (snd r)) = Some d'
       /\ Deployment.status d' = "failed"
       /\ logs_end_with "Deployment failed: disk full" d'.
Proof.
  cbv zeta. split; [reflexivity|].
  destruct (pipeline_logs_and_status 1 Sample.demo None
              (Sample.world [None; Some "disk full"] [])
              (d := Sample.deployment) eq_refl)
    as (evs & _ & _ & _ & d' & Hd & H).
  cbn [first_fault faults Sample.world head_fault tl] in H.
  destruct H as (Hs & Hl & Hr).
  split; [exact Hr|]. exists d'. auto.
Defined.

(** Create, deploy, let the pipeline run: the deployment ends at [success]
    and the application is [live] under its subdomain. *)
Lemma scenario_create_deploy :
  let w1 := snd (post_applications "alice" Sample.demo_request Sample.fresh) in
  let r2 := post_deploy "alice" "1" None w1 in
  let r3 := start_detached (snd r2) in
  option_map status (match fst r2 with Ok r => Some r | Throw _ => None end)
  = Some 201
  /\ option_map Deployment.status (select_deployment 1 (db (snd r2)))
     = Some "building"
  /\ fst r3 = Ok tt
  /\ option_map Deployment.status (select_deployment 1 (db (snd r3)))
     = Some "success"
  /\ option_map Application.status (select_application 1 (db (snd r3)))
     = Some "live"
  /\ option_map Application.deploymentUrl (select_application 1 (db (snd r3)))
     = Some (Some "https://demo-1.seskrow.com").
Proof. cbv zeta. repeat split. Qed.

Lemma calm_4 fs :
  calm 4 fs ->
  head_fault fs = None /\ head_fault (tl fs) = None
  /\ head_fault (tl (tl fs)) = None /\ head_fault (tl (tl (tl fs))) = None.
Proof. cbn. tauto. Qed.

(** C2: when no step throws, the deployment is updated with [success] and
    the time, and after it the application with [live], the time and the
    URL made of its subdomain and the platform's domain. *)
Theorem success_path_updates deploymentId application file w d a :
  calm 4 (faults w) ->
  select_deployment deploymentId (db w) = Some d ->
  select_application (Application.id application) (db w) = Some a ->
  let r := run_task (ProcessDeployment deploymentId application file) w in
  let t := clock w + 1000 + 1500 + 1000 + 1500 + 1000 in
  let url := "https://" ++ Application.subdomain application ++ ".seskrow.com" in
  fst r = Ok tt
  /\ (exists before text,
        trace (snd r) =
        (trace w ++ before
           ++ [EvUpdateDeployment deploymentId
                 (DeploymentPatch.mk (Some "success") (Some t) (Some text) None);
               EvUpdateApplication (Application.id application)
                 (ApplicationPatch.mk (Some "live") (Some t) (Some url))])%list
        /\ ends_with_line text "Deployment complete!")
  /\ (exists d',
        select_deployment deploymentId (db (snd r)) = Some d'
        /\ Deployment.status d' = "success"
        /\ Deployment.deployedAt d' = Some t)
  /\ (exists a',
        select_application (Application.id application) (db (snd r)) = Some a'
        /\ Application.status a' = "live"
        /\ Application.lastDeployedAt a' = Some t
        /\ Application.deploymentUrl a' = Some url).
Proof.
  destruct w as [db0 c fs nt tr sp]. cbn [faults db clock].
  intros Hc Hd Ha. apply calm_4 in Hc. destruct Hc as (H1 & H2 & H3 & H4).
  cbv zeta. run_pipeline.
  split; [reflexivity|]. split; [|split].
  - rewrite <- ?(app_assoc (A:=Event)).
    eexists (cons _ (cons _ (cons _ nil))). eexists.
    split; [cbn [app]; reflexivity|]. apply ends_with_line_push.
  - final_row Hd. eexists. repeat split.
  - rewrite select_application_updated, !select_application_deployments, Ha.
    cbn [option_map]. eexists. repeat split.
Qed.

Lemma success_path_updates_witness :
  let w := Sample.world [] [] in
  let r := run_task Sample.pipeline w in
  calm 4 (faults w)
  /\ select_deployment 1 (db w) = Some Sample.deployment
  /\ select_application 1 (db w) = Some Sample.demo
  /\ fst r = Ok tt
  /\ exists a',
       select_application 1 (db (snd r)) = Some a'
       /\ Application.status a' = "live"
       /\ Application.lastDeployedAt a' = Some (Sample.start + 6000)
       /\ Application.deploymentUrl a' = Some "https://demo-1.seskrow.com".
Proof.
  cbv zeta.
  assert (Hc : calm 4 (faults (Sample.world [] []))) by (cbn; tauto).
  split; [exact Hc|]. split; [reflexivity|]. split; [reflexivity|].
  destruct (success_path_updates 1 Sample.demo None (Sample.world [] [])
              Hc eq_refl eq_refl) as (Hok & _ & _ & a' & Ha & Hs & Ht & Hu).
  split; [exact Hok|]. exists a'. repeat split; assumption.
Defined.

Lemma analysis_outcome_failed o :
  upstream_failed o = true -> analysis_outcome o = (skipped_line, JsStr "").
Proof.
  destruct o as [[m|[st [|data]]]|]; cbn; try reflexivity.
  - destruct (ok _); reflexivity.
  - destruct (ok _); cbn; [|reflexivity]. now intros ->.
Qed.

Lemma analysis_outcome_answered o :
  upstream_failed o = false -> fst (analysis_outcome o) = completed_line.
Proof.
  destruct o as [[m|[st [|data]]]|]; cbn; try discriminate.
  - destruct (ok _); cbn; discriminate.
  - destruct (ok _); cbn; [|discriminate]. now intros ->.
Qed.

(** A 2xx answer with no choice in it is not a failure for the analysis
    stage: it logs "completed" and keeps a stock text. *)
Lemma analysis_outcome_no_choice :
  analysis_outcome (Some (Sample.answer (JsObj [("choices", JsArr [])])))
  = (completed_line, JsStr "Analysis completed").
Proof. reflexivity. Qed.

(** C3, as stated, fails on its middle part: after a failed analysis the
    second update still writes the analysis column, with an empty text. *)
Lemma failed_analysis_is_stored :
  let w := Sample.world [] [NetworkError "connect ECONNREFUSED"] in
  let r := run_task Sample.pipeline w in
  upstream_failed (hd_error (net w)) = true
  /\ option_map Deployment.groqAnalysis (select_deployment 1 (db w)) = Some None
  /\ option_map Deployment.groqAnalysis (select_deployment 1 (db (snd r)))
     = Some (Some (JsObj [("analysis", JsStr "")]))
  /\ option_map Deployment.groqAnalysis (select_deployment 1 (db (snd r)))
     <> Some None.
Proof. cbv zeta. repeat split; try reflexivity. vm_compute. discriminate. Qed.

(** C3, amended: when the analysis call fails and every later step goes
    through, the run logs the "skipped" line, stores an analysis whose text
    is empty, does not abort, and ends with the deployment at [success]. *)
Theorem analysis_failure_is_tolerated deploymentId application file w d :
  upstream_failed (hd_error (net w)) = true ->
  calm 4 (faults w) ->
  select_deployment deploymentId (db w) = Some d ->
  let r := run_task (ProcessDeployment deploymentId application file) w in
  fst r = Ok tt
  /\ exists d',
       select_deployment deploymentId (db (snd r)) = Some d'
       /\ Deployment.status d' = "success"
       /\ Deployment.groqAnalysis d' = Some (analysis_blob (JsStr ""))
       /\ Deployment.buildLogs d' =
          Some (join_lines
                  ["Initializing deployment...";
                   "Analyzing code with GroqAI...";
                   "GroqAI analysis skipped - using default configuration";
                   "Optimizing dependencies...";
                   "Building application...";
                   "Running tests...";
                   "Deploying to CDN...";
                   "Configuring subdomain...";
                   "Deployment complete!"]).
Proof.
  destruct w as [db0 c fs nt tr sp]. cbn [faults db net].
  intros Hu Hc Hd. apply calm_4 in Hc. destruct Hc as (H1 & H2 & H3 & H4).
  cbv zeta. run_pipeline. rewrite (analysis_outcome_failed _ Hu).
  split; [reflexivity|]. final_row Hd. eexists. repeat split.
Qed.

Lemma analysis_failure_is_tolerated_witness :
  let w := Sample.world [] [Responded (mkHttpResponse 503 BadJson)] in
  let r := run_task Sample.pipeline w in
  upstream_failed (hd_error (net w)) = true
  /\ calm 4 (faults w)
  /\ select_deployment 1 (db w) = Some Sample.deployment
  /\ fst r = Ok tt
  /\ exists d',
       select_deployment 1 (db (snd r)) = Some d'
       /\ Deployment.status d' = "success"
       /\ Deployment.groqAnalysis d' = Some (analysis_blob (JsStr "")).
Proof.
  cbv zeta.
  assert (Hc : calm 4 (faults (Sample.world [] [Responded (mkHttpResponse 503 BadJson)])))
    by (cbn; tauto).
  split; [reflexivity|]. split; [exact Hc|]. split; [reflexivity|].
  destruct (analysis_failure_is_tolerated 1 Sample.demo None
              (Sample.world [] [Responded (mkHttpResponse 503 BadJson)])
              eq_refl Hc eq_refl) as (Hok & d' & Hd & Hs & Hg & _).
  split; [exact Hok|]. exists d'. repeat split; assumption.
Defined.

(** C10, as stated, fails when the update of the application is the step
    that throws: the deployment was already written with [success] and the
    time, the [catch] block then sets [failed] and leaves [deployedAt]. *)
Lemma failed_deployment_keeps_deployedAt :
  let w := Sample.world [None; None; None; Some "connection lost"] [] in
  let r := run_task Sample.pipeline w in
  option_map Deployment.deployedAt (select_deployment 1 (db w)) = Some None
  /\ option_map Deployment.status (select_deployment 1 (db (snd r))) = Some "failed"
  /\ option_map Deployment.deployedAt (select_deployment 1 (db (snd r)))
     = Some (Some (Sample.start + 6000))
  /\ option_map Deployment.deployedAt (select_deployment 1 (db (snd r)))
     <> Some None.
Proof. cbv zeta. repeat split; try reflexivity. vm_compute. discriminate. Qed.

(** C10, amended: the update on the failure path writes [status] and
    [buildLogs] and nothing else, and no update but the one that sets
    [success] writes [deployedAt]. So a run leaves [deployedAt] as it was
    unless it persisted the success update, and then the row holds the time
    that update wrote, also when the row ends [failed]. *)
Theorem failure_path_frame deploymentId application file w d :
  select_deployment deploymentId (db w) = Some d ->
  let r := run_task (ProcessDeployment deploymentId application file) w in
  exists evs,
    trace (snd r) = (trace w ++ evs)%list
    /\ Forall (fun u => DeploymentPatch.status (snd u) = Some "failed" ->
                        only_status_and_logs (snd u))
         (deployment_writes evs)
    /\ Forall (fun u => DeploymentPatch.deployedAt (snd u) <> None ->
                        DeploymentPatch.status (snd u) = Some "success")
         (deployment_writes evs)
    /\ exists d',
         select_deployment deploymentId (db (snd r)) = Some d'
         /\ (Deployment.deployedAt d' = Deployment.deployedAt d
             \/ exists t text,
                  In (deploymentId,
                      DeploymentPatch.mk (Some "success") (Some t) (Some text) None)
                    (deployment_writes evs)
                  /\ Deployment.deployedAt d' = Some t).
Proof.
  destruct w as [db0 c fs nt tr sp]. cbn [db]. intros Hd. cbv zeta.
  run_pipeline.
  all: added_events.
  all: split;
    [ each; cbn [snd DeploymentPatch.status DeploymentPatch.deployedAt];
      unfold only_status_and_logs; cbn; intros; (discriminate || tauto) | ].
  all: split;
    [ each; cbn [snd DeploymentPatch.status DeploymentPatch.deployedAt];
      intros; (reflexivity || congruence) | ].
  all: final_row Hd; eexists; (split; [reflexivity|]);
    cbn [storage.patch_deployment Deployment.deployedAt DeploymentPatch.deployedAt].
  all: first [ left; reflexivity
             | right; do 2 eexists; split; [|reflexivity]; cbn [In]; eauto 7 ].
Qed.

Lemma failure_path_frame_witness :
  let w := Sample.world [None; None; None; Some "connection lost"] [] in
  let r := run_task Sample.pipeline w in
  select_deployment 1 (db w) = Some Sample.deployment
  /\ exists evs,
       trace (snd r) = (trace w ++ evs)%list
       /\ Forall (fun u => DeploymentPatch.status (snd u) = Some "failed" ->
                           only_status_and_logs (snd u))
            (deployment_writes evs).
Proof.
  cbv zeta. split; [reflexivity|].
  destruct (failure_path_frame 1 Sample.demo None
              (Sample.world [None; None; None; Some "connection lost"] [])
              (d := Sample.deployment) eq_refl) as (evs & Ht & Hf & _).
  exists evs. split; assumption.
Defined.

(* ================================================================== *)
(** ** Access checks *)

(** A request handler run on a world whose parts are named. *)
Ltac run_handler :=
  cbv beta iota zeta delta
    [bind ret throw try_catch get modify respond console_error emit now query
     integer with_db with_faults with_net with_clock record_event spawn
     storage.getUser storage.getUserApplications storage.getApplication
     storage.createApplication storage.deleteApplication
     storage.checkSubdomainAvailable storage.getApplicationDeployments
     storage.createDeployment storage.recordAnalytics
     storage.getApplicationAnalytics storage.createConversation
     fst snd db clock faults net trace spawned].

Lemma differs_true a b : a <> b -> differs a b = true.
Proof. intros H. unfold differs, str_eqb. now apply negb_true_iff, String.eqb_neq. Qed.

Lemma select_application_none n d :
  select_application n d = None <->
  forall a, In a (applications d) -> Application.id a <> n.
Proof.
  unfold select_application. induction (applications d) as [|x rows IH]; cbn.
  - split; [intros _ a []|reflexivity].
  - destruct (Application.id x =? n) eqn:E; cbn.
    + split; [discriminate|]. intros H. apply Z.eqb_eq in E.
      exfalso. exact (H x (or_introl eq_refl) E).
    + rewrite IH. apply Z.eqb_neq in E. split.
      * intros H a [<-|Ha]; auto.
      * intros H a Ha. apply H. now right.
Qed.

Lemma integer_key_some id n :
  integer_key id = Some n <-> parseInt id = Some n /\ fits_integer n = true.
Proof.
  unfold integer_key. destruct (parseInt id) as [m|]; [|split; [discriminate|intros [H _]; discriminate H]].
  destruct (fits_integer m) eqn:E; split.
  - intros [= <-]. auto.
  - intros [[= <-] _]. reflexivity.
  - discriminate.
  - intros [[= <-] H]. congruence.
Qed.

(** What a guarded operation answers, by what the lookup found. *)
Lemma guarded_operation op sub id n d c fs nt tr sp :
  parseInt id = Some n ->
  fits_integer n = true ->
  head_fault fs = None ->
  match select_application n d with
  | None =>
      run_operation op sub id (mkWorld d c fs nt tr sp)
      = (Ok not_found, mkWorld d c (tl fs) nt tr sp)
  | Some a =>
      Application.userId a <> sub ->
      run_operation op sub id (mkWorld d c fs nt tr sp)
      = (Ok access_denied, mkWorld d c (tl fs) nt tr sp)
  end.
Proof.
  intros Hp Hn Hf.
  destruct op; unfold run_operation, get_application, delete_application,
    get_deployments, post_deploy, get_analytics;
    rewrite Hp; run_handler; rewrite Hf, Hn; cbv beta iota;
    destruct (select_application n d) as [a|]; cbv beta iota;
    try reflexivity; intros Hne; rewrite (differs_true Hne); reflexivity.
Qed.

(** And when the database is down, or does not read a key in the id. *)
Lemma guarded_unavailable op sub id d c fs nt tr sp :
  integer_key id = None \/ (exists e, head_fault fs = Some e) ->
  run_operation op sub id (mkWorld d c fs nt tr sp)
  = (Ok (mkResponse 500 (Message (failure_message op))),
     mkWorld d c (tl fs) nt tr sp).
Proof.
  unfold integer_key.
  intros [Hk|[e He]];
    destruct op; unfold run_operation, get_application, delete_application,
      get_deployments, post_deploy, get_analytics, failure_message;
    run_handler; rewrite ?He; cbv beta iota; try reflexivity;
    destruct (parseInt id) as [n|]; try destruct (fits_integer n);
    try discriminate Hk; destruct (head_fault fs); reflexivity.
Qed.

(** C4, as stated, fails for an id that the database does not read as a
    key: no application has the id 2147483648, one past the range of the
    column, or the id "abc", and they are answered 500, not 404. *)
Lemma missing_application_can_be_500 :
  let w := Sample.world [] [] in
  parseInt "2147483648" = Some 2147483648
  /\ (forall a, In a (applications (db w)) -> Application.id a <> 2147483648)
  /\ fst (run_operation OpFetch "alice" "2147483648" w)
     = Ok (mkResponse 500 (Message "Failed to fetch application"))
  /\ parseInt "abc" = None
  /\ fst (run_operation OpDelete "bob" "abc" w)
     = Ok (mkResponse 500 (Message "Failed to delete application")).
Proof.
  cbv zeta. split; [reflexivity|]. split.
  - intros a [<-|[]]. discriminate.
  - repeat split.
Qed.

(** C4, amended: when the database answers and reads a key in the id, that
    is when the id is a number in the range of the integer column, each of
    the five operations on one application answers 404 when no application
    has the key, whoever asks, and 403 when the application exists and
    belongs to someone else; when the id is not such a number each of them
    answers 500 with its own message, whoever asks and whatever the tables
    hold. In the three cases nothing is written and nothing is started. *)
Theorem ownership_check (op : AppOperation) (sub id : string) (w : World) :
  head_fault (faults w) = None ->
  let r := run_operation op sub id w in
  let refused :=
    db (snd r) = db w /\ trace (snd r) = trace w /\ spawned (snd r) = spawned w in
  (forall n,
     integer_key id = Some n ->
     ((forall a, In a (applications (db w)) -> Application.id a <> n) ->
      fst r = Ok not_found /\ refused)
     /\ (forall a,
           select_application n (db w) = Some a ->
           Application.userId a <> sub ->
           fst r = Ok access_denied /\ refused))
  /\ (integer_key id = None ->
      fst r = Ok (mkResponse 500 (Message (failure_message op))) /\ refused).
Proof.
  destruct w as [d c fs nt tr sp]. cbn [faults db trace spawned].
  intros Hf. cbv zeta. split.
  - intros n Hk. apply integer_key_some in Hk. destruct Hk as [Hp Hn].
    pose proof (@guarded_operation op sub id n d c fs nt tr sp Hp Hn Hf) as E.
    split.
    + intros Hnone. apply select_application_none in Hnone.
      rewrite Hnone in E. rewrite E. repeat split.
    + intros a Ha Hne. rewrite Ha in E. rewrite (E Hne). repeat split.
  - intros Hk.
    rewrite (@guarded_unavailable op sub id d c fs nt tr sp (or_introl Hk)).
    repeat split.
Qed.

Lemma ownership_check_witness :
  let w := Sample.world [] [] in
  head_fault (faults w) = None
  /\ integer_key "7" = Some 7
  /\ integer_key "1" = Some 1
  /\ integer_key "one" = None
  /\ select_application 1 (db w) = Some Sample.demo
  /\ Application.userId Sample.demo <> "bob"
  /\ fst (run_operation OpDelete "bob" "7" w) = Ok not_found
  /\ fst (run_operation (OpDeploy None) "bob" "1" w) = Ok access_denied
  /\ fst (run_operation OpDeployments "alice" "one" w)
     = Ok (mkResponse 500 (Message "Failed to fetch deployments")).
Proof.
  cbv zeta.
  assert (Hne : Application.userId Sample.demo <> "bob") by discriminate.
  assert (Hnone : forall a, In a (applications (db (Sample.world [] []))) ->
                            Application.id a <> 7).
  { intros a [<-|[]]. discriminate. }
  do 6 (split; [first [exact Hne | reflexivity]|]).
  split; [|split].
  - exact (proj1 (proj1 (proj1 (@ownership_check OpDelete "bob" "7"
                                  (Sample.world [] []) eq_refl) 7 eq_refl)
                    Hnone)).
  - exact (proj1 (proj2 (proj1 (@ownership_check (OpDeploy None) "bob" "1"
                                  (Sample.world [] []) eq_refl) 1 eq_refl)
                    Sample.demo eq_refl Hne)).
  - exact (proj1 (proj2 (@ownership_check OpDeployments "alice" "one"
                           (Sample.world [] []) eq_refl) eq_refl)).
Defined.

(* ================================================================== *)
(** ** Creating applications: the quota and the subdomain *)

Lemma length_insert_desc {A} (key : A -> option Timestamp) x l :
  List.length (insert_desc key x l) = Datatypes.S (List.length l).
Proof.
  induction l as [|y l IH]; cbn; [reflexivity|].
  destruct (desc_le (key x) (key y)); cbn; congruence.
Qed.

Lemma length_order_by_desc {A} (key : A -> option Timestamp) l :
  List.length (order_by_desc key l) = List.length l.
Proof.
  induction l as [|x l IH]; cbn; [reflexivity|].
  unfold order_by_desc in IH. now rewrite length_insert_desc, IH.
Qed.

Lemma at_least_one {A} (l : list A) : l <> [] -> (1 <=? Z.of_nat (List.length l)) = true.
Proof. destruct l; [congruence|]. intros _. apply Z.leb_le. cbn [List.length]. lia. Qed.

(** Split on whatever the handler is waiting for. *)
Ltac case_next :=
  match goal with
  | |- context [match head_fault ?fs with _ => _ end] =>
      destruct (head_fault fs) eqn:?
  | |- context [match insertApplicationSchema ?b ?u with _ => _ end] =>
      destruct (insertApplicationSchema b u) eqn:?
  | |- context [match insertGroqConversationSchema ?b ?u with _ => _ end] =>
      destruct (insertGroqConversationSchema b u) eqn:?
  | |- context [if ?b then _ else _] => destruct b eqn:?
  | |- context [match first_row ?l with _ => _ end] =>
      destruct (first_row l) eqn:?
  end; cbv beta iota.

(** C5: a user who is not premium and owns an application is refused a new
    one with 403 and the quota message, and nothing is written; a premium
    user never gets that answer, however many applications they own. *)
Theorem quota_enforced sub body w :
  let r := post_applications sub body w in
  (calm 2 (faults w) ->
   not_premium (select_user sub (db w)) = true ->
   owned_by sub (db w) <> [] ->
   fst r = Ok quota_refusal /\ db (snd r) = db w /\ trace (snd r) = trace w)
  /\ (not_premium (select_user sub (db w)) = false -> fst r <> Ok quota_refusal).
Proof.
  destruct w as [d c fs nt tr sp]. cbn [faults db trace]. cbv zeta. split.
  - intros (H1 & H2 & _) Hp Ho.
    unfold post_applications. run_handler. rewrite H1, H2. cbv beta iota.
    rewrite Hp, length_order_by_desc. fold (owned_by sub d).
    rewrite (at_least_one Ho). repeat split.
  - intros Hp. unfold post_applications. run_handler.
    repeat case_next; rewrite ?Hp in *; cbn [andb fst] in *;
      try discriminate; intros H; discriminate H.
Qed.

Lemma quota_enforced_witness :
  let w := Sample.world [] [] in
  calm 2 (faults w)
  /\ not_premium (select_user "alice" (db w)) = true
  /\ owned_by "alice" (db w) <> []
  /\ not_premium (select_user "bob" (db w)) = false
  /\ fst (post_applications "alice" (JsObj []) w) = Ok quota_refusal
  /\ fst (post_applications "bob" (JsObj []) w) <> Ok quota_refusal.
Proof.
  cbv zeta.
  assert (Hc : calm 2 (faults (Sample.world [] []))) by (cbn; tauto).
  assert (Ho : owned_by "alice" (db (Sample.world [] [])) <> []) by discriminate.
  split; [exact Hc|]. split; [reflexivity|]. split; [exact Ho|].
  split; [reflexivity|]. split.
  - exact (proj1 (proj1 (quota_enforced "alice" (JsObj []) (Sample.world [] []))
                    Hc eq_refl Ho)).
  - exact (proj2 (quota_enforced "bob" (JsObj []) (Sample.world [] [])) eq_refl).
Defined.

Lemma subdomain_taken_iff s d :
  storage.subdomain_taken s d = true <->
  exists a, In a (applications d) /\ Application.subdomain a = s.
Proof.
  unfold storage.subdomain_taken. rewrite existsb_exists. split.
  - intros [a [Ha E]]. exists a. split; [exact Ha|]. now apply String.eqb_eq in E.
  - intros [a [Ha E]]. exists a. split; [exact Ha|]. now apply String.eqb_eq.
Qed.

Lemma first_row_filter_existsb {A} (f : A -> bool) (l : list A) :
  match first_row (filter f l) with Some _ => false | None => true end
  = negb (existsb f l).
Proof.
  induction l as [|x l IH]; cbn; [reflexivity|].
  destruct (f x); cbn; [reflexivity|exact IH].
Qed.

(** The pre-check is the negation of "some row has this subdomain". *)
Lemma checkSubdomainAvailable_run s d c fs nt tr sp :
  storage.checkSubdomainAvailable s (mkWorld d c fs nt tr sp) =
  (match head_fault fs with
   | Some e => Throw e
   | None => Ok (negb (storage.subdomain_taken s d))
   end, mkWorld d c (tl fs) nt tr sp).
Proof.
  unfold storage.checkSubdomainAvailable. run_handler.
  destruct (head_fault fs); cbv beta iota; [reflexivity|].
  now rewrite first_row_filter_existsb.
Qed.

Lemma not_taken_not_in s d :
  storage.subdomain_taken s d = false ->
  ~ In s (map Application.subdomain (applications d)).
Proof.
  intros H Hin. apply in_map_iff in Hin. destruct Hin as [a [E Ha]].
  assert (T : storage.subdomain_taken s d = true)
    by (apply subdomain_taken_iff; now exists a).
  congruence.
Qed.

Lemma NoDup_snoc {A} (l : list A) (x : A) : NoDup l -> ~ In x l -> NoDup (l ++ [x]).
Proof.
  intros Hl Hx. induction Hl as [|y l Hy Hl IH]; cbn.
  - constructor; [intros []|constructor].
  - constructor.
    + rewrite in_app_iff. intros [H|[H|[]]]; [contradiction|].
      subst. apply Hx. now left.
    + apply IH. intros H. apply Hx. now right.
Qed.

(** C6: the pre-check answers "available" exactly when no row has the
    subdomain; a creation that reaches it with a taken subdomain is answered
    "Subdomain already taken" before any insert; and whatever the request
    and the database do, a creation never makes two rows share a subdomain. *)
Theorem subdomain_is_unique :
  (forall s w,
     head_fault (faults w) = None ->
     (fst (storage.checkSubdomainAvailable s w) = Ok true <->
      forall a, In a (applications (db w)) -> Application.subdomain a <> s))
  /\ (forall sub body w data a,
        calm 3 (faults w) ->
        (not_premium (select_user sub (db w)) = false \/ owned_by sub (db w) = []) ->
        insertApplicationSchema body sub = ParseOk data ->
        In a (applications (db w)) ->
        Application.subdomain a = InsertApplication.subdomain data ->
        let r := post_applications sub body w in
        fst r = Ok subdomain_conflict
        /\ db (snd r) = db w /\ trace (snd r) = trace w)
  /\ (forall sub body w,
        NoDup (map Application.subdomain (applications (db w))) ->
        NoDup (map Application.subdomain
                 (applications (db (snd (post_applications sub body w)))))).
Proof.
  split; [|split].
  - intros s [d c fs nt tr sp]. cbn [faults db]. intros Hf.
    rewrite checkSubdomainAvailable_run, Hf. cbn [fst]. split.
    + intros H a Ha E.
      assert (T : storage.subdomain_taken s d = true)
        by (apply subdomain_taken_iff; now exists a).
      rewrite T in H. discriminate H.
    + intros H. destruct (storage.subdomain_taken s d) eqn:T; [|reflexivity].
      apply subdomain_taken_iff in T. destruct T as [a [Ha E]].
      exfalso. exact (H a Ha E).
  - intros sub body [d c fs nt tr sp] data a. cbn [faults db trace].
    intros (H1 & H2 & H3 & _) Hq Hv Ha E. cbv zeta.
    assert (T : storage.subdomain_taken (InsertApplication.subdomain data) d = true)
      by (apply subdomain_taken_iff; now exists a).
    assert (Q : not_premium (select_user sub d)
                && (1 <=? Z.of_nat (List.length
                      (order_by_desc Application.createdAt (owned_by sub d))))
                = false).
    { destruct Hq as [->|Hq]; [reflexivity|].
      rewrite Hq. cbn. apply andb_false_r. }
    unfold post_applications, storage.getUser, storage.getUserApplications.
    cbv beta iota zeta delta
      [bind ret try_catch get respond console_error query with_faults fst snd
       db clock faults net trace spawned].
    rewrite H1, H2. cbv beta iota. fold (owned_by sub d). rewrite Q, Hv.
    rewrite checkSubdomainAvailable_run, H3, T. repeat split.
  - intros sub body [d c fs nt tr sp]. cbn [db]. intros Hnd.
    unfold post_applications. run_handler.
    repeat case_next; cbn [snd db applications]; try exact Hnd.
    cbn [add_application applications]. rewrite map_app. cbn [map].
    apply NoDup_snoc; [exact Hnd|].
    cbn [storage.application_row Application.subdomain].
    apply not_taken_not_in. assumption.
Qed.

Lemma subdomain_is_unique_witness :
  let w := Sample.world [] [] in
  calm 3 (faults w)
  /\ not_premium (select_user "bob" (db w)) = false
  /\ insertApplicationSchema Sample.copy_request "bob" = ParseOk Sample.copy
  /\ In Sample.demo (applications (db w))
  /\ Application.subdomain Sample.demo = InsertApplication.subdomain Sample.copy
  /\ fst (post_applications "bob" Sample.copy_request w) = Ok subdomain_conflict.
Proof.
  cbv zeta.
  assert (Hc : calm 3 (faults (Sample.world [] []))) by (cbn; tauto).
  assert (Hin : In Sample.demo (applications (db (Sample.world [] []))))
    by (left; reflexivity).
  split; [exact Hc|]. split; [reflexivity|]. split; [reflexivity|].
  split; [exact Hin|]. split; [reflexivity|].
  exact (proj1 (proj1 (proj2 subdomain_is_unique) "bob" Sample.copy_request
                  (Sample.world [] []) Sample.copy Sample.demo Hc
                  (or_introl eq_refl) eq_refl Hin eq_refl)).
Defined.

(* ================================================================== *)
(** ** Analytics *)

Lemma getApplicationAnalytics_any_days id days days' w :
  storage.getApplicationAnalytics id days w
  = storage.getApplicationAnalytics id days' w.
Proof. reflexivity. Qed.

Lemma default_days : num_or (parseInt_param None) 30 = 30.
Proof. reflexivity. Qed.

Lemma insert_desc_perm {A} (key : A -> option Timestamp) x l :
  Permutation (insert_desc key x l) (x :: l).
Proof.
  induction l as [|y l IH]; cbn; [reflexivity|].
  destruct (desc_le (key x) (key y)); [reflexivity|].
  rewrite IH. apply perm_swap.
Qed.

Lemma order_by_desc_perm {A} (key : A -> option Timestamp) l :
  Permutation (order_by_desc key l) l.
Proof.
  induction l as [|x l IH]; cbn; [constructor|].
  rewrite insert_desc_perm. now constructor.
Qed.

Lemma desc_le_total a b : desc_le a b = false -> desc_le b a = true.
Proof.
  destruct a as [x|], b as [y|]; cbn; try congruence.
  rewrite Z.leb_gt. intros H. apply Z.leb_le. lia.
Qed.

Lemma insert_desc_sorted {A} (key : A -> option Timestamp) x l :
  Sorted (newest_first key) l -> Sorted (newest_first key) (insert_desc key x l).
Proof.
  induction 1 as [|y l Hs IH Hh]; cbn.
  - repeat constructor.
  - destruct (desc_le (key x) (key y)) eqn:E.
    + constructor; [now constructor|]. constructor. exact E.
    + constructor; [exact IH|].
      destruct Hh as [|z l Hz]; cbn.
      * constructor. now apply desc_le_total.
      * destruct (desc_le (key x) (key z)); constructor;
          [now apply desc_le_total|exact Hz].
Qed.

Lemma order_by_desc_sorted {A} (key : A -> option Timestamp) l :
  Sorted (newest_first key) (order_by_desc key l).
Proof.
  induction l as [|x l IH]; cbn; [constructor|]. now apply insert_desc_sorted.
Qed.


(** C7, the code against the claim: the application's owner asks for the
    last 30 days and is also given a visit made 100 days ago. *)
Theorem analytics_returns_old_events :
  let w := Sample.world [] [] in
  let r := get_analytics "alice" "1" (Some "30") w in
  fst r = Ok (mkResponse 200 (AnalyticsJson [Sample.new_visit; Sample.old_visit]))
  /\ Analytics.visitedAt Sample.old_visit = Some 0
  /\ 0 < clock w - 30 * storage.ms_per_day.
Proof. cbv zeta. repeat split. Qed.

Lemma no_owner_no_rows d :
  (forall a, In a (applications d) -> Application.userId a <> "") ->
  owned_by "" d = [].
Proof.
  unfold owned_by. induction (applications d) as [|x rows IH]; cbn; [reflexivity|].
  intros H. destruct (str_eqb (Application.userId x) "") eqn:E.
  - apply String.eqb_eq in E. exfalso. exact (H x (or_introl eq_refl) E).
  - apply IH. intros a Ha. apply H. now right.
Qed.

(** The tracking route looks among the applications whose owner is the
    empty string: when there is none, it records nothing. *)
Lemma track_needs_empty_owner subdomain body ip userAgent w :
  (forall a, In a (applications (db w)) -> Application.userId a <> "") ->
  let r := post_track subdomain body ip userAgent w in
  analytics (db (snd r)) = analytics (db w)
  /\ (nullish body = false -> head_fault (faults w) = None -> fst r = Ok not_found).
Proof.
  destruct w as [d c fs nt tr sp]. cbn [db faults]. intros Ho. cbv zeta.
  unfold post_track, get_member. destruct (nullish body); run_handler.
  - split; [reflexivity|discriminate].
  - fold (owned_by "" d). rewrite (no_owner_no_rows d Ho).
    cbn [order_by_desc fold_right find].
    destruct (head_fault fs); cbv beta iota; split; try reflexivity;
      intros _ H; discriminate H.
Qed.

(** C8, the code against the claim: "demo-1" is the subdomain of an
    application, and a visit tracked on it is answered 404 and not
    recorded. *)
Theorem track_misses_owned_application :
  let w := Sample.world [] [] in
  let r := post_track "demo-1" (JsObj [("path", JsStr "/pricing")])
             (Some "10.0.0.9") (Some "Mozilla/5.0") w in
  storage.subdomain_taken "demo-1" (db w) = true
  /\ fst r = Ok not_found
  /\ analytics (db (snd r)) = analytics (db w)
  /\ trace (snd r) = [].
Proof. cbv zeta. repeat split. Qed.

(* ================================================================== *)
(** ** Chat *)

Ltac run_chat :=
  cbv beta iota zeta delta
    [bind ret throw try_catch get modify respond console_error emit now query
     with_db with_faults with_net record_event fetch json get_member
     get_element0 first_choice_content storage.createConversation
     fst snd db clock faults net trace spawned hd_error tl http_body].

Ltac split_answer nt :=
  let m := fresh "m" in
  let st := fresh "st" in
  let data := fresh "data" in
  let rest := fresh "rest" in
  destruct nt as [|[m|[st [|data]]] rest]; run_chat; try reflexivity;
  [ destruct (ok _); reflexivity
  | destruct (ok _); cbn [negb]; [|reflexivity];
    destruct (nullish data); cbn [orb]; [reflexivity|];
    destruct (nullish (member data "choices")); reflexivity ].

(** The public route's call to the upstream service never throws. *)
Lemma public_reply_run message d c fs nt tr sp :
  try_catch
    (groqResponse <- fetch (public_chat_request message) ;;
     if ok groqResponse then
       data <- json groqResponse ;;
       content <- first_choice_content data ;;
       ret (js_or content (JsStr public_empty_fallback))
     else
       ret (JsStr public_status_fallback))
    (fun error =>
       console_error "GroqAI public chat error:" error ;;
       ret (JsStr public_error_fallback))
    (mkWorld d c fs nt tr sp)
  = (Ok (public_reply (hd_error nt)),
     mkWorld d c fs (tl nt) (tr ++ [EvFetch (public_chat_request message)]) sp).
Proof. unfold public_reply, content_of. split_answer nt. Qed.

(** Nor does the authenticated route's. *)
Lemma chat_reply_run message d c fs nt tr sp :
  try_catch
    (groqResponse <- fetch (chat_request message) ;;
     (if negb (ok groqResponse) then
        throw ("GroqAI API error: " ++ string_of_Z (http_status groqResponse))
      else ret tt) ;;
     data <- json groqResponse ;;
     content <- first_choice_content data ;;
     ret (js_or content (JsStr chat_empty_fallback)))
    (fun error =>
       console_error "GroqAI API error:" error ;;
       ret (JsStr chat_error_fallback))
    (mkWorld d c fs nt tr sp)
  = (Ok (chat_reply (hd_error nt)),
     mkWorld d c fs (tl nt) (tr ++ [EvFetch (chat_request message)]) sp).
Proof. unfold chat_reply, content_of. split_answer nt. Qed.

Lemma get_member_run {S} (v : JsVal) (k : string) (s : S) :
  nullish v = false -> get_member v k s = (Ok (member v k), s).
Proof. intros H. unfold get_member. now rewrite H. Qed.

Lemma js_or_truthy a b : truthy b = true -> truthy (js_or a b) = true.
Proof. intros H. unfold js_or. destruct (truthy a) eqn:E; assumption. Qed.

Lemma fallback_text s : s <> "" -> nonempty_text (JsStr s).
Proof. intros H. now exists s. Qed.

Ltac reply_cases o :=
  let m := fresh "m" in
  let st := fresh "st" in
  let data := fresh "data" in
  destruct o as [[m|[st [|data]]]|]; cbn [http_body];
  try destruct (ok _); cbn [negb orb andb];
  try destruct (nullish data); cbn [orb];
  try destruct (nullish (member data "choices")) eqn:?; cbn [orb].

Lemma public_reply_truthy o : truthy (public_reply o) = true.
Proof.
  unfold public_reply. reply_cases o; try reflexivity. now apply js_or_truthy.
Qed.

Lemma chat_reply_truthy o : truthy (chat_reply o) = true.
Proof.
  unfold chat_reply. reply_cases o; try reflexivity. now apply js_or_truthy.
Qed.

Lemma public_reply_degraded o : degraded o = true -> nonempty_text (public_reply o).
Proof.
  unfold degraded, upstream_failed, empty_choices, public_reply, content_of.
  reply_cases o; intros H; try discriminate H;
    try (apply fallback_text; discriminate).
  destruct (member data "choices") as [| | | | |[|x xs]|]; try discriminate H.
  apply fallback_text. discriminate.
Qed.

Lemma chat_reply_degraded o : degraded o = true -> nonempty_text (chat_reply o).
Proof.
  unfold degraded, upstream_failed, empty_choices, chat_reply, content_of.
  reply_cases o; intros H; try discriminate H;
    try (apply fallback_text; discriminate).
  destruct (member data "choices") as [| | | | |[|x xs]|]; try discriminate H.
  apply fallback_text. discriminate.
Qed.

Lemma parsed_conversation body sub data :
  insertGroqConversationSchema body sub = ParseOk data ->
  InsertGroqConversation.userId data = sub.
Proof.
  unfold insertGroqConversationSchema, field.
  destruct (required_string "message" (spread body)); [|discriminate].
  destruct (required_string "response" (spread body)); [|discriminate].
  now intros [= <-].
Qed.

Lemma conversation_needs_both body sub :
  (forall s, lookup_field "message" (spread body) <> JsStr s)
  \/ (forall s, lookup_field "response" (spread body) <> JsStr s) ->
  exists m, insertGroqConversationSchema body sub = ParseError m.
Proof.
  unfold insertGroqConversationSchema, field, required_string, invalid. cbv zeta.
  intros [H|H].
  - destruct (lookup_field "message" (spread body)) eqn:E;
      try (eexists; reflexivity).
    exfalso. exact (H _ eq_refl).
  - destruct (lookup_field "message" (spread body));
      try (eexists; reflexivity).
    destruct (lookup_field "response" (spread body)) eqn:E;
      try (eexists; reflexivity).
    exfalso. exact (H _ eq_refl).
Qed.

Lemma parsed_conversation_of body sub m r0 :
  lookup_field "message" (spread body) = JsStr m ->
  lookup_field "response" (spread body) = JsStr r0 ->
  insertGroqConversationSchema body sub
  = ParseOk (InsertGroqConversation.mk sub m (JsStr r0)).
Proof.
  intros Hm Hr. unfold insertGroqConversationSchema, field, required_string.
  cbv zeta. now rewrite Hm, Hr.
Qed.

Lemma string_of_Z_nonempty n : string_of_Z n <> "".
Proof.
  unfold string_of_Z. destruct (Z.to_int n) as [u|u]; destruct u; discriminate.
Qed.

(** The text the database is sent for a truthy value: never empty, and the
    string itself for a string. *)
Lemma column_text_truthy v :
  truthy v = true ->
  exists t, column_text v = Some t /\ t <> ""
            /\ (forall s, v = JsStr s -> t = s).
Proof.
  destruct v as [| |b|n|s|xs|fields]; cbn [truthy column_text];
    try discriminate; intros H.
  - destruct b; [|discriminate]. eexists. split; [reflexivity|].
    split; [discriminate|]. intros s E. discriminate E.
  - eexists. split; [reflexivity|]. split; [apply string_of_Z_nonempty|].
    intros s E. discriminate E.
  - eexists. split; [reflexivity|]. split.
    + destruct s; [discriminate H|discriminate].
    + intros s' [= <-]. reflexivity.
  - eexists. split; [reflexivity|]. split; [discriminate|].
    intros s E. discriminate E.
  - eexists. split; [reflexivity|]. split; [discriminate|].
    intros s E. discriminate E.
Qed.

Lemma public_reply_resolved o :
  resolved_from (upstream_content o) (public_reply o).
Proof.
  unfold resolved_from, upstream_content, public_reply, js_or.
  reply_cases o; cbn [truthy]; (split; [intros H; try discriminate H|intros H]);
    try (eexists; split; [reflexivity|discriminate]).
  - now rewrite H.
  - rewrite H. eexists. split; [reflexivity|discriminate].
Qed.

Lemma chat_reply_resolved o :
  resolved_from (upstream_content o) (chat_reply o).
Proof.
  unfold resolved_from, upstream_content, chat_reply, js_or.
  reply_cases o; cbn [truthy]; (split; [intros H; try discriminate H|intros H]);
    try (eexists; split; [reflexivity|discriminate]).
  - now rewrite H.
  - rewrite H. eexists. split; [reflexivity|discriminate].
Qed.

(** C9, as stated, fails in two ways. A body that holds a valid message and
    nothing else is refused by the authenticated route with 400, because
    the route's schema wants a [response] too; and when the upstream
    service gives a content that is not a string, here the number 42, the
    public route answers with that number, which is no text. *)
Lemma chat_can_refuse_and_answer_a_number :
  let w := Sample.world []
             [Sample.answer
                (JsObj [("choices",
                         JsArr [JsObj [("message",
                                        JsObj [("content", JsNum 42)])]])])] in
  let body := JsObj [("message", JsStr "hello")] in
  option_map status
    (match fst (post_chat "alice" body w) with Ok r => Some r | Throw _ => None end)
  = Some 400
  /\ snd (post_chat "alice" body w) = w
  /\ fst (post_public_chat body w) = Ok (mkResponse 200 (ChatJson (JsNum 42)))
  /\ ~ nonempty_text (JsNum 42).
Proof.
  cbv zeta. repeat split. intros [s [H _]]. discriminate H.
Qed.

(** C9, amended: the public route answers 200 to a body whose [message] is a
    non-empty string, and the authenticated route answers 201 to a body
    whose [message] and [response] are both strings, once the insert is
    accepted; a body without one of the two is answered 400 by the
    authenticated route. The value a route resolves is never empty: it is
    the content the upstream service gave when that is truthy, and a
    non-empty fallback string when the call failed, gave no choice, or gave
    an empty content. So the answer is a non-empty text unless the upstream
    content is truthy and not a string; then the public route passes that
    value on as it is, and the authenticated route stores its text. The
    authenticated route inserts one conversation, after the request to the
    upstream service, and the row's [response] is the non-empty text of the
    resolved value. *)
Theorem chat_always_answers :
  (forall body s w,
     member body "message" = JsStr s -> s <> "" ->
     let r := post_public_chat body w in
     let c := upstream_content (hd_error (net w)) in
     exists v,
       fst r = Ok (mkResponse 200 (ChatJson v))
       /\ truthy v = true
       /\ resolved_from c v
       /\ (is_string c = true \/ degraded (hd_error (net w)) = true ->
           nonempty_text v)
       /\ db (snd r) = db w
       /\ trace (snd r) = (trace w ++ [EvFetch (public_chat_request s)])%list)
  /\ (forall sub body m r0 w,
        lookup_field "message" (spread body) = JsStr m ->
        lookup_field "response" (spread body) = JsStr r0 ->
        head_fault (faults w) = None ->
        storage.user_exists sub (db w) = true ->
        let r := post_chat sub body w in
        let c := upstream_content (hd_error (net w)) in
        exists row v,
          fst r = Ok (mkResponse 201 (ConversationJson row))
          /\ GroqConversation.userId row = sub
          /\ GroqConversation.message row = m
          /\ resolved_from c v
          /\ column_text v = Some (GroqConversation.response row)
          /\ GroqConversation.response row <> ""
          /\ (is_string c = true \/ degraded (hd_error (net w)) = true ->
              v = JsStr (GroqConversation.response row))
          /\ groqConversations (db (snd r))
             = (groqConversations (db w) ++ [row])%list
          /\ trace (snd r)
             = (trace w ++ [EvFetch (chat_request m);
                            EvInsertConversation row])%list)
  /\ (forall sub body w,
        (forall s, lookup_field "message" (spread body) <> JsStr s)
        \/ (forall s, lookup_field "response" (spread body) <> JsStr s) ->
        exists message,
          post_chat sub body w = (Ok (mkResponse 400 (Message message)), w)).
Proof.
  split; [|split].
  - intros body s [d c fs nt tr sp] Hm Hs. cbn [net db trace]. cbv zeta.
    assert (Hb : nullish body = false)
      by (destruct body; try discriminate; reflexivity).
    assert (Ht : truthy (JsStr s) = true) by (destruct s; [congruence|reflexivity]).
    unfold post_public_chat. rewrite try_bind.
    rewrite (@get_member_run World body "message" _ Hb), Hm.
    cbv beta iota. rewrite Ht. cbn [negb is_string orb text_of].
    rewrite try_bind, public_reply_run. cbv beta iota.
    unfold respond. rewrite try_ret.
    pose proof (public_reply_resolved (hd_error nt)) as Hres.
    exists (public_reply (hd_error nt)).
    split; [reflexivity|]. split; [apply public_reply_truthy|].
    split; [exact Hres|]. split; [|split; reflexivity].
    intros [Hc|Hd]; [|now apply public_reply_degraded].
    destruct Hres as [Hyes Hno].
    destruct (truthy (upstream_content (hd_error nt))) eqn:E.
    + rewrite (Hyes eq_refl).
      destruct (upstream_content (hd_error nt)) as [| | | |t| |];
        try discriminate Hc.
      exists t. split; [reflexivity|]. destruct t; [discriminate E|discriminate].
    + exact (Hno eq_refl).
  - intros sub body m r0 [d c fs nt tr sp] Hm Hr Hf Hu.
    cbn [net db trace faults] in *. cbv zeta.
    unfold post_chat. rewrite (parsed_conversation_of body sub Hm Hr).
    cbv beta iota. cbn [InsertGroqConversation.message InsertGroqConversation.userId].
    rewrite try_bind, chat_reply_run. cbv beta iota.
    pose proof (chat_reply_resolved (hd_error nt)) as Hres.
    pose proof (chat_reply_degraded (hd_error nt)) as Hdeg.
    destruct (column_text_truthy (chat_reply (hd_error nt))
                (chat_reply_truthy (hd_error nt))) as (t & Ht & Hne & Hs).
    remember (chat_reply (hd_error nt)) as v eqn:Ev.
    remember (upstream_content (hd_error nt)) as content eqn:Ec.
    remember (degraded (hd_error nt)) as deg eqn:Ed.
    clear Ev Ec Ed.
    run_chat.
    cbn [InsertGroqConversation.userId InsertGroqConversation.message
         InsertGroqConversation.response].
    rewrite Hf. cbv beta iota. rewrite Ht. cbv beta iota.
    rewrite Hu. cbv beta iota. cbn [negb].
    eexists. exists v.
    split; [reflexivity|]. cbn [GroqConversation.userId GroqConversation.message
                               GroqConversation.response].
    split; [reflexivity|]. split; [reflexivity|]. split; [exact Hres|].
    split; [exact Ht|]. split; [exact Hne|]. split.
    + intros Hcase.
      assert (Hn : nonempty_text v).
      { destruct Hcase as [Hc|Hd]; [|now apply Hdeg].
        destruct Hres as [Hyes Hno].
        destruct (truthy content) eqn:E.
        - rewrite (Hyes eq_refl).
          destruct content as [| | | |u| |]; try discriminate Hc.
          exists u. split; [reflexivity|].
          destruct u; [discriminate E|discriminate].
        - exact (Hno eq_refl). }
      destruct Hn as (u & Hu' & _). rewrite Hu'. f_equal. symmetry.
      now apply Hs.
    + rewrite <- app_assoc. split; reflexivity.
  - intros sub body [d c fs nt tr sp] H.
    destruct (conversation_needs_both body sub H) as [message Hp].
    exists message. unfold post_chat. rewrite Hp.
    unfold respond. now rewrite try_ret.
Qed.

Lemma chat_always_answers_witness :
  let w := Sample.world [] [Sample.answer (JsObj [("choices", JsArr [])])] in
  let body := JsObj [("message", JsStr "hello"); ("response", JsStr "")] in
  member body "message" = JsStr "hello"
  /\ "hello" <> ""
  /\ lookup_field "response" (spread body) = JsStr ""
  /\ head_fault (faults w) = None
  /\ storage.user_exists "alice" (db w) = true
  /\ degraded (hd_error (net w)) = true
  /\ (forall s, lookup_field "response" (spread (JsObj [("message", JsStr "hello")]))
                <> JsStr s)
  /\ (exists v, fst (post_public_chat body w) = Ok (mkResponse 200 (ChatJson v))
                /\ nonempty_text v)
  /\ (exists row,
        fst (post_chat "alice" body w) = Ok (mkResponse 201 (ConversationJson row))
        /\ GroqConversation.response row <> "")
  /\ (exists message,
        fst (post_chat "alice" (JsObj [("message", JsStr "hello")]) w)
        = Ok (mkResponse 400 (Message message))).
Proof.
  cbv zeta.
  assert (Hs : "hello" <> "") by discriminate.
  assert (Hr : forall s,
             lookup_field "response" (spread (JsObj [("message", JsStr "hello")]))
             <> JsStr s) by (intros s; discriminate).
  do 7 (split; [first [exact Hs | exact Hr | reflexivity]|]).
  split; [|split].
  - destruct (proj1 chat_always_answers
                (JsObj [("message", JsStr "hello"); ("response", JsStr "")])
                "hello"
                (Sample.world [] [Sample.answer (JsObj [("choices", JsArr [])])])
                eq_refl Hs) as (v & Hv & _ & _ & Hd & _).
    exists v. split; [exact Hv|exact (Hd (or_intror eq_refl))].
  - destruct (proj1 (proj2 chat_always_answers) "alice"
                (JsObj [("message", JsStr "hello"); ("response", JsStr "")])
                "hello" ""
                (Sample.world [] [Sample.answer (JsObj [("choices", JsArr [])])])
                eq_refl eq_refl eq_refl eq_refl)
      as (row & v & Hv & _ & _ & _ & _ & Hne & _).
    exists row. split; [exact Hv|exact Hne].
  - destruct (proj2 (proj2 chat_always_answers) "alice"
                (JsObj [("message", JsStr "hello")])
                (Sample.world [] [Sample.answer (JsObj [("choices", JsArr [])])])
                (or_intror Hr)) as (message & Hm).
    exists message. now rewrite Hm.
Defined.

(* ================================================================== *)
(** ** Further properties of the deployment pipeline *)

Lemma Forall2_same {A} (R : A -> A -> Prop) (l : list A) :
  (forall a, R a a) -> Forall2 R l l.
Proof. intros H. induction l; constructor; auto. Qed.

Lemma Forall2_map_right {A} (R : A -> A -> Prop) (f : A -> A) (l l' : list A) :
  (forall a b, R a b -> R a (f b)) -> Forall2 R l l' -> Forall2 R l (map f l').
Proof. intros H. induction 1; cbn; constructor; auto. Qed.

Lemma deployment_kept_same t r : deployment_kept t r r.
Proof. repeat split. Qed.

Lemma deployment_kept_patch t p r r' :
  deployment_kept t r r' ->
  deployment_kept t r
    (if Deployment.id r' =? t then storage.patch_deployment p r' else r').
Proof.
  intros (Hi & Ha & Hc & Hn).
  destruct (Deployment.id r' =? t) eqn:E; [|repeat split; assumption].
  apply Z.eqb_eq in E. repeat split; cbn; try assumption.
  intros H. exfalso. apply H. congruence.
Qed.

Lemma application_kept_same t a : application_kept t a a.
Proof. repeat split. Qed.

Lemma application_kept_patch t p c a a' :
  application_kept t a a' ->
  application_kept t a
    (if Application.id a' =? t then storage.patch_application p c a' else a').
Proof.
  intros H.
  destruct (Application.id a' =? t) eqn:E; [|exact H].
  apply Z.eqb_eq in E.
  destruct H as (H1 & H2 & H3 & H4 & H5 & H6 & H7 & H8 & H9 & H10 & H11 & Hn).
  repeat split; cbn; try assumption.
  intros H. exfalso. apply H. congruence.
Qed.

Ltac kept :=
  cbn [storage.update_deployments storage.update_applications set_deployments
       set_applications users applications deployments analytics
       groqConversations applications_seq deployments_seq analytics_seq
       groqConversations_seq spawned];
  repeat first
    [ reflexivity
    | apply Forall2_map_right;
      [ intros ? ? ?;
        first [ apply deployment_kept_patch | apply application_kept_patch ];
        assumption | ]
    | apply Forall2_same;
      first [ apply deployment_kept_same | apply application_kept_same ] ].

Lemma pipeline_keeps_rows deploymentId application file w :
  let w' := snd (run_task (ProcessDeployment deploymentId application file) w) in
  users (db w') = users (db w)
  /\ analytics (db w') = analytics (db w)
  /\ groqConversations (db w') = groqConversations (db w)
  /\ applications_seq (db w') = applications_seq (db w)
  /\ deployments_seq (db w') = deployments_seq (db w)
  /\ spawned w' = spawned w
  /\ Forall2 (deployment_kept deploymentId)
       (deployments (db w)) (deployments (db w'))
  /\ Forall2 (application_kept (Application.id application))
       (applications (db w)) (applications (db w')).
Proof.
  destruct w as [db0 c fs nt tr sp]. cbv zeta.
  run_pipeline.
  all: cbn [db spawned].
  all: repeat (split; [solve [kept]|]); solve [kept].
Qed.

(** X1: a run of the pipeline touches two tables only, and in them the rows
    of its own deployment and application only: every other row, every
    other table, the four sequences and the list of detached tasks are as
    before, whatever the database and the upstream service do; the target
    rows keep their key, owner, subdomain and the other columns the pipeline
    does not write. *)
Theorem pipeline_frame deploymentId application file w :
  let w' := snd (run_task (ProcessDeployment deploymentId application file) w) in
  users (db w') = users (db w)
  /\ analytics (db w') = analytics (db w)
  /\ groqConversations (db w') = groqConversations (db w)
  /\ applications_seq (db w') = applications_seq (db w)
  /\ deployments_seq (db w') = deployments_seq (db w)
  /\ analytics_seq (db w') = analytics_seq (db w)
  /\ groqConversations_seq (db w') = groqConversations_seq (db w)
  /\ spawned w' = spawned w
  /\ Forall2 (deployment_kept deploymentId)
       (deployments (db w)) (deployments (db w'))
  /\ Forall2 (application_kept (Application.id application))
       (applications (db w)) (applications (db w')).
Proof.
  destruct w as [db0 c fs nt tr sp]. cbv zeta.
  run_pipeline.
  all: cbn [db spawned].
  all: repeat (split; [solve [kept]|]); solve [kept].
Qed.

Lemma analysis_outcome_truthy o :
  upstream_failed o = false -> truthy (snd (analysis_outcome o)) = true.
Proof.
  destruct o as [[m|[st [|data]]]|]; cbn; try discriminate.
  - destruct (ok _); cbn; discriminate.
  - destruct (ok _); cbn; [|discriminate]. intros ->. cbn.
    unfold js_or. destruct (truthy (content_of data)) eqn:E; [exact E|reflexivity].
Qed.

(** X2: the outcome of a deployment does not depend on the upstream
    service. When the four awaited writes go through, the run ends without
    error and the deployment is [success] with the nine log lines, for every
    upstream answer; the answer only decides the third line and the stored
    analysis: "skipped" with an empty text when the call failed, "completed"
    with a non-empty value otherwise. *)
Theorem pipeline_succeeds_for_every_answer deploymentId application file w d :
  calm 4 (faults w) ->
  select_deployment deploymentId (db w) = Some d ->
  let r := run_task (ProcessDeployment deploymentId application file) w in
  fst r = Ok tt
  /\ exists d' line v,
       select_deployment deploymentId (db (snd r)) = Some d'
       /\ Deployment.status d' = "success"
       /\ Deployment.groqAnalysis d' = Some (analysis_blob v)
       /\ Deployment.buildLogs d' =
          Some (join_lines
                  ["Initializing deployment...";
                   "Analyzing code with GroqAI...";
                   line;
                   "Optimizing dependencies...";
                   "Building application...";
                   "Running tests...";
                   "Deploying to CDN...";
                   "Configuring subdomain...";
                   "Deployment complete!"])
       /\ ((upstream_failed (hd_error (net w)) = true
            /\ line = skipped_line /\ v = JsStr "")
           \/ (upstream_failed (hd_error (net w)) = false
               /\ line = completed_line /\ truthy v = true)).
Proof.
  destruct w as [db0 c fs nt tr sp]. cbn [faults db net].
  intros Hc Hd. apply calm_4 in Hc. destruct Hc as (H1 & H2 & H3 & H4).
  cbv zeta. run_pipeline.
  split; [reflexivity|]. final_row Hd.
  eexists. exists (fst (analysis_outcome (hd_error nt))).
  exists (snd (analysis_outcome (hd_error nt))).
  split; [reflexivity|]. split; [reflexivity|]. split; [reflexivity|].
  split; [reflexivity|].
  destruct (upstream_failed (hd_error nt)) eqn:Hu.
  - left. rewrite (analysis_outcome_failed _ Hu). repeat split.
  - right. split; [reflexivity|]. split.
    + now apply analysis_outcome_answered.
    + now apply analysis_outcome_truthy.
Qed.

Lemma pipeline_succeeds_for_every_answer_witness :
  let w := Sample.world []
             [Sample.answer
                (JsObj [("choices",
                         JsArr [JsObj [("message",
                                        JsObj [("content", JsStr "Use npm ci")])]])])] in
  let r := run_task Sample.pipeline w in
  calm 4 (faults w)
  /\ select_deployment 1 (db w) = Some Sample.deployment
  /\ fst r = Ok tt
  /\ option_map Deployment.groqAnalysis (select_deployment 1 (db (snd r)))
     = Some (Some (analysis_blob (JsStr "Use npm ci"))).
Proof.
  cbv zeta.
  set (w := Sample.world []
             [Sample.answer
                (JsObj [("choices",
                         JsArr [JsObj [("message",
                                        JsObj [("content", JsStr "Use npm ci")])]])])]).
  assert (Hc : calm 4 (faults w)) by (cbn; tauto).
  split; [exact Hc|]. split; [reflexivity|].
  destruct (pipeline_succeeds_for_every_answer 1 Sample.demo None w
              (d := Sample.deployment) Hc eq_refl)
    as (Hok & d' & line & v & Hd & _).
  split; [exact Hok|]. reflexivity.
Defined.

(** X3: a run sends the upstream service one request, the analysis prompt
    of its application, and uses up one answer, exactly when its first
    update is accepted; when that update throws it sends none. *)
Theorem pipeline_sends_one_request deploymentId application file w :
  let w' := snd (run_task (ProcessDeployment deploymentId application file) w) in
  exists evs,
    trace w' = (trace w ++ evs)%list
    /\ match head_fault (faults w) with
       | None =>
           fetches evs = [analysis_request application] /\ net w' = tl (net w)
       | Some _ => fetches evs = [] /\ net w' = net w
       end.
Proof.
  destruct w as [db0 c fs nt tr sp]. cbn [faults net]. cbv zeta.
  run_pipeline.
  all: cbn [net].
  all: added_events.
  all: cbv beta iota; split; reflexivity.
Qed.

(** X4: the application never gets ahead of its deployment. A run updates
    the application at most once, with [live] or [failed] and no other
    status, and only straight after it persisted the same outcome on the
    deployment: [live] after [success], [failed] after [failed]. *)
Theorem application_follows_deployment deploymentId application file w :
  let w' := snd (run_task (ProcessDeployment deploymentId application file) w) in
  exists evs,
    trace w' = (trace w ++ evs)%list
    /\ (List.length (application_writes None evs) <= 1)%nat
    /\ Forall (fun u =>
                 (ApplicationPatch.status (snd u) = Some "live"
                  /\ deployment_status_of (fst u) = Some "success")
                 \/ (ApplicationPatch.status (snd u) = Some "failed"
                     /\ deployment_status_of (fst u) = Some "failed"))
         (application_writes None evs).
Proof.
  destruct w as [db0 c fs nt tr sp]. cbv zeta.
  run_pipeline.
  all: added_events.
  all: cbn [application_writes List.length].
  all: split; [lia|].
  all: each; cbn; auto.
Qed.

(* ================================================================== *)
(** ** Deploying, creating and deleting *)

Lemma select_application_some n d a :
  select_application n d = Some a ->
  Application.id a = n /\ In a (applications d)
  /\ storage.application_exists n d = true.
Proof.
  unfold select_application, storage.application_exists.
  induction (applications d) as [|x rows IH]; cbn; [discriminate|].
  destruct (Application.id x =? n) eqn:E; cbn.
  - intros [= <-]. apply Z.eqb_eq in E. auto.
  - intros H. destruct (IH H) as (H1 & H2 & H3). auto.
Qed.

Lemma differs_same a : differs a a = false.
Proof. unfold differs, str_eqb. now rewrite String.eqb_refl. Qed.

Lemma select_deployment_added k row d :
  select_deployment k d = None ->
  Deployment.id row = k ->
  select_deployment k (add_deployment row d) = Some row.
Proof.
  unfold select_deployment. cbn [add_deployment deployments]. intros Hn Hk.
  rewrite filter_app. cbn [filter]. rewrite Hk, Z.eqb_refl.
  unfold first_row in *.
  destruct (filter (fun r => Deployment.id r =? k) (deployments d));
    [reflexivity|discriminate].
Qed.

Lemma select_application_added k row d :
  select_application k d = None ->
  Application.id row = k ->
  select_application k (add_application row d) = Some row.
Proof.
  unfold select_application. cbn [add_application applications]. intros Hn Hk.
  rewrite filter_app. cbn [filter]. rewrite Hk, Z.eqb_refl.
  unfold first_row in *.
  destruct (filter (fun r => Application.id r =? k) (applications d));
    [reflexivity|discriminate].
Qed.

(** What the deploy route does for the owner when its two queries go
    through. *)
Lemma post_deploy_run sub id n file a d c fs nt tr sp :
  parseInt id = Some n ->
  fits_integer n = true ->
  head_fault fs = None -> head_fault (tl fs) = None ->
  select_application n d = Some a ->
  Application.userId a = sub ->
  post_deploy sub id file (mkWorld d c fs nt tr sp) =
  let row := Deployment.mk (deployments_seq d) n "building" None None None (Some c) in
  (Ok (mkResponse 201 (DeploymentJson row)),
   mkWorld (add_deployment row d) c (tl (tl fs)) nt
     (tr ++ [EvInsertDeployment row])
     (sp ++ [ProcessDeployment (deployments_seq d) a file])).
Proof.
  intros Hp Hn H1 H2 Ha Hu.
  destruct (select_application_some _ _ Ha) as (_ & _ & He).
  unfold post_deploy. rewrite Hp. run_handler. rewrite H1, Hn. cbv beta iota.
  rewrite Ha. cbv beta iota. rewrite Hu, differs_same. cbv beta iota.
  cbn [InsertDeployment.applicationId InsertDeployment.status].
  rewrite H2, ?Hn. cbv beta iota. rewrite He. reflexivity.
Qed.

(** X5: for the owner, with the database answering and an id in the range
    of the key, the deploy route inserts one deployment, [building], with no
    logs yet, for that application; it answers 201 with that row and leaves
    exactly one detached task, which carries the new key and the application
    as it was loaded. No application row is touched by the route itself. *)
Theorem deploy_starts_one_deployment sub id n file w a :
  parseInt id = Some n ->
  fits_integer n = true ->
  calm 2 (faults w) ->
  select_application n (db w) = Some a ->
  Application.userId a = sub ->
  let r := post_deploy sub id file w in
  let row := Deployment.mk (deployments_seq (db w)) n "building" None None None
               (Some (clock w)) in
  fst r = Ok (mkResponse 201 (DeploymentJson row))
  /\ deployments (db (snd r)) = (deployments (db w) ++ [row])%list
  /\ deployments_seq (db (snd r)) = deployments_seq (db w) + 1
  /\ applications (db (snd r)) = applications (db w)
  /\ spawned (snd r)
     = (spawned w ++ [ProcessDeployment (deployments_seq (db w)) a file])%list
  /\ trace (snd r) = (trace w ++ [EvInsertDeployment row])%list.
Proof.
  destruct w as [d c fs nt tr sp]. cbn [faults db clock spawned trace].
  intros Hp Hn (H1 & H2 & _) Ha Hu. cbv zeta.
  rewrite (@post_deploy_run sub id n file a d c fs nt tr sp Hp Hn H1 H2 Ha Hu).
  repeat split.
Qed.

Lemma deploy_starts_one_deployment_witness :
  let w := Sample.world [] [] in
  parseInt "1" = Some 1
  /\ fits_integer 1 = true
  /\ calm 2 (faults w)
  /\ select_application 1 (db w) = Some Sample.demo
  /\ Application.userId Sample.demo = "alice"
  /\ spawned (snd (post_deploy "alice" "1" None w))
     = [ProcessDeployment 2 Sample.demo None].
Proof.
  cbv zeta.
  assert (Hc : calm 2 (faults (Sample.world [] []))) by (cbn; tauto).
  split; [reflexivity|]. split; [reflexivity|]. split; [exact Hc|].
  split; [reflexivity|]. split; [reflexivity|].
  exact (proj1 (proj2 (proj2 (proj2 (proj2
           (@deploy_starts_one_deployment "alice" "1" 1 None (Sample.world [] [])
              Sample.demo eq_refl eq_refl Hc eq_refl eq_refl)))))).
Defined.

Lemma calm_6 fs :
  calm 6 fs ->
  head_fault fs = None /\ head_fault (tl fs) = None
  /\ head_fault (tl (tl fs)) = None /\ head_fault (tl (tl (tl fs))) = None
  /\ head_fault (tl (tl (tl (tl fs)))) = None
  /\ head_fault (tl (tl (tl (tl (tl fs))))) = None.
Proof. cbn. tauto. Qed.

(** X6: deploy and let the detached task run. With the database answering
    and a sequence that is ahead of the keys in use, the deployment the
    route created ends [success] with a deployment time and the nine log
    lines closed by "Deployment complete!", and the application is [live]
    at the URL of the subdomain it had when the route loaded it; nothing is
    left to run. *)
Theorem deploy_then_pipeline sub id n file w a :
  parseInt id = Some n ->
  fits_integer n = true ->
  calm 6 (faults w) ->
  select_application n (db w) = Some a ->
  Application.userId a = sub ->
  select_deployment (deployments_seq (db w)) (db w) = None ->
  spawned w = [] ->
  let r := start_detached (snd (post_deploy sub id file w)) in
  fst r = Ok tt
  /\ spawned (snd r) = []
  /\ (exists d',
        select_deployment (deployments_seq (db w)) (db (snd r)) = Some d'
        /\ Deployment.applicationId d' = n
        /\ Deployment.status d' = "success"
        /\ Deployment.deployedAt d' <> None
        /\ logs_end_with "Deployment complete!" d')
  /\ (exists a',
        select_application n (db (snd r)) = Some a'
        /\ Application.status a' = "live"
        /\ Application.lastDeployedAt a' <> None
        /\ Application.deploymentUrl a'
           = Some ("https://" ++ Application.subdomain a ++ ".seskrow.com")).
Proof.
  destruct w as [d c fs nt tr sp]. cbn [faults db clock spawned].
  intros Hp Hn Hc Ha Hu Hfresh ->. apply calm_6 in Hc.
  destruct Hc as (H1 & H2 & H3 & H4 & H5 & H6). cbv zeta.
  rewrite (@post_deploy_run sub id n file a d c fs nt tr [] Hp Hn H1 H2 Ha Hu).
  cbv zeta. cbn [snd app]. unfold start_detached. cbn [spawned db clock faults net trace].
  destruct (select_application_some _ _ Ha) as (Hid & _ & _).
  run_pipeline.
  split; [reflexivity|]. split; [reflexivity|]. split.
  - rewrite ?select_deployment_applications, ?select_deployment_updated.
    rewrite (@select_deployment_added (deployments_seq d)
               (Deployment.mk (deployments_seq d) n "building" None None None
                  (Some c)) d Hfresh eq_refl).
    cbn [option_map].
    eexists. split; [reflexivity|]. split; [reflexivity|].
    split; [reflexivity|]. split; [discriminate|].
    eexists. split; [reflexivity|apply ends_with_line_push].
  - rewrite Hid, select_application_updated, !select_application_deployments.
    assert (E : select_application n (add_deployment
                  (Deployment.mk (deployments_seq d) n "building" None None None (Some c)) d)
                = select_application n d) by reflexivity.
    rewrite E, Ha. cbn [option_map]. eexists.
    split; [reflexivity|]. split; [reflexivity|]. split; [discriminate|reflexivity].
Qed.

Lemma deploy_then_pipeline_witness :
  let w := Sample.world [] [] in
  let r := start_detached (snd (post_deploy "alice" "1" None w)) in
  parseInt "1" = Some 1
  /\ fits_integer 1 = true
  /\ calm 6 (faults w)
  /\ select_application 1 (db w) = Some Sample.demo
  /\ select_deployment (deployments_seq (db w)) (db w) = None
  /\ spawned w = []
  /\ fst r = Ok tt.
Proof.
  cbv zeta.
  assert (Hc : calm 6 (faults (Sample.world [] []))) by (cbn; tauto).
  split; [reflexivity|]. split; [reflexivity|]. split; [exact Hc|].
  split; [reflexivity|]. split; [reflexivity|]. split; [reflexivity|].
  exact (proj1 (@deploy_then_pipeline "alice" "1" 1 None (Sample.world [] [])
                  Sample.demo eq_refl eq_refl Hc eq_refl eq_refl eq_refl eq_refl)).
Defined.

Lemma parsed_application body sub data :
  insertApplicationSchema body sub = ParseOk data ->
  InsertApplication.userId data = sub.
Proof.
  unfold insertApplicationSchema, field. cbv zeta.
  repeat match goal with
         | |- context [match ?c with Some _ => _ | None => _ end] =>
             destruct c; [|discriminate]
         end.
  now intros [= <-].
Qed.

Lemma quota_passes sub d :
  within_quota sub d ->
  not_premium (select_user sub d)
  && (1 <=? Z.of_nat (List.length
        (order_by_desc Application.createdAt (owned_by sub d)))) = false.
Proof.
  intros [->|Hq]; [reflexivity|]. rewrite Hq. cbn. apply andb_false_r.
Qed.

Lemma calm_4' fs :
  calm 4 fs ->
  head_fault fs = None /\ head_fault (tl fs) = None
  /\ head_fault (tl (tl fs)) = None /\ head_fault (tl (tl (tl fs))) = None.
Proof. cbn. tauto. Qed.

Lemma post_applications_run sub body data d c fs nt tr sp :
  calm 4 fs ->
  within_quota sub d ->
  insertApplicationSchema body sub = ParseOk data ->
  storage.subdomain_taken (InsertApplication.subdomain data) d = false ->
  storage.user_exists sub d = true ->
  post_applications sub body (mkWorld d c fs nt tr sp) =
  let row := storage.application_row (applications_seq d) c data in
  (Ok (mkResponse 201 (ApplicationJson row)),
   mkWorld (add_application row d) c (tl (tl (tl (tl fs)))) nt
     (tr ++ [EvInsertApplication row]) sp).
Proof.
  intros Hc Hq Hv Ht Hu. apply calm_4' in Hc. destruct Hc as (H1 & H2 & H3 & H4).
  pose proof (parsed_application _ _ Hv) as Hid.
  unfold post_applications, storage.getUser, storage.getUserApplications.
  cbv beta iota zeta delta
    [bind ret try_catch get respond console_error query with_faults fst snd
     db clock faults net trace spawned].
  rewrite H1, H2. cbv beta iota. fold (owned_by sub d).
  rewrite (quota_passes Hq), Hv.
  rewrite checkSubdomainAvailable_run, H3, Ht. cbn [negb].
  unfold storage.createApplication. run_handler.
  rewrite H4, Ht, Hid, Hu. reflexivity.
Qed.

Lemma subdomain_taken_added row d :
  storage.subdomain_taken (Application.subdomain row) (add_application row d) = true.
Proof.
  unfold storage.subdomain_taken. cbn [add_application applications].
  rewrite existsb_app. cbn. unfold str_eqb. rewrite String.eqb_refl.
  apply orb_true_iff. right. reflexivity.
Qed.

(** X7: creating an application and reading it back. For a caller the quota
    lets through, a body the schema accepts (its numbers, if any, are in
    the range of the integer columns), a free subdomain and a database that
    answers, the route answers 201 with the row it inserted: the next key,
    the column defaults, the caller as owner; that row is what a lookup by
    its key finds afterwards, and the subdomain is taken from then on. *)
Theorem creation_round_trip sub body data w :
  calm 4 (faults w) ->
  within_quota sub (db w) ->
  insertApplicationSchema body sub = ParseOk data ->
  storage.subdomain_taken (InsertApplication.subdomain data) (db w) = false ->
  storage.user_exists sub (db w) = true ->
  select_application (applications_seq (db w)) (db w) = None ->
  let r := post_applications sub body w in
  let row := storage.application_row (applications_seq (db w)) (clock w) data in
  fst r = Ok (mkResponse 201 (ApplicationJson row))
  /\ Application.userId row = sub
  /\ Application.status row
     = match InsertApplication.status data with Some s => s | None => "pending" end
  /\ applications (db (snd r)) = (applications (db w) ++ [row])%list
  /\ select_application (applications_seq (db w)) (db (snd r)) = Some row
  /\ storage.subdomain_taken (InsertApplication.subdomain data) (db (snd r)) = true
  /\ trace (snd r) = (trace w ++ [EvInsertApplication row])%list
  /\ spawned (snd r) = spawned w.
Proof.
  destruct w as [d c fs nt tr sp]. cbn [faults db clock trace spawned].
  intros Hc Hq Hv Ht Hu Hfresh. cbv zeta.
  rewrite (@post_applications_run sub body data d c fs nt tr sp Hc Hq Hv Ht Hu).
  cbv zeta. cbn [fst snd db trace spawned].
  split; [reflexivity|]. split; [exact (parsed_application _ _ Hv)|].
  split; [reflexivity|]. split; [reflexivity|].
  split; [now apply select_application_added|].
  split; [|split; reflexivity].
  exact (subdomain_taken_added
           (storage.application_row (applications_seq d) c data) d).
Qed.

Lemma creation_round_trip_witness :
  let w := Sample.world [] [] in
  calm 4 (faults w)
  /\ within_quota "bob" (db w)
  /\ storage.subdomain_taken "shop" (db w) = false
  /\ storage.user_exists "bob" (db w) = true
  /\ select_application (applications_seq (db w)) (db w) = None
  /\ option_map Application.userId
       (select_application 2
          (db (snd (post_applications "bob"
                      (JsObj [("name", JsStr "Shop"); ("subdomain", JsStr "shop");
                              ("sourceType", JsStr "zip");
                              ("userId", JsStr "alice")]) w))))
     = Some "bob".
Proof.
  cbv zeta.
  assert (Hc : calm 4 (faults (Sample.world [] []))) by (cbn; tauto).
  assert (Hq : within_quota "bob" (db (Sample.world [] [])))
    by (left; reflexivity).
  split; [exact Hc|]. split; [exact Hq|]. split; [reflexivity|].
  split; [reflexivity|]. split; [reflexivity|].
  destruct (@creation_round_trip "bob"
              (JsObj [("name", JsStr "Shop"); ("subdomain", JsStr "shop");
                      ("sourceType", JsStr "zip"); ("userId", JsStr "alice")])
              (InsertApplication.mk "bob" "Shop" "shop" Absent "zip" Absent
                 Absent Absent None Absent Absent Absent)
              (Sample.world [] []) Hc Hq eq_refl eq_refl eq_refl eq_refl)
    as (_ & _ & _ & _ & Hs & _).
  cbn [applications_seq db Sample.world Sample.tables] in Hs.
  rewrite Hs. reflexivity.
Defined.

(** A number outside the range of the integer column is refused by the
    schema: the route answers 400 and writes nothing. *)
Lemma creation_refuses_a_number_out_of_range :
  let body := JsObj [("name", JsStr "Shop"); ("subdomain", JsStr "shop");
                     ("sourceType", JsStr "zip");
                     ("storageUsed", JsNum 3000000000)] in
  let r := post_applications "bob" body (Sample.world [] []) in
  option_map status (match fst r with Ok x => Some x | Throw _ => None end)
  = Some 400
  /\ db (snd r) = db (Sample.world [] [])
  /\ trace (snd r) = [].
Proof. cbv zeta. repeat split. Qed.

(** X8: whatever the body and the database do, a creation request adds at
    most one row, and only when it answers 201: that row belongs to the
    caller, not to a [userId] sent in the body, and has the next key.
    Every other answer leaves the rows of every table and the trace as they
    were, and uses up at most one key of the sequence, which an insert that
    the database refuses does; no answer starts a task. *)
Theorem creation_writes_own_row sub body w :
  let r := post_applications sub body w in
  spawned (snd r) = spawned w
  /\ ((same_tables (db w) (db (snd r))
       /\ trace (snd r) = trace w
       /\ applications_seq (db w) <= applications_seq (db (snd r))
          <= applications_seq (db w) + 1
       /\ forall row, fst r <> Ok (mkResponse 201 (ApplicationJson row)))
      \/ (exists row,
            fst r = Ok (mkResponse 201 (ApplicationJson row))
            /\ Application.userId row = sub
            /\ Application.id row = applications_seq (db w)
            /\ db (snd r) = add_application row (db w)
            /\ trace (snd r) = (trace w ++ [EvInsertApplication row])%list)).
Proof.
  destruct w as [d c fs nt tr sp]. cbn [db trace spawned]. cbv zeta.
  unfold post_applications. run_handler.
  repeat case_next; cbn [fst snd db trace spawned]; (split; [reflexivity|]).
  all: try (left; split; [repeat split|]; split; [reflexivity|];
            split; [cbn [use_application_key applications_seq]; lia|];
            intros row H; discriminate H).
  right. eexists. split; [reflexivity|].
  split; [|repeat split].
  cbn [storage.application_row Application.userId].
  eapply parsed_application; eassumption.
Qed.

Lemma select_application_removed k n d :
  select_application k
    (set_applications
       (filter (fun a => negb (Application.id a =? n)) (applications d)) d)
  = if k =? n then None else select_application k d.
Proof.
  unfold select_application. cbn [set_applications applications].
  induction (applications d) as [|x rows IH]; cbn [filter].
  - now destruct (k =? n).
  - destruct (Application.id x =? n) eqn:E; cbn [negb filter].
    + rewrite IH. destruct (k =? n) eqn:K; [reflexivity|].
      apply Z.eqb_eq in E. apply Z.eqb_neq in K.
      assert ((Application.id x =? k) = false) as -> by (apply Z.eqb_neq; lia).
      reflexivity.
    + destruct (Application.id x =? k) eqn:K'.
      * apply Z.eqb_eq in K'. apply Z.eqb_neq in E.
        assert ((k =? n) = false) as -> by (apply Z.eqb_neq; lia).
        reflexivity.
      * exact IH.
Qed.

(** What the delete route does for the owner when its two queries go
    through. *)
Lemma delete_application_run sub id n a d c fs nt tr sp :
  parseInt id = Some n ->
  fits_integer n = true ->
  head_fault fs = None -> head_fault (tl fs) = None ->
  select_application n d = Some a ->
  Application.userId a = sub ->
  delete_application sub id (mkWorld d c fs nt tr sp) =
  if existsb (fun r => Deployment.applicationId r =? n) (deployments d)
     || existsb (fun e => Analytics.applicationId e =? n) (analytics d)
  then (Ok (mkResponse 500 (Message "Failed to delete application")),
        mkWorld d c (tl (tl fs)) nt tr sp)
  else (Ok (mkResponse 204 NoContent),
        mkWorld
          (set_applications
             (filter (fun a => negb (Application.id a =? n)) (applications d)) d)
          c (tl (tl fs)) nt (tr ++ [EvDeleteApplication n]) sp).
Proof.
  intros Hp Hn H1 H2 Ha Hu.
  unfold delete_application. rewrite Hp. run_handler. rewrite H1, Hn. cbv beta iota.
  rewrite Ha. cbv beta iota. rewrite Hu, differs_same. cbv beta iota.
  rewrite H2, ?Hn. cbv beta iota.
  destruct (existsb _ _ || existsb _ _); reflexivity.
Qed.

(** X9: the owner deletes an application nothing refers to, under an id in
    the range of the key: the route answers 204, no row has that key
    afterwards, every other application is found as before and the other
    tables are not touched. *)
Theorem delete_removes_the_application sub id n w a :
  parseInt id = Some n ->
  fits_integer n = true ->
  calm 2 (faults w) ->
  select_application n (db w) = Some a ->
  Application.userId a = sub ->
  unreferenced n (db w) ->
  let r := delete_application sub id w in
  fst r = Ok (mkResponse 204 NoContent)
  /\ select_application n (db (snd r)) = None
  /\ (forall k, k <> n ->
        select_application k (db (snd r)) = select_application k (db w))
  /\ users (db (snd r)) = users (db w)
  /\ deployments (db (snd r)) = deployments (db w)
  /\ analytics (db (snd r)) = analytics (db w)
  /\ groqConversations (db (snd r)) = groqConversations (db w)
  /\ trace (snd r) = (trace w ++ [EvDeleteApplication n])%list.
Proof.
  destruct w as [d c fs nt tr sp]. cbn [faults db trace].
  intros Hp Hn (H1 & H2 & _) Ha Hu (Hd & He). cbv zeta.
  rewrite (@delete_application_run sub id n a d c fs nt tr sp Hp Hn H1 H2 Ha Hu).
  rewrite Hd, He. cbn [orb fst snd db trace].
  split; [reflexivity|]. split.
  - rewrite select_application_removed. now rewrite Z.eqb_refl.
  - split; [|repeat split].
    intros k Hk. rewrite select_application_removed.
    apply Z.eqb_neq in Hk. now rewrite Hk.
Qed.

Lemma delete_removes_the_application_witness :
  let w := mkWorld (mkDb [Sample.alice] [Sample.demo] [] [] [] 2 1 1 1)
             Sample.start [] [] [] [] in
  parseInt "1" = Some 1
  /\ fits_integer 1 = true
  /\ calm 2 (faults w)
  /\ select_application 1 (db w) = Some Sample.demo
  /\ Application.userId Sample.demo = "alice"
  /\ unreferenced 1 (db w)
  /\ select_application 1 (db (snd (delete_application "alice" "1" w))) = None.
Proof.
  cbv zeta.
  set (w := mkWorld (mkDb [Sample.alice] [Sample.demo] [] [] [] 2 1 1 1)
              Sample.start [] [] [] []).
  assert (Hc : calm 2 (faults w)) by (cbn; tauto).
  assert (Hu : unreferenced 1 (db w)) by (split; reflexivity).
  split; [reflexivity|]. split; [reflexivity|]. split; [exact Hc|].
  split; [reflexivity|]. split; [reflexivity|]. split; [exact Hu|].
  exact (proj1 (proj2 (@delete_removes_the_application "alice" "1" 1 w
                         Sample.demo eq_refl eq_refl Hc eq_refl eq_refl Hu))).
Defined.

Lemma referenced_by_deployment n r d :
  In r (deployments d) -> Deployment.applicationId r = n ->
  existsb (fun r => Deployment.applicationId r =? n) (deployments d) = true.
Proof.
  intros Hin E. apply existsb_exists. exists r. split; [exact Hin|].
  now apply Z.eqb_eq.
Qed.

(** The delete the database refuses. *)
Lemma delete_refused sub id n a w :
  parseInt id = Some n ->
  fits_integer n = true ->
  calm 2 (faults w) ->
  select_application n (db w) = Some a ->
  Application.userId a = sub ->
  (exists r, In r (deployments (db w)) /\ Deployment.applicationId r = n)
  \/ (exists e, In e (analytics (db w)) /\ Analytics.applicationId e = n) ->
  delete_application sub id w =
  (Ok (mkResponse 500 (Message "Failed to delete application")),
   mkWorld (db w) (clock w) (tl (tl (faults w))) (net w) (trace w) (spawned w)).
Proof.
  destruct w as [d c fs nt tr sp]. cbn [faults db trace clock net spawned].
  intros Hp Hn (H1 & H2 & _) Ha Hu Href.
  rewrite (@delete_application_run sub id n a d c fs nt tr sp Hp Hn H1 H2 Ha Hu).
  assert (E : existsb (fun r => Deployment.applicationId r =? n) (deployments d)
              || existsb (fun e => Analytics.applicationId e =? n) (analytics d)
              = true).
  { apply orb_true_iff. destruct Href as [(r & Hin & Hr)|(e & Hin & He)].
    - left. exact (referenced_by_deployment _ _ Hin Hr).
    - right. apply existsb_exists. exists e. split; [exact Hin|].
      now apply Z.eqb_eq. }
  now rewrite E.
Qed.

(** An id outside the range of the key: the lookup is refused. *)
Lemma out_of_range_unavailable op sub id n w :
  parseInt id = Some n ->
  fits_integer n = false ->
  run_operation op sub id w
  = (Ok (mkResponse 500 (Message (failure_message op))),
     mkWorld (db w) (clock w) (tl (faults w)) (net w) (trace w) (spawned w)).
Proof.
  intros Hp Hn. destruct w as [d c fs nt tr sp].
  apply guarded_unavailable. left. unfold integer_key. now rewrite Hp, Hn.
Qed.

(** X10: an application that a deployment or a recorded visit refers to
    cannot be deleted by its owner: those rows reference it without a
    cascade, the delete is refused by the database, and the route answers
    500 with the tables and the trace as they were. *)
Theorem referenced_application_stays sub id n w a :
  parseInt id = Some n ->
  calm 2 (faults w) ->
  select_application n (db w) = Some a ->
  Application.userId a = sub ->
  ((exists r, In r (deployments (db w)) /\ Deployment.applicationId r = n)
   \/ (exists e, In e (analytics (db w)) /\ Analytics.applicationId e = n)) ->
  let r := delete_application sub id w in
  fst r = Ok (mkResponse 500 (Message "Failed to delete application"))
  /\ db (snd r) = db w
  /\ trace (snd r) = trace w
  /\ select_application n (db (snd r)) = Some a.
Proof.
  intros Hp Hc Ha Hu Href. cbv zeta.
  destruct (fits_integer n) eqn:Hn.
  - rewrite (@delete_refused sub id n a w Hp Hn Hc Ha Hu Href).
    cbn [fst snd db trace]. repeat split. exact Ha.
  - pose proof (@out_of_range_unavailable OpDelete sub id n w Hp Hn) as E.
    cbn [run_operation failure_message] in E. rewrite E.
    cbn [fst snd db trace]. repeat split. exact Ha.
Qed.

Lemma referenced_application_stays_witness :
  let w := Sample.world [] [] in
  parseInt "1" = Some 1
  /\ calm 2 (faults w)
  /\ select_application 1 (db w) = Some Sample.demo
  /\ Application.userId Sample.demo = "alice"
  /\ In Sample.deployment (deployments (db w))
  /\ fst (delete_application "alice" "1" w)
     = Ok (mkResponse 500 (Message "Failed to delete application")).
Proof.
  cbv zeta.
  assert (Hc : calm 2 (faults (Sample.world [] []))) by (cbn; tauto).
  assert (Hin : In Sample.deployment (deployments (db (Sample.world [] []))))
    by (left; reflexivity).
  split; [reflexivity|]. split; [exact Hc|]. split; [reflexivity|].
  split; [reflexivity|]. split; [exact Hin|].
  exact (proj1 (@referenced_application_stays "alice" "1" 1 (Sample.world [] [])
                  Sample.demo eq_refl Hc eq_refl eq_refl
                  (or_introl (ex_intro _ Sample.deployment (conj Hin eq_refl))))).
Defined.

Lemma select_application_kept t n d d' a :
  Forall2 (application_kept t) (applications d) (applications d') ->
  select_application n d = Some a ->
  exists a', select_application n d' = Some a' /\ application_kept t a a'.
Proof.
  unfold select_application.
  generalize (applications d) (applications d'). intros l l'.
  induction 1 as [|x y l l' Hxy _ IH]; cbn [filter]; [discriminate|].
  assert (E : Application.id y = Application.id x) by apply Hxy.
  rewrite E. destruct (Application.id x =? n); cbn.
  - intros [= <-]. exists y. auto.
  - exact IH.
Qed.

Lemma Forall2_in_right {A} (R : A -> A -> Prop) l l' x :
  Forall2 R l l' -> In x l -> exists y, In y l' /\ R x y.
Proof.
  induction 1 as [|a b l l' Hab _ IH]; cbn; [intros []|].
  intros [<-|Hin].
  - exists b. auto.
  - destruct (IH Hin) as (y & Hy & Hr). exists y. auto.
Qed.

(** X11: once deployed, always there. After the owner's deploy request was
    accepted, the owner's delete request for that application is answered
    500 and removes nothing, before the pipeline has run and after it has
    run, whatever the pipeline's outcome was. *)
Theorem deployed_application_cannot_be_deleted sub id n file w a :
  parseInt id = Some n ->
  calm 2 (faults w) ->
  select_application n (db w) = Some a ->
  Application.userId a = sub ->
  let w1 := snd (post_deploy sub id file w) in
  forall w2,
    (w2 = w1 \/ w2 = snd (start_detached w1)) ->
    calm 2 (faults w2) ->
    let r := delete_application sub id w2 in
    fst r = Ok (mkResponse 500 (Message "Failed to delete application"))
    /\ db (snd r) = db w2
    /\ exists a', select_application n (db (snd r)) = Some a'
                  /\ Application.userId a' = sub.
Proof.
  intros Hp Hc Ha Hu. cbv zeta. intros w2 Hw Hc2.
  destruct (fits_integer n) eqn:Hn.
  2:{ pose proof (@out_of_range_unavailable (OpDeploy file) sub id n w Hp Hn) as E.
      cbn [run_operation] in E. rewrite E in Hw. cbn [snd] in Hw.
      assert (K : exists a', select_application n (db w2) = Some a'
                             /\ Application.userId a' = sub).
      { destruct Hw as [->| ->].
        - exists a. cbn [db]. auto.
        - unfold start_detached. cbn [spawned db clock faults net trace].
          destruct (spawned w) as [|[k b f] rest].
          + exists a. cbn [snd db]. auto.
          + match goal with
            | |- context [run_task ?t ?w0] =>
                pose proof (pipeline_keeps_rows k b f w0) as P
            end.
            cbv zeta in P. cbn [db] in P.
            destruct P as (_ & _ & _ & _ & _ & _ & _ & Pa).
            destruct (select_application_kept _ _ _ Pa Ha) as (a' & Ha' & Hk).
            exists a'. split; [exact Ha'|]. rewrite <- Hu. apply Hk. }
      destruct K as (a' & Ha' & Hu').
      pose proof (@out_of_range_unavailable OpDelete sub id n w2 Hp Hn) as E2.
      cbn [run_operation failure_message] in E2. rewrite E2.
      cbn [fst snd db]. split; [reflexivity|]. split; [reflexivity|].
      exists a'. auto. }
  destruct w as [d c fs nt tr sp]. cbn [faults] in Hc.
  destruct Hc as (H1 & H2 & _).
  rewrite (@post_deploy_run sub id n file a d c fs nt tr sp Hp Hn H1 H2 Ha Hu) in Hw.
  cbv zeta in Hw. cbn [snd] in Hw.
  set (row := Deployment.mk (deployments_seq d) n "building" None None None
                (Some c)) in *.
  assert (Hrow : In row (deployments (add_deployment row d)))
    by (cbn [add_deployment deployments]; apply in_or_app; right; left; reflexivity).
  assert (Happ : select_application n (add_deployment row d) = Some a)
    by exact Ha.
  assert (K : exists a' r',
             select_application n (db w2) = Some a'
             /\ Application.userId a' = sub
             /\ In r' (deployments (db w2))
             /\ Deployment.applicationId r' = n).
  { destruct Hw as [->| ->].
    - exists a, row. cbn [db]. auto.
    - unfold start_detached. cbn [spawned db clock faults net trace].
      destruct (sp ++ [ProcessDeployment (deployments_seq d) a file])%list
        as [|[k b f] rest].
      + exists a, row. cbn [snd db]. auto.
      + match goal with
        | |- context [run_task ?t ?w] =>
            pose proof (pipeline_keeps_rows k b f w) as P
        end.
        cbv zeta in P. cbn [db] in P.
        destruct P as (_ & _ & _ & _ & _ & _ & Pd & Pa).
        destruct (select_application_kept _ _ _ Pa Happ) as (a' & Ha' & Hk).
        destruct (@Forall2_in_right _ _ _ _ _ Pd Hrow) as (r' & Hr' & Hkd).
        exists a', r'. split; [exact Ha'|].
        split; [rewrite <- Hu; apply Hk|].
        split; [exact Hr'|]. apply Hkd. }
  destruct K as (a' & r' & Ha' & Hu' & Hr' & Hn').
  rewrite (@delete_refused sub id n a' w2 Hp Hn Hc2 Ha' Hu'
             (or_introl (ex_intro _ r' (conj Hr' Hn')))).
  cbn [fst snd db]. split; [reflexivity|]. split; [reflexivity|].
  exists a'. auto.
Qed.

Lemma deployed_application_cannot_be_deleted_witness :
  let w := Sample.world [] [] in
  let w2 := snd (start_detached (snd (post_deploy "alice" "1" None w))) in
  parseInt "1" = Some 1
  /\ calm 2 (faults w)
  /\ select_application 1 (db w) = Some Sample.demo
  /\ calm 2 (faults w2)
  /\ fst (delete_application "alice" "1" w2)
     = Ok (mkResponse 500 (Message "Failed to delete application")).
Proof.
  cbv zeta.
  assert (Hc : calm 2 (faults (Sample.world [] []))) by (cbn; tauto).
  assert (Hc2 : calm 2 (faults (snd (start_detached
                   (snd (post_deploy "alice" "1" None (Sample.world [] [])))))))
    by (vm_compute; tauto).
  split; [reflexivity|]. split; [exact Hc|]. split; [reflexivity|].
  split; [exact Hc2|].
  exact (proj1 (@deployed_application_cannot_be_deleted "alice" "1" 1 None
                  (Sample.world [] []) Sample.demo eq_refl Hc eq_refl eq_refl
                  _ (or_intror eq_refl) Hc2)).
Defined.

(** X12: when the database is down, or does not read a key in the id of
    the URL (the id is not a number, or a number outside the range of the
    integer column), each of the five operations on one application answers
    500 with its own message; nothing is written and nothing is started. *)
Theorem guarded_operation_unavailable (op : AppOperation) (sub id : string)
    (w : World) :
  (integer_key id = None \/ exists e, head_fault (faults w) = Some e) ->
  let r := run_operation op sub id w in
  fst r = Ok (mkResponse 500 (Message (failure_message op)))
  /\ db (snd r) = db w
  /\ trace (snd r) = trace w
  /\ spawned (snd r) = spawned w.
Proof.
  destruct w as [d c fs nt tr sp]. cbn [faults db trace spawned]. cbv zeta.
  intros H. rewrite (@guarded_unavailable op sub id d c fs nt tr sp H).
  repeat split.
Qed.

Lemma guarded_operation_unavailable_witness :
  integer_key "abc" = None
  /\ integer_key "4294967297" = None
  /\ head_fault (faults (Sample.world [Some "connection refused"] []))
     = Some "connection refused"
  /\ fst (run_operation OpDelete "alice" "abc" (Sample.world [] []))
     = Ok (mkResponse 500 (Message "Failed to delete application"))
  /\ fst (run_operation (OpAnalytics None) "alice" "4294967297" (Sample.world [] []))
     = Ok (mkResponse 500 (Message "Failed to fetch analytics"))
  /\ fst (run_operation (OpDeploy None) "alice" "1"
            (Sample.world [Some "connection refused"] []))
     = Ok (mkResponse 500 (Message "Failed to start deployment")).
Proof.
  split; [reflexivity|]. split; [reflexivity|]. split; [reflexivity|].
  split; [|split].
  - exact (proj1 (@guarded_operation_unavailable OpDelete "alice" "abc"
                    (Sample.world [] []) (or_introl eq_refl))).
  - exact (proj1 (@guarded_operation_unavailable (OpAnalytics None) "alice"
                    "4294967297" (Sample.world [] []) (or_introl eq_refl))).
  - exact (proj1 (@guarded_operation_unavailable (OpDeploy None) "alice" "1"
                    (Sample.world [Some "connection refused"] [])
                    (or_intror (ex_intro _ "connection refused" eq_refl)))).
Defined.

Ltac run_read :=
  cbv beta iota zeta delta
    [bind ret throw try_catch get modify respond reply console_error now query
     integer with_faults
     storage.getUser storage.getUserApplications storage.getApplication
     storage.checkSubdomainAvailable storage.getApplicationDeployments
     storage.getApplicationAnalytics storage_users.getUserConversations
     fst snd db clock faults net trace spawned].

(** X13: the seven routes that read leave every table, the trace, the
    clock, the upstream answers and the detached tasks as they found them,
    whoever asks and whatever they answer. *)
Theorem reads_write_nothing (q : ReadRequest) (sub : string) (w : World) :
  let w' := after_read q sub w in
  db w' = db w
  /\ trace w' = trace w
  /\ spawned w' = spawned w
  /\ net w' = net w
  /\ clock w' = clock w.
Proof.
  destruct w as [d c fs nt tr sp]. cbv zeta.
  destruct q; unfold after_read, get_auth_user, get_applications,
    get_conversations, get_application, get_deployments, get_analytics,
    get_check_subdomain;
    try destruct (parseInt id); run_read;
    repeat case_next; cbn [snd db trace spawned net clock];
    try (destruct (select_application _ _); cbv beta iota;
         repeat case_next; cbn [snd db trace spawned net clock]);
    repeat split.
Qed.

(* ================================================================== *)
(** ** Listings *)

Lemma owned_by_owner sub d :
  Forall (fun a => Application.userId a = sub) (owned_by sub d).
Proof.
  apply Forall_forall. intros a Ha. apply filter_In in Ha.
  now apply String.eqb_eq.
Qed.

(** X14: the listing of a caller's applications: every application the
    caller owns, each once, none of anyone else's, newest first; and 500
    when the database is down. *)
Theorem applications_listing sub w :
  let r := get_applications sub w in
  match head_fault (faults w) with
  | Some _ => fst r = Ok (mkReply 500 (ErrorBody "Failed to fetch applications"))
  | None =>
      exists rows,
        fst r = Ok (mkReply 200 (ApplicationsBody rows))
        /\ Permutation rows (owned_by sub (db w))
        /\ Sorted (newest_first Application.createdAt) rows
        /\ Forall (fun a => Application.userId a = sub) rows
  end.
Proof.
  destruct w as [d c fs nt tr sp]. cbn [faults db]. cbv zeta.
  unfold get_applications. run_read.
  destruct (head_fault fs); cbv beta iota; [reflexivity|].
  fold (owned_by sub d). eexists. split; [reflexivity|].
  split; [apply order_by_desc_perm|]. split; [apply order_by_desc_sorted|].
  eapply Permutation_Forall; [symmetry; apply order_by_desc_perm|].
  apply owned_by_owner.
Qed.

(** What the listing of deployments does for the owner. *)
Lemma get_deployments_run sub id n a d c fs nt tr sp :
  parseInt id = Some n ->
  fits_integer n = true ->
  head_fault fs = None -> head_fault (tl fs) = None ->
  select_application n d = Some a ->
  Application.userId a = sub ->
  get_deployments sub id (mkWorld d c fs nt tr sp) =
  (Ok (mkResponse 200
         (DeploymentsJson
            (order_by_desc Deployment.createdAt
               (filter (fun r => Deployment.applicationId r =? n) (deployments d))))),
   mkWorld d c (tl (tl fs)) nt tr sp).
Proof.
  intros Hp Hn H1 H2 Ha Hu.
  unfold get_deployments. rewrite Hp. run_read. rewrite H1, Hn. cbv beta iota.
  rewrite Ha. cbv beta iota. rewrite Hu, differs_same. cbv beta iota.
  now rewrite H2, ?Hn.
Qed.

(** X15: the owner's listing of deployments, asked for under an id in the
    range of the key, holds the deployments of that application and no
    other, each once, newest first. *)
Theorem deployments_listing sub id n w a :
  parseInt id = Some n ->
  fits_integer n = true ->
  calm 2 (faults w) ->
  select_application n (db w) = Some a ->
  Application.userId a = sub ->
  exists rows,
    fst (get_deployments sub id w) = Ok (mkResponse 200 (DeploymentsJson rows))
    /\ Permutation rows
         (filter (fun r => Deployment.applicationId r =? n) (deployments (db w)))
    /\ Sorted (newest_first Deployment.createdAt) rows
    /\ (forall r, In r rows <->
                  In r (deployments (db w)) /\ Deployment.applicationId r = n).
Proof.
  destruct w as [d c fs nt tr sp]. cbn [faults db].
  intros Hp Hn (H1 & H2 & _) Ha Hu.
  rewrite (@get_deployments_run sub id n a d c fs nt tr sp Hp Hn H1 H2 Ha Hu).
  eexists. split; [reflexivity|].
  split; [apply order_by_desc_perm|]. split; [apply order_by_desc_sorted|].
  intros r. split.
  - intros Hin.
    apply (Permutation_in _ (order_by_desc_perm _ _)) in Hin.
    apply filter_In in Hin. destruct Hin as [Hin E]. apply Z.eqb_eq in E. auto.
  - intros [Hin E].
    apply (Permutation_in _ (Permutation_sym (order_by_desc_perm _ _))).
    apply filter_In. split; [exact Hin|]. now apply Z.eqb_eq.
Qed.

Lemma deployments_listing_witness :
  let w := Sample.world [] [] in
  parseInt "1" = Some 1
  /\ fits_integer 1 = true
  /\ calm 2 (faults w)
  /\ select_application 1 (db w) = Some Sample.demo
  /\ Application.userId Sample.demo = "alice"
  /\ exists rows,
       fst (get_deployments "alice" "1" w)
       = Ok (mkResponse 200 (DeploymentsJson rows))
       /\ In Sample.deployment rows.
Proof.
  cbv zeta.
  assert (Hc : calm 2 (faults (Sample.world [] []))) by (cbn; tauto).
  split; [reflexivity|]. split; [reflexivity|]. split; [exact Hc|].
  split; [reflexivity|]. split; [reflexivity|].
  destruct (@deployments_listing "alice" "1" 1 (Sample.world [] []) Sample.demo
              eq_refl eq_refl Hc eq_refl eq_refl) as (rows & Hr & _ & _ & Hin).
  exists rows. split; [exact Hr|]. apply Hin. split; [left|]; reflexivity.
Defined.

(** The creation that finds the subdomain taken. *)
Lemma post_applications_conflict sub body data d c fs nt tr sp :
  calm 3 fs ->
  within_quota sub d ->
  insertApplicationSchema body sub = ParseOk data ->
  storage.subdomain_taken (InsertApplication.subdomain data) d = true ->
  post_applications sub body (mkWorld d c fs nt tr sp) =
  (Ok subdomain_conflict, mkWorld d c (tl (tl (tl fs))) nt tr sp).
Proof.
  intros (H1 & H2 & H3 & _) Hq Hv Ht.
  unfold post_applications, storage.getUser, storage.getUserApplications.
  cbv beta iota zeta delta
    [bind ret try_catch get respond console_error query with_faults fst snd
     db clock faults net trace spawned].
  rewrite H1, H2. cbv beta iota. fold (owned_by sub d).
  rewrite (quota_passes Hq), Hv.
  rewrite checkSubdomainAvailable_run, H3, Ht. reflexivity.
Qed.

Lemma get_check_subdomain_run s d c fs nt tr sp :
  head_fault fs = None ->
  get_check_subdomain s (mkWorld d c fs nt tr sp) =
  (Ok (mkResponse 200 (AvailableJson (negb (storage.subdomain_taken s d)))),
   mkWorld d c (tl fs) nt tr sp).
Proof.
  intros Hf. unfold get_check_subdomain.
  rewrite try_bind, checkSubdomainAvailable_run, Hf. cbv beta iota.
  unfold respond. now rewrite try_ret.
Qed.

(** X16: the subdomain check keeps its word. For a caller the quota lets
    through, with a valid body and the database answering: when the check
    says the subdomain is available, the creation that follows is answered
    201 with a row under that subdomain, and when it says it is not, the
    creation is answered "Subdomain already taken"; either way a check made
    after the creation says the subdomain is not available. *)
Theorem available_subdomain_can_be_created sub body data w :
  calm 6 (faults w) ->
  within_quota sub (db w) ->
  insertApplicationSchema body sub = ParseOk data ->
  storage.user_exists sub (db w) = true ->
  let s := InsertApplication.subdomain data in
  let check := get_check_subdomain s w in
  let r := post_applications sub body (snd check) in
  ((fst check = Ok (mkResponse 200 (AvailableJson true))
    /\ exists row,
         fst r = Ok (mkResponse 201 (ApplicationJson row))
         /\ Application.subdomain row = s
         /\ Application.userId row = sub)
   \/ (fst check = Ok (mkResponse 200 (AvailableJson false))
       /\ fst r = Ok subdomain_conflict))
  /\ fst (get_check_subdomain s (snd r))
     = Ok (mkResponse 200 (AvailableJson false)).
Proof.
  destruct w as [d c fs nt tr sp]. cbn [faults db].
  intros Hc Hq Hv Hu. apply calm_6 in Hc.
  destruct Hc as (H1 & H2 & H3 & H4 & H5 & H6). cbv zeta.
  rewrite (get_check_subdomain_run _ d c fs nt tr sp H1). cbn [fst snd].
  destruct (storage.subdomain_taken (InsertApplication.subdomain data) d) eqn:Ht;
    cbn [negb].
  - assert (Hc3 : calm 3 (tl fs)) by (cbn; tauto).
    rewrite (@post_applications_conflict sub body data d c (tl fs) nt tr sp
               Hc3 Hq Hv Ht).
    cbn [fst snd]. split; [right; split; reflexivity|].
    rewrite get_check_subdomain_run by exact H5. now rewrite Ht.
  - assert (Hc4 : calm 4 (tl fs)) by (cbn; tauto).
    rewrite (@post_applications_run sub body data d c (tl fs) nt tr sp
               Hc4 Hq Hv Ht Hu).
    cbv zeta. cbn [fst snd]. split.
    + left. split; [reflexivity|]. eexists. split; [reflexivity|].
      split; [reflexivity|]. exact (parsed_application _ _ Hv).
    + rewrite get_check_subdomain_run by exact H6.
      pose proof (subdomain_taken_added
                    (storage.application_row (applications_seq d) c data) d) as T.
      cbn [storage.application_row Application.subdomain] in T.
      now rewrite T.
Qed.

Lemma available_subdomain_can_be_created_witness :
  let w := Sample.world [] [] in
  let body := JsObj [("name", JsStr "Shop"); ("subdomain", JsStr "shop");
                     ("sourceType", JsStr "zip")] in
  calm 6 (faults w)
  /\ within_quota "bob" (db w)
  /\ storage.user_exists "bob" (db w) = true
  /\ fst (get_check_subdomain "shop" w) = Ok (mkResponse 200 (AvailableJson true))
  /\ fst (get_check_subdomain "shop"
            (snd (post_applications "bob" body (snd (get_check_subdomain "shop" w)))))
     = Ok (mkResponse 200 (AvailableJson false)).
Proof.
  cbv zeta.
  assert (Hc : calm 6 (faults (Sample.world [] []))) by (cbn; tauto).
  assert (Hq : within_quota "bob" (db (Sample.world [] [])))
    by (left; reflexivity).
  split; [exact Hc|]. split; [exact Hq|]. split; [reflexivity|].
  split; [reflexivity|].
  exact (proj2 (@available_subdomain_can_be_created "bob"
                  (JsObj [("name", JsStr "Shop"); ("subdomain", JsStr "shop");
                          ("sourceType", JsStr "zip")])
                  (InsertApplication.mk "bob" "Shop" "shop" Absent "zip" Absent
                     Absent Absent None Absent Absent Absent)
                  (Sample.world [] []) Hc Hq eq_refl eq_refl)).
Defined.

(** X17: what the analytics route gives the owner who asks under an id in
    the range of the key: every recorded visit of the application, each
    once, newest first, and the same list whatever [days] says, since the
    storage call computes the cut-off date and then filters on the
    application alone. *)
Theorem analytics_lists_every_visit sub id n w a :
  parseInt id = Some n ->
  fits_integer n = true ->
  calm 2 (faults w) ->
  select_application n (db w) = Some a ->
  Application.userId a = sub ->
  exists rows,
    (forall days,
       fst (get_analytics sub id days w)
       = Ok (mkResponse 200 (AnalyticsJson rows)))
    /\ Permutation rows
         (filter (fun e => Analytics.applicationId e =? n) (analytics (db w)))
    /\ Sorted (newest_first Analytics.visitedAt) rows.
Proof.
  destruct w as [d c fs nt tr sp]. cbn [faults db].
  intros Hp Hn (H1 & H2 & _) Ha Hu.
  exists (order_by_desc Analytics.visitedAt
            (filter (fun e => Analytics.applicationId e =? n) (analytics d))).
  split; [|split; [apply order_by_desc_perm|apply order_by_desc_sorted]].
  intros days.
  unfold get_analytics. rewrite Hp. run_read. rewrite H1, Hn. cbv beta iota.
  rewrite Ha. cbv beta iota. rewrite Hu, differs_same. cbv beta iota.
  rewrite H2, ?Hn. reflexivity.
Qed.

Lemma analytics_lists_every_visit_witness :
  let w := Sample.world [] [] in
  parseInt "1" = Some 1
  /\ fits_integer 1 = true
  /\ calm 2 (faults w)
  /\ select_application 1 (db w) = Some Sample.demo
  /\ Application.userId Sample.demo = "alice"
  /\ exists rows,
       fst (get_analytics "alice" "1" (Some "7") w)
       = Ok (mkResponse 200 (AnalyticsJson rows))
       /\ fst (get_analytics "alice" "1" None w)
          = Ok (mkResponse 200 (AnalyticsJson rows))
       /\ List.length rows = 2%nat.
Proof.
  cbv zeta.
  assert (Hc : calm 2 (faults (Sample.world [] []))) by (cbn; tauto).
  split; [reflexivity|]. split; [reflexivity|]. split; [exact Hc|].
  split; [reflexivity|]. split; [reflexivity|].
  destruct (@analytics_lists_every_visit "alice" "1" 1 (Sample.world [] [])
              Sample.demo eq_refl eq_refl Hc eq_refl eq_refl) as (rows & Hr & Hp & _).
  exists rows. split; [exact (Hr (Some "7"))|]. split; [exact (Hr None)|].
  exact (Permutation_length Hp).
Defined.

Lemma desc_le_trans a b c :
  desc_le a b = true -> desc_le b c = true -> desc_le a c = true.
Proof.
  destruct a as [x|], b as [y|], c as [z|]; cbn; try congruence.
  rewrite !Z.leb_le. lia.
Qed.

Lemma StronglySorted_app {A} (R : A -> A -> Prop) (l1 l2 : list A) :
  StronglySorted R (l1 ++ l2) ->
  StronglySorted R l1 /\ (forall x y, In x l1 -> In y l2 -> R x y).
Proof.
  induction l1 as [|a l1 IH]; cbn.
  - intros _. split; [constructor|intros x y []].
  - intros H. inversion H as [|? ? Hs Hf]; subst.
    destruct (IH Hs) as [Hs1 Hr]. split.
    + constructor; [exact Hs1|].
      apply Forall_forall. intros x Hx.
      rewrite Forall_forall in Hf. apply Hf, in_or_app. now left.
    + intros x y [<-|Hx] Hy.
      * rewrite Forall_forall in Hf. apply Hf, in_or_app. now right.
      * now apply Hr.
Qed.

Lemma order_by_desc_strongly {A} (key : A -> option Timestamp) (l : list A) :
  StronglySorted (newest_first key) (order_by_desc key l).
Proof.
  apply Sorted_StronglySorted; [|apply order_by_desc_sorted].
  intros x y z. unfold newest_first. apply desc_le_trans.
Qed.

(** X18: the listing of a caller's conversations: at most fifty rows, all of
    them the caller's, newest first, and no conversation that is left out
    is newer than one that is listed; with fifty or fewer, all of them. *)
Theorem conversations_listing sub w :
  let r := get_conversations sub w in
  let mine := filter (fun c => str_eqb (GroqConversation.userId c) sub)
                (groqConversations (db w)) in
  match head_fault (faults w) with
  | Some _ => fst r = Ok (mkReply 500 (ErrorBody "Failed to fetch conversations"))
  | None =>
      exists rows,
        fst r = Ok (mkReply 200 (ConversationsBody rows))
        /\ (List.length rows <= 50)%nat
        /\ (forall c, In c rows -> In c mine)
        /\ Sorted (newest_first GroqConversation.createdAt) rows
        /\ (forall c c', In c rows -> In c' mine -> ~ In c' rows ->
                         newest_first GroqConversation.createdAt c c')
        /\ ((List.length mine <= 50)%nat -> Permutation rows mine)
  end.
Proof.
  destruct w as [d c fs nt tr sp]. cbn [faults db]. cbv zeta.
  unfold get_conversations. run_read.
  destruct (head_fault fs); cbv beta iota; [reflexivity|].
  change (50 <? 0) with false. cbv beta iota.
  change (Z.to_nat 50) with 50%nat.
  set (mine := filter (fun c => str_eqb (GroqConversation.userId c) sub)
                 (groqConversations d)).
  set (sorted := order_by_desc GroqConversation.createdAt mine).
  assert (Hperm : Permutation sorted mine) by apply order_by_desc_perm.
  assert (Hsplit : (firstn 50 sorted ++ skipn 50 sorted)%list = sorted)
    by apply firstn_skipn.
  pose proof (order_by_desc_strongly GroqConversation.createdAt mine) as Hs.
  fold sorted in Hs. rewrite <- Hsplit in Hs.
  apply StronglySorted_app in Hs. destruct Hs as [Hs1 Hcross].
  exists (firstn 50 sorted). split; [reflexivity|].
  split; [apply firstn_le_length|]. split; [|split; [|split]].
  - intros x Hx. apply (Permutation_in _ Hperm).
    rewrite <- Hsplit. apply in_or_app. now left.
  - now apply StronglySorted_Sorted.
  - intros x y Hx Hy Hn. apply Hcross; [exact Hx|].
    apply (Permutation_in _ (Permutation_sym Hperm)) in Hy.
    rewrite <- Hsplit in Hy. apply in_app_or in Hy. tauto.
  - intros Hlen. rewrite firstn_all2; [exact Hperm|].
    now rewrite (Permutation_length Hperm).
Qed.

(* ================================================================== *)
(** ** Chat requests that are refused, and the public route *)

(** X19: the public chat route never uses the database: the tables, the
    fault schedule, the clock and the detached tasks are as before, whatever
    the body is. It always answers, and it sends the upstream service one
    request, for the text of [message], exactly when [message] is a
    non-empty string; otherwise it sends none. *)
Theorem public_chat_uses_no_database body w :
  let r := post_public_chat body w in
  db (snd r) = db w
  /\ faults (snd r) = faults w
  /\ clock (snd r) = clock w
  /\ spawned (snd r) = spawned w
  /\ (exists resp, fst r = Ok resp)
  /\ match member body "message" with
     | JsStr (String ch s) =>
         nullish body = false
         /\ trace (snd r)
            = (trace w ++ [EvFetch (public_chat_request (String ch s))])%list
         /\ net (snd r) = tl (net w)
     | _ => trace (snd r) = trace w /\ net (snd r) = net w
     end.
Proof.
  destruct w as [d c fs nt tr sp]. cbn [db faults clock spawned trace net].
  cbv zeta. unfold post_public_chat.
  destruct (nullish body) eqn:Hb.
  - assert (Hm : member body "message" = JsUndefined)
      by (destruct body; try discriminate Hb; reflexivity).
    rewrite Hm. unfold get_member. rewrite Hb.
    cbv beta iota zeta delta [bind ret throw try_catch respond console_error
                              fst snd db faults clock spawned trace net].
    repeat split. eexists. reflexivity.
  - rewrite try_bind, (@get_member_run World body "message" _ Hb).
    cbv beta iota.
    destruct (member body "message") as [| |b|n|[|ch s]|xs|o];
      cbn [truthy str_empty negb is_string orb text_of];
      try (unfold respond; rewrite try_ret; cbn [fst snd db faults clock
             spawned trace net]; repeat split; eexists; reflexivity);
      try (destruct b; cbn [negb orb]; unfold respond; rewrite try_ret;
           cbn [fst snd db faults clock spawned trace net];
           repeat split; eexists; reflexivity);
      try (destruct (negb (n =? 0)); cbn [negb orb]; unfold respond;
           rewrite try_ret; cbn [fst snd db faults clock spawned trace net];
           repeat split; eexists; reflexivity).
    rewrite try_bind, public_reply_run. cbv beta iota.
    unfold respond. rewrite try_ret.
    cbn [fst snd db faults clock spawned trace net].
    repeat split. eexists. reflexivity.
Qed.

(** X20: the authenticated chat route wants both [message] and [response]
    in the body as strings, though it never reads the [response] it is
    given: a body without one of them is answered 400, and then no request
    goes upstream and nothing is stored. *)
Theorem invalid_chat_is_refused sub body w :
  (forall s, lookup_field "message" (spread body) <> JsStr s)
  \/ (forall s, lookup_field "response" (spread body) <> JsStr s) ->
  exists m, post_chat sub body w = (Ok (mkResponse 400 (Message m)), w).
Proof.
  intros H. destruct (conversation_needs_both body sub H) as [m Hm].
  exists m. unfold post_chat. rewrite Hm.
  unfold respond. now rewrite try_ret.
Qed.

Lemma invalid_chat_is_refused_witness :
  let body := JsObj [("message", JsStr "How do I deploy?")] in
  (forall s, lookup_field "response" (spread body) <> JsStr s)
  /\ exists m,
       post_chat "alice" body (Sample.world [] [])
       = (Ok (mkResponse 400 (Message m)), Sample.world [] []).
Proof.
  cbv zeta.
  assert (H : forall s,
             lookup_field "response"
               (spread (JsObj [("message", JsStr "How do I deploy?")]))
             <> JsStr s) by (intros s; discriminate).
  split; [exact H|].
  exact (@invalid_chat_is_refused "alice"
           (JsObj [("message", JsStr "How do I deploy?")])
           (Sample.world [] []) (or_intror H)).
Defined.

(* ================================================================== *)
(** ** Recording visits *)




(** X22: the tracking route records a visit only for an application whose
    owner is the empty string: a 200 means such an application has the
    subdomain, and that one row was added for it, with country and city
    "Unknown"; every other answer leaves the tables and the trace as they
    were. *)
Theorem track_records_only_for_ownerless subdomain body ip userAgent w :
  let r := post_track subdomain body ip userAgent w in
  (fst r = Ok (mkResponse 200 SuccessJson) ->
   exists a row,
     In a (applications (db w))
     /\ Application.userId a = ""
     /\ Application.subdomain a = subdomain
     /\ db (snd r) = add_analytics row (db w)
     /\ Analytics.applicationId row = Application.id a
     /\ Analytics.country row = Some "Unknown"
     /\ Analytics.city row = Some "Unknown"
     /\ trace (snd r) = (trace w ++ [EvInsertAnalytics row])%list)
  /\ (fst r <> Ok (mkResponse 200 SuccessJson) ->
      db (snd r) = db w /\ trace (snd r) = trace w).
Proof.
  destruct w as [d c fs nt tr sp]. cbn [db trace]. cbv zeta.
  unfold post_track, get_member. destruct (nullish body); run_handler.
  { split; [intros H; discriminate H|intros _; split; reflexivity]. }
  destruct (head_fault fs); cbv beta iota.
  { split; [intros H; discriminate H|intros _; split; reflexivity]. }
  fold (owned_by "" d).
  destruct (find _ _) as [a|] eqn:F; cbv beta iota.
  2:{ split; [intros H; discriminate H|intros _; split; reflexivity]. }
  apply find_some in F. destruct F as [Hin Hs].
  apply (Permutation_in _ (order_by_desc_perm _ _)) in Hin.
  apply filter_In in Hin. destruct Hin as [Hin Ho].
  apply String.eqb_eq in Hs. apply String.eqb_eq in Ho.
  cbn [InsertAnalytics.applicationId].
  destruct (head_fault (tl fs)); cbv beta iota.
  { split; [intros H; discriminate H|intros _; split; reflexivity]. }
  assert (He : storage.application_exists (Application.id a) d = true).
  { unfold storage.application_exists. apply existsb_exists.
    exists a. split; [exact Hin|apply Z.eqb_refl]. }
  rewrite He. cbn [negb]. cbv beta iota.
  split; [|intros H; exfalso; apply H; reflexivity].
  intros _. exists a. eexists. split; [exact Hin|]. split; [exact Ho|].
  split; [exact Hs|]. split; [reflexivity|]. repeat split.
Qed.

Lemma track_records_only_for_ownerless_witness :
  let site := Application.mk 1 "" "Site" "site" None "zip" None None (Some "dist")
                "live" None (Some 0) None (Some 10) (Some 10) in
  let w := mkWorld (mkDb [User.mk "" None None None None None (Some 0) (Some 0)]
                      [site] [] [] [] 2 1 1 1) Sample.start [] [] [] [] in
  let r := post_track "site" (JsObj []) None None w in
  fst r = Ok (mkResponse 200 SuccessJson)
  /\ exists row, db (snd r) = add_analytics row (db w)
                 /\ Analytics.applicationId row = 1.
Proof.
  cbv zeta. split; [reflexivity|].
  destruct (proj1 (@track_records_only_for_ownerless "site" (JsObj []) None None
                     (mkWorld
                        (mkDb [User.mk "" None None None None None (Some 0) (Some 0)]
                           [Application.mk 1 "" "Site" "site" None "zip" None None
                              (Some "dist") "live" None (Some 0) None (Some 10)
                              (Some 10)] [] [] [] 2 1 1 1)
                        Sample.start [] [] [] [])) eq_refl)
    as (a & row & [Ha|[]] & _ & _ & Hd & Hr & _).
  exists row. split; [exact Hd|]. rewrite Hr, <- Ha. reflexivity.
Defined.

(* ================================================================== *)
(** ** Registration *)

(** X23: registration never succeeds. The route calls a method the storage
    gateway does not have, so every request, whatever its body, is answered
    500 "Failed to register user", and nothing is stored. *)
Theorem registration_always_fails body w :
  post_register body w
  = (Ok (mkJsonReply 500 (message_body "Failed to register user")), w).
Proof.
  unfold post_register, get_member, storage_createUser.
  destruct (nullish body); reflexivity.
Qed.

(* ================================================================== *)
(** ** The admin session *)

Lemma serve_admin_flag q s :
  isAdmin (snd (serve_admin q s))
  = if good_login q then JsBool true
    else match q with Logout => JsBool false | _ => isAdmin s end.
Proof.
  destruct q as [body| | | |]; cbn [serve_admin good_login].
  - unfold post_admin_login, get_member.
    destruct (nullish body); cbn [negb andb]; [reflexivity|].
    cbv beta iota zeta delta [bind ret throw try_catch modify send fst snd].
    destruct (is_text (member body "username") "admin"
              && is_text (member body "password") "seskrow2024"); reflexivity.
  - unfold get_admin_verify. cbv beta iota zeta delta [bind get send ret fst snd].
    destruct (truthy (isAdmin s)); reflexivity.
  - unfold get_admin_users. cbv beta iota zeta delta [bind get send ret fst snd].
    destruct (truthy (isAdmin s)); reflexivity.
  - unfold get_admin_analytics. cbv beta iota zeta delta [bind get send ret fst snd].
    destruct (truthy (isAdmin s)); reflexivity.
  - reflexivity.
Qed.

Lemma serve_all_flag qs s :
  isAdmin (serve_all qs s) = flag_after qs (isAdmin s).
Proof.
  revert s. induction qs as [|q qs IH]; intros s; cbn [serve_all flag_after];
    [reflexivity|].
  now rewrite IH, serve_admin_flag.
Qed.

(** The requests behind the guard. *)
Lemma guarded_reply q s :
  In q [Verify; ListUsers; ReadAnalytics] ->
  fst (serve_admin q s)
  = if truthy (isAdmin s)
    then Ok (mkJsonReply 200
               match q with
               | ListUsers => mock_users
               | ReadAnalytics => mock_analytics
               | _ => success_body
               end)
    else Ok (mkJsonReply 401 (message_body "Unauthorized")).
Proof.
  intros [<-|[<-|[<-|[]]]]; cbn [serve_admin];
    unfold get_admin_verify, get_admin_users, get_admin_analytics;
    cbv beta iota zeta delta [bind get send ret fst snd];
    destruct (truthy (isAdmin s)); reflexivity.
Qed.

(** X24: what a session is allowed depends only on the last accepted login
    or logout in it. After any requests [qs], each of the three guarded
    routes answers 200 (with its data) when [flag_after qs] is truthy, and
    401 "Unauthorized" otherwise. *)
Theorem admin_guard qs s q :
  In q [Verify; ListUsers; ReadAnalytics] ->
  fst (serve_admin q (serve_all qs s))
  = if truthy (flag_after qs (isAdmin s))
    then Ok (mkJsonReply 200
               match q with
               | ListUsers => mock_users
               | ReadAnalytics => mock_analytics
               | _ => success_body
               end)
    else Ok (mkJsonReply 401 (message_body "Unauthorized")).
Proof.
  intros Hq. rewrite (guarded_reply _ Hq). now rewrite serve_all_flag.
Qed.

Lemma admin_guard_witness :
  let creds := JsObj [("username", JsStr "admin"); ("password", JsStr "seskrow2024")] in
  In ListUsers [Verify; ListUsers; ReadAnalytics]
  /\ fst (serve_admin ListUsers
            (serve_all [Login creds; Verify] (mkSession JsUndefined)))
     = Ok (mkJsonReply 200 mock_users)
  /\ fst (serve_admin ListUsers
            (serve_all [Login creds; Logout] (mkSession JsUndefined)))
     = Ok (mkJsonReply 401 (message_body "Unauthorized")).
Proof.
  cbv zeta.
  assert (Hq : In ListUsers [Verify; ListUsers; ReadAnalytics])
    by (right; left; reflexivity).
  split; [exact Hq|]. split.
  - exact (@admin_guard
             [Login (JsObj [("username", JsStr "admin");
                            ("password", JsStr "seskrow2024")]); Verify]
             (mkSession JsUndefined) ListUsers Hq).
  - exact (@admin_guard
             [Login (JsObj [("username", JsStr "admin");
                            ("password", JsStr "seskrow2024")]); Logout]
             (mkSession JsUndefined) ListUsers Hq).
Defined.

Lemma flag_after_no_login qs v :
  forallb (fun q => negb (good_login q)) qs = true ->
  truthy v = false ->
  truthy (flag_after qs v) = false.
Proof.
  revert v. induction qs as [|q qs IH]; intros v Hq Hv; cbn [flag_after];
    [exact Hv|].
  cbn [forallb] in Hq. apply andb_true_iff in Hq. destruct Hq as [Hg Hq].
  apply negb_true_iff in Hg. rewrite Hg. apply IH; [exact Hq|].
  destruct q; try exact Hv. reflexivity.
Qed.

(** X25: nothing but the accepted login opens the guard. In a session that
    starts without the flag and holds no login with the two expected
    strings, every guarded request is answered 401, whatever else was
    requested before it; and a login with other credentials is itself
    answered 401 or, for a missing body, 500. *)
Theorem admin_needs_login qs s q :
  truthy (isAdmin s) = false ->
  forallb (fun q => negb (good_login q)) qs = true ->
  (In q [Verify; ListUsers; ReadAnalytics] ->
   fst (serve_admin q (serve_all qs s))
   = Ok (mkJsonReply 401 (message_body "Unauthorized")))
  /\ (forall body,
        good_login (Login body) = false ->
        fst (serve_admin (Login body) (serve_all qs s))
        = Ok (mkJsonReply (if nullish body then 500 else 401)
                (message_body (if nullish body then "Login failed"
                               else "Invalid credentials")))).
Proof.
  intros Hs Hqs. split.
  - intros Hq. rewrite (guarded_reply _ Hq), serve_all_flag.
    now rewrite (flag_after_no_login _ _ Hqs Hs).
  - intros body Hb. cbn [serve_admin good_login] in *.
    unfold post_admin_login, get_member.
    destruct (nullish body); [reflexivity|]. cbn [negb andb] in Hb.
    cbv beta iota zeta delta [bind ret throw try_catch modify send fst snd].
    now rewrite Hb.
Qed.

Lemma admin_needs_login_witness :
  let guess := JsObj [("username", JsStr "admin"); ("password", JsStr "admin")] in
  let s := mkSession JsUndefined in
  truthy (isAdmin s) = false
  /\ forallb (fun q => negb (good_login q)) [Login guess; Verify; Logout] = true
  /\ fst (serve_admin ReadAnalytics (serve_all [Login guess; Verify; Logout] s))
     = Ok (mkJsonReply 401 (message_body "Unauthorized")).
Proof.
  cbv zeta. split; [reflexivity|]. split; [reflexivity|].
  exact (proj1 (@admin_needs_login
                  [Login (JsObj [("username", JsStr "admin");
                                 ("password", JsStr "admin")]); Verify; Logout]
                  (mkSession JsUndefined) ReadAnalytics eq_refl eq_refl)
           (or_intror (or_intror (or_introl eq_refl)))).
Defined.

(* ================================================================== *)
(** ** Users *)

Lemma select_user_none k d :
  select_user k d = None -> forall u, In u (users d) -> User.id u <> k.
Proof.
  unfold select_user. induction (users d) as [|x rows IH]; cbn; [intros _ u []|].
  destruct (str_eqb (User.id x) k) eqn:E; cbn; [discriminate|].
  intros H u [<-|Hu]; [now apply String.eqb_neq in E|now apply IH].
Qed.

Lemma select_user_some k d old :
  select_user k d = Some old -> In old (users d) /\ User.id old = k.
Proof.
  unfold select_user. induction (users d) as [|x rows IH]; cbn; [discriminate|].
  destruct (str_eqb (User.id x) k) eqn:E; cbn.
  - intros [= <-]. apply String.eqb_eq in E. auto.
  - intros H. destruct (IH H). auto.
Qed.

Lemma NoDup_map_same {A B} (f : A -> B) (l : list A) x y :
  NoDup (map f l) -> In x l -> In y l -> f x = f y -> x = y.
Proof.
  induction l as [|a l IH]; cbn; [intros _ []|].
  intros Hnd Hx Hy E. inversion Hnd as [|? ? Hn Hl]; subst.
  destruct Hx as [<-|Hx], Hy as [<-|Hy]; auto.
  - exfalso. apply Hn. rewrite E. now apply in_map.
  - exfalso. apply Hn. rewrite <- E. now apply in_map.
Qed.

Lemma same_text_sym a b : same_text a b = same_text b a.
Proof.
  destruct a as [x|], b as [y|]; cbn; try reflexivity.
  unfold str_eqb. apply String.eqb_sym.
Qed.

Lemma email_not_taken k e d :
  storage_users.email_taken k e d = false ->
  forall v, In v (users d) -> User.id v <> k -> same_text (User.email v) e = false.
Proof.
  unfold storage_users.email_taken. intros H v Hv Hk.
  destruct (same_text (User.email v) e) eqn:E; [|reflexivity].
  assert (T : existsb (fun u => negb (str_eqb (User.id u) k)
                                && same_text (User.email u) e) (users d) = true).
  { apply existsb_exists. exists v. split; [exact Hv|].
    rewrite E. apply String.eqb_neq in Hk. unfold str_eqb. now rewrite Hk. }
  congruence.
Qed.

Lemma select_user_updated k t u d :
  UpsertUser.id u = k ->
  select_user k
    (set_users (map (fun x => if str_eqb (User.id x) k
                              then storage_users.updated t u x else x)
                  (users d)) d)
  = option_map (storage_users.updated t u) (select_user k d).
Proof.
  intros Hk. unfold select_user. cbn [set_users users].
  induction (users d) as [|x rows IH]; cbn [map filter]; [reflexivity|].
  destruct (str_eqb (User.id x) k) eqn:E.
  - cbn [storage_users.updated User.id]. rewrite Hk.
    unfold str_eqb at 1. rewrite String.eqb_refl. reflexivity.
  - rewrite E. exact IH.
Qed.

Lemma select_user_other k k' t u d :
  k' <> k ->
  UpsertUser.id u = k ->
  select_user k'
    (set_users (map (fun x => if str_eqb (User.id x) k
                              then storage_users.updated t u x else x)
                  (users d)) d)
  = select_user k' d.
Proof.
  intros Hne Hk. unfold select_user. cbn [set_users users].
  induction (users d) as [|x rows IH]; cbn [map filter]; [reflexivity|].
  destruct (str_eqb (User.id x) k) eqn:E.
  - cbn [storage_users.updated User.id]. rewrite Hk.
    apply String.eqb_eq in E.
    assert (E1 : str_eqb k k' = false) by (apply String.eqb_neq; congruence).
    assert (E2 : str_eqb (User.id x) k' = false)
      by (apply String.eqb_neq; congruence).
    rewrite E1, E2. exact IH.
  - destruct (str_eqb (User.id x) k'); [reflexivity|exact IH].
Qed.

Lemma select_user_appended k row d :
  select_user k (set_users (users d ++ [row]) d)
  = match select_user k d with
    | Some u => Some u
    | None => if str_eqb (User.id row) k then Some row else None
    end.
Proof.
  unfold select_user. cbn [set_users users]. rewrite filter_app. cbn [filter].
  destruct (filter (fun u => str_eqb (User.id u) k) (users d)); cbn;
    [|reflexivity].
  destruct (str_eqb (User.id row) k); reflexivity.
Qed.

(** X26: signing a user in and reading the user back. With the database
    answering, [upsertUser] returns a row unless another user holds the
    email, and then it is refused and changes nothing. The row it returns
    has the given id and is what [getUser] then finds; no other user
    changes and no other table is touched. A user who was there keeps
    [createdAt] (unless one is given) and gets the time of the call as
    [updatedAt]; a new user is not premium unless the data says so. *)
Theorem upsert_round_trip u w :
  calm 2 (faults w) ->
  let r := storage_users.upsertUser u w in
  let prior := select_user (UpsertUser.id u) (db w) in
  let row := match prior with
             | Some old => storage_users.updated (clock w) u old
             | None => storage_users.inserted (clock w) u
             end in
  (storage_users.email_taken (UpsertUser.id u) (User.email row) (db w) = false ->
   fst r = Ok row
   /\ User.id row = UpsertUser.id u
   /\ fst (storage.getUser (UpsertUser.id u) (snd r)) = Ok (Some row)
   /\ (forall k, k <> UpsertUser.id u ->
                 select_user k (db (snd r)) = select_user k (db w))
   /\ match prior with
      | Some old =>
          User.updatedAt row = Some (clock w)
          /\ (UpsertUser.createdAt u = Absent ->
              User.createdAt row = User.createdAt old)
      | None =>
          (UpsertUser.isPremium u = Absent -> User.isPremium row = Some false)
          /\ (UpsertUser.createdAt u = Absent ->
              User.createdAt row = Some (clock w))
      end
   /\ applications (db (snd r)) = applications (db w)
   /\ deployments (db (snd r)) = deployments (db w)
   /\ analytics (db (snd r)) = analytics (db w)
   /\ groqConversations (db (snd r)) = groqConversations (db w)
   /\ trace (snd r) = trace w)
  /\ (storage_users.email_taken (UpsertUser.id u) (User.email row) (db w) = true ->
      fst r
      = Throw "duplicate key value violates unique constraint users_email_unique"
      /\ db (snd r) = db w).
Proof.
  destruct w as [d c fs nt tr sp]. cbn [faults db clock trace].
  intros (H1 & H2 & _). cbv zeta.
  unfold storage_users.upsertUser, storage.getUser.
  cbv beta iota zeta delta [bind ret throw get modify now query with_db
                            with_faults fst snd db clock faults net trace spawned].
  rewrite H1. cbv beta iota.
  destruct (select_user (UpsertUser.id u) d) as [old|] eqn:Hsel; cbv beta iota;
    destruct (storage_users.email_taken _ _ _); cbv beta iota;
    (split; [intros E; try discriminate E|intros E; try discriminate E]);
    try (split; reflexivity); rewrite H2; cbv beta iota.
  - split; [reflexivity|]. split; [reflexivity|]. split.
    + rewrite select_user_updated by reflexivity. now rewrite Hsel.
    + split; [intros k Hk; now apply select_user_other|].
      split; [|repeat split].
      split; [reflexivity|]. intros E'. cbn. now rewrite E'.
  - split; [reflexivity|]. split; [reflexivity|]. split.
    + rewrite select_user_appended, Hsel. cbn [storage_users.inserted User.id].
      unfold str_eqb. now rewrite String.eqb_refl.
    + split.
      * intros k Hk. rewrite select_user_appended.
        destruct (select_user k d); [reflexivity|].
        cbn [storage_users.inserted User.id].
        assert (E' : str_eqb (UpsertUser.id u) k = false)
          by (apply String.eqb_neq; congruence).
        now rewrite E'.
      * split; [|repeat split].
        split; intros E'; cbn; now rewrite E'.
Qed.

Lemma upsert_round_trip_witness :
  let u := UpsertUser.mk "alice" (Val "alice@example.org") (Val "Alice") Absent
             Absent Absent Absent Absent in
  let v := UpsertUser.mk "carol" (Val "alice@example.com") Absent Absent Absent
             Absent Absent Absent in
  let w := Sample.world [] [] in
  calm 2 (faults w)
  /\ (exists row,
        fst (storage_users.upsertUser u w) = Ok row
        /\ fst (storage.getUser "alice" (snd (storage_users.upsertUser u w)))
           = Ok (Some row)
        /\ User.createdAt row = Some 0)
  /\ db (snd (storage_users.upsertUser v w)) = db w.
Proof.
  cbv zeta.
  assert (Hc : calm 2 (faults (Sample.world [] []))) by (cbn; tauto).
  split; [exact Hc|]. split.
  - destruct (proj1 (@upsert_round_trip
                       (UpsertUser.mk "alice" (Val "alice@example.org") (Val "Alice")
                          Absent Absent Absent Absent Absent)
                       (Sample.world [] []) Hc) eq_refl)
      as (Hr & _ & Hg & _).
    eexists. split; [exact Hr|]. split; [exact Hg|reflexivity].
  - exact (proj2 (proj2 (@upsert_round_trip
                           (UpsertUser.mk "carol" (Val "alice@example.com") Absent
                              Absent Absent Absent Absent Absent)
                           (Sample.world [] []) Hc) eq_refl)).
Defined.

Lemma updated_ids t u k l :
  UpsertUser.id u = k ->
  map User.id
    (map (fun x => if str_eqb (User.id x) k
                   then storage_users.updated t u x else x) l)
  = map User.id l.
Proof.
  intros Hk. rewrite map_map. apply map_ext. intros x.
  destruct (str_eqb (User.id x) k) eqn:E; [|reflexivity].
  apply String.eqb_eq in E. cbn. congruence.
Qed.

(** X27: [upsertUser] keeps the users table well formed: when no two rows
    share an id or an email before the call, none do after it, whether the
    call inserts, updates or is refused. *)
Theorem upsert_keeps_users_unique u w :
  users_unique (db w) ->
  users_unique (db (snd (storage_users.upsertUser u w))).
Proof.
  destruct w as [d c fs nt tr sp]. cbn [db]. intros [Hnd Hem].
  unfold storage_users.upsertUser.
  cbv beta iota zeta delta [bind ret throw get modify now query with_db
                            with_faults fst snd db clock faults net trace spawned].
  destruct (head_fault fs); cbv beta iota; [split; assumption|].
  destruct (select_user (UpsertUser.id u) d) as [old|] eqn:Hsel; cbv beta iota;
    destruct (storage_users.email_taken _ _ _) eqn:Het; cbv beta iota;
    try (split; assumption); cbn [snd db].
  - destruct (@select_user_some _ _ _ Hsel) as [Hold Hid].
    pose proof (@email_not_taken _ _ _ Het) as Hfree.
    unfold users_unique. cbn [set_users users]. split.
    + now rewrite updated_ids.
    + intros x' y' Hx Hy Hne.
      apply in_map_iff in Hx. destruct Hx as (x & <- & Hx).
      apply in_map_iff in Hy. destruct Hy as (y & <- & Hy).
      destruct (str_eqb (User.id x) (UpsertUser.id u)) eqn:Ex,
               (str_eqb (User.id y) (UpsertUser.id u)) eqn:Ey.
      * exfalso. apply Hne. reflexivity.
      * apply String.eqb_eq in Ex. apply String.eqb_neq in Ey.
        assert (x = old) as -> by (apply (@NoDup_map_same _ _ User.id _ _ _ Hnd Hx Hold); congruence).
        rewrite same_text_sym. now apply Hfree.
      * apply String.eqb_neq in Ex. apply String.eqb_eq in Ey.
        assert (y = old) as -> by (apply (@NoDup_map_same _ _ User.id _ _ _ Hnd Hy Hold); congruence).
        now apply Hfree.
      * now apply Hem.
  - pose proof (@select_user_none _ _ Hsel) as Hnew.
    pose proof (@email_not_taken _ _ _ Het) as Hfree.
    unfold users_unique. cbn [set_users users]. split.
    + rewrite map_app. apply NoDup_snoc; [exact Hnd|].
      cbn [map storage_users.inserted User.id]. intros Hin.
      apply in_map_iff in Hin. destruct Hin as (x & Ex & Hx).
      exact (Hnew x Hx Ex).
    + intros x y Hx Hy Hne.
      apply in_app_or in Hx. apply in_app_or in Hy.
      destruct Hx as [Hx|[<-|[]]], Hy as [Hy|[<-|[]]].
      * now apply Hem.
      * apply Hfree; [exact Hx|]. exact Hne.
      * rewrite same_text_sym. apply Hfree; [exact Hy|].
        intros E. apply Hne. symmetry. exact E.
      * exfalso. now apply Hne.
Qed.

Lemma upsert_keeps_users_unique_witness :
  let w := Sample.world [] [] in
  users_unique (db w)
  /\ users_unique
       (db (snd (storage_users.upsertUser
                   (UpsertUser.mk "carol" (Val "alice@example.com") Absent Absent
                      Absent Absent Absent Absent) w))).
Proof.
  cbv zeta.
  assert (H : users_unique (db (Sample.world [] []))).
  { split.
    - cbn. repeat constructor; cbn; intuition discriminate.
    - intros x y [<-|[<-|[]]] [<-|[<-|[]]] Hne; try reflexivity;
        exfalso; now apply Hne. }
  split; [exact H|].
  exact (@upsert_keeps_users_unique
           (UpsertUser.mk "carol" (Val "alice@example.com") Absent Absent
              Absent Absent Absent Absent) (Sample.world [] []) H).
Defined.

(* ================================================================== *)
(** ** Every action is one step *)

Lemma user_exists_appended k row d :
  storage.user_exists k d = true ->
  existsb (fun u => str_eqb (User.id u) k) (users d ++ [row]) = true.
Proof.
  unfold storage.user_exists. intros H. rewrite existsb_app, H. reflexivity.
Qed.

Lemma user_exists_updated k k' t u d :
  UpsertUser.id u = k' ->
  storage.user_exists k d = true ->
  existsb (fun x => str_eqb (User.id x) k)
    (map (fun x => if str_eqb (User.id x) k'
                   then storage_users.updated t u x else x) (users d)) = true.
Proof.
  unfold storage.user_exists. intros Hk H.
  apply existsb_exists in H. destruct H as (x & Hx & E).
  apply existsb_exists.
  exists (if str_eqb (User.id x) k' then storage_users.updated t u x else x).
  split; [apply in_map_iff; now exists x|].
  destruct (str_eqb (User.id x) k') eqn:E'; [|exact E].
  apply String.eqb_eq in E'. cbn. rewrite Hk, <- E'. exact E.
Qed.

Ltac settle_read :=
  try match goal with
      | |- context [parseInt ?id] => destruct (parseInt id)
      end;
  run_read; repeat case_next; cbn [snd db];
  try (destruct (select_application _ _); cbv beta iota;
       repeat case_next; cbn [snd db]).

Lemma after_read_db q sub w : db (after_read q sub w) = db w.
Proof.
  destruct w as [d c fs nt tr sp].
  destruct q; unfold after_read, get_auth_user, get_applications,
    get_conversations, get_application, get_deployments, get_analytics,
    get_check_subdomain; settle_read; reflexivity.
Qed.

Lemma public_chat_db body w : db (snd (post_public_chat body w)) = db w.
Proof.
  destruct w as [d c fs nt tr sp]. unfold post_public_chat.
  destruct (nullish body) eqn:Hb.
  - unfold get_member. rewrite Hb. reflexivity.
  - rewrite try_bind, (@get_member_run World body "message" _ Hb).
    cbv beta iota.
    destruct (negb (truthy (member body "message"))
              || negb (is_string (member body "message"))).
    + unfold respond. now rewrite try_ret.
    + rewrite try_bind, public_reply_run. cbv beta iota.
      unfold respond. now rewrite try_ret.
Qed.

Lemma quota_checked sub d :
  not_premium (select_user sub d)
  && (1 <=? Z.of_nat
        (List.length
           (order_by_desc Application.createdAt
              (filter (fun a => str_eqb (Application.userId a) sub)
                 (applications d))))) = false ->
  within_quota sub d.
Proof.
  intros H. apply andb_false_iff in H. destruct H as [H|H]; [now left|].
  right. rewrite length_order_by_desc in H. fold (owned_by sub d) in H.
  destruct (owned_by sub d); [reflexivity|].
  apply Z.leb_gt in H. cbn [List.length] in H. lia.
Qed.

(** What an action does to the tables, and that only a sign-in touches
    [users]. *)
Ltac same :=
  cbn [snd db]; split; [apply step_none|intros _; reflexivity].

(** A refused insert: the tables as they were, a key used up. *)
Ltac key_used :=
  cbn [snd db]; split;
  [apply step_keys;
   cbn [use_application_key use_deployment_key use_analytics_key
        use_conversation_key users applications deployments analytics
        groqConversations applications_seq deployments_seq];
   first [reflexivity|lia]
  |intros _; reflexivity].

Lemma act_effect a w :
  db_step (db w) (db (act a w))
  /\ (keeps_users a = true -> users (db (act a w)) = users (db w)).
Proof.
  destruct a as [u|sub body|sub id|sub id file| |subdomain body ip ua|sub body
                 |body|q sub]; cbn [act keeps_users].
  - (* SignIn *)
    split; [|intros H; discriminate H].
    destruct w as [d c fs nt tr sp]. unfold storage_users.upsertUser.
    cbv beta iota zeta delta [bind ret throw get modify now query with_db
                              with_faults fst snd db clock faults net trace spawned].
    destruct (head_fault fs); cbv beta iota; [apply step_none|].
    destruct (select_user (UpsertUser.id u) d); cbv beta iota;
      destruct (storage_users.email_taken _ _ _); cbv beta iota;
      try apply step_none; cbn [snd db]; apply step_users; intros k Hk.
    + now apply user_exists_updated.
    + now apply user_exists_appended.
  - (* Create *)
    destruct w as [d c fs nt tr sp]. unfold post_applications. run_handler.
    repeat case_next; try same; try key_used.
    match goal with
    | H : insertApplicationSchema body sub = ParseOk ?data |- _ =>
        pose proof (parsed_application _ _ H) as Hid
    end.
    cbn [snd db]. split; [|intros _; reflexivity].
    apply step_application; cbn [storage.application_row Application.id
                                 Application.subdomain Application.userId];
      [reflexivity|assumption|now apply negb_false_iff|].
    rewrite Hid. apply quota_checked. assumption.
  - (* Delete *)
    destruct w as [d c fs nt tr sp]. unfold delete_application.
    destruct (parseInt id) as [n|]; run_handler.
    2:{ destruct (head_fault fs); same. }
    destruct (head_fault fs); cbv beta iota; [same|].
    destruct (fits_integer n); cbv beta iota; [|same].
    destruct (select_application n d); cbv beta iota; [|same].
    destruct (differs _ _); cbv beta iota; [same|].
    destruct (head_fault (tl fs)); cbv beta iota; [same|].
    destruct (existsb _ _ || existsb _ _) eqn:E; cbv beta iota; [same|].
    cbn [snd db]. split; [|intros _; reflexivity].
    apply step_removed. apply orb_false_iff in E. exact E.
  - (* Deploy *)
    destruct w as [d c fs nt tr sp]. unfold post_deploy.
    destruct (parseInt id) as [n|]; run_handler.
    2:{ destruct (head_fault fs); same. }
    destruct (head_fault fs); cbv beta iota; [same|].
    destruct (fits_integer n) eqn:Hn; cbv beta iota; [|same].
    destruct (select_application n d); cbv beta iota; [|same].
    destruct (differs _ _); cbv beta iota; [same|].
    cbn [InsertDeployment.applicationId InsertDeployment.status].
    destruct (head_fault (tl fs)); cbv beta iota; [same|].
    rewrite Hn. cbv beta iota.
    destruct (storage.application_exists n d) eqn:E; cbn [negb]; cbv beta iota;
      [|key_used].
    cbn [snd db]. split; [|intros _; reflexivity].
    apply step_deployment; [reflexivity|exact E].
  - (* RunDetached *)
    destruct w as [d c fs nt tr sp]. unfold start_detached.
    cbn [spawned db clock faults net trace].
    destruct sp as [|[k a f] rest]; [same|].
    pose proof (pipeline_keeps_rows k a f (mkWorld d c fs nt tr rest)) as P.
    cbv zeta in P. cbn [db] in P.
    destruct P as (P1 & P2 & P3 & P4 & P5 & _ & P7 & P8).
    split; [|intros _; exact P1].
    eapply step_pipeline; eassumption.
  - (* Track *)
    destruct w as [d c fs nt tr sp]. unfold post_track, get_member.
    destruct (nullish body); run_handler; [same|].
    destruct (head_fault fs); cbv beta iota; [same|].
    destruct (find _ _) as [a|]; cbv beta iota; [|same].
    cbn [InsertAnalytics.applicationId].
    destruct (head_fault (tl fs)); cbv beta iota; [same|].
    destruct (storage.application_exists (Application.id a) d) eqn:E;
      cbn [negb]; cbv beta iota; [|key_used].
    cbn [snd db]. split; [|intros _; reflexivity].
    apply step_visit. exact E.
  - (* Chat *)
    destruct w as [d c fs nt tr sp]. unfold post_chat.
    destruct (insertGroqConversationSchema body sub); cbv beta iota.
    2:{ unfold respond. rewrite try_ret. same. }
    rewrite try_bind, chat_reply_run. cbv beta iota. run_chat.
    cbn [InsertGroqConversation.userId InsertGroqConversation.message
         InsertGroqConversation.response].
    destruct (head_fault fs); cbv beta iota; [same|].
    destruct (column_text _); cbv beta iota; [|key_used].
    destruct (storage.user_exists _ d) eqn:E; cbn [negb]; cbv beta iota;
      [|key_used].
    cbn [snd db]. split; [|intros _; reflexivity].
    apply step_conversation. exact E.
  - (* PublicChat *)
    rewrite public_chat_db. same.
  - (* Read *)
    rewrite after_read_db. same.
Qed.

Lemma act_step a w : db_step (db w) (db (act a w)).
Proof. exact (proj1 (act_effect a w)). Qed.

Lemma act_users a w :
  keeps_users a = true -> users (db (act a w)) = users (db w).
Proof. exact (proj2 (act_effect a w)). Qed.

(* ================================================================== *)
(** ** What no sequence of actions breaks *)

Lemma Forall2_map_same {A B} (R : A -> A -> Prop) (f : A -> B) (l l' : list A) :
  (forall a b, R a b -> f b = f a) -> Forall2 R l l' -> map f l' = map f l.
Proof. intros H. induction 1; cbn; [reflexivity|]. f_equal; auto. Qed.

Lemma Forall2_in_left {A} (R : A -> A -> Prop) (l l' : list A) y :
  Forall2 R l l' -> In y l' -> exists x, In x l /\ R x y.
Proof.
  induction 1 as [|a b l l' Hab _ IH]; cbn; [intros []|].
  intros [<-|Hin].
  - exists a. auto.
  - destruct (IH Hin) as (x & Hx & Hr). exists x. auto.
Qed.

Lemma distinct_after_filter {K V} (key : V -> K) (keep : V -> bool) (rows : list V) :
  NoDup (map key rows) -> NoDup (map key (filter keep rows)).
Proof.
  induction rows as [|r rows IH]; cbn [map filter]; [auto|].
  intros H. inversion H as [|? ? Hn Hl]; subst.
  destruct (keep r); cbn [map]; [|auto].
  constructor; [|auto]. intros Hin. apply Hn.
  apply in_map_iff in Hin. destruct Hin as (x & E & Hx).
  apply filter_In in Hx. apply in_map_iff. exists x. tauto.
Qed.

Lemma fresh_key_snoc {A} (key : A -> Z) (l : list A) (row : A) (seq : Z) :
  key row = seq ->
  Forall (fun a => key a < seq) l ->
  NoDup (map key l) ->
  Forall (fun a => key a < seq + 1) (l ++ [row])
  /\ NoDup (map key (l ++ [row])).
Proof.
  intros Hk Hf Hnd. split.
  - apply Forall_app. split.
    + eapply Forall_impl; [|exact Hf]. cbn. intros a Ha. lia.
    + constructor; [lia|constructor].
  - rewrite map_app. apply NoDup_snoc; [exact Hnd|]. cbn [map].
    intros Hin. apply in_map_iff in Hin. destruct Hin as (x & E & Hx).
    rewrite Forall_forall in Hf. specialize (Hf x Hx). lia.
Qed.

Lemma keys_fresh_step d d' : db_step d d' -> keys_fresh d -> keys_fresh d'.
Proof.
  intros Hs (Ha & Hd & Na & Nd).
  destruct Hs as [|d0 Ku Ka Kd Ke Kc La Ld|rows _|row Hid _ _ _|n _|row Hid _
                  |d' k t _ _ _ Sa Sd Fd Fa|row _|row _];
    unfold keys_fresh;
    cbn [set_users add_application set_applications add_deployment
         add_analytics add_conversation applications deployments
         applications_seq deployments_seq];
    try (repeat split; assumption).
  - rewrite Ka, Kd. repeat split; try assumption.
    + eapply Forall_impl; [|exact Ha]. cbn. intros a H. lia.
    + eapply Forall_impl; [|exact Hd]. cbn. intros r H. lia.
  - destruct (fresh_key_snoc Application.id row Hid Ha Na). auto.
  - repeat split; try assumption.
    + apply Forall_forall. intros a Hin. apply filter_In in Hin.
      rewrite Forall_forall in Ha. now apply Ha.
    + now apply distinct_after_filter.
  - destruct (fresh_key_snoc Deployment.id row Hid Hd Nd). auto.
  - rewrite Sa, Sd.
    rewrite (Forall2_map_same Application.id
               (fun a b (H : application_kept t a b) => proj1 H) Fa).
    rewrite (Forall2_map_same Deployment.id
               (fun a b (H : deployment_kept k a b) => proj1 H) Fd).
    repeat split; try assumption.
    + apply Forall_forall. intros y Hy.
      destruct (@Forall2_in_left _ _ _ _ _ Fa Hy) as (x & Hx & Hk).
      rewrite Forall_forall in Ha. rewrite (proj1 Hk). now apply Ha.
    + apply Forall_forall. intros y Hy.
      destruct (@Forall2_in_left _ _ _ _ _ Fd Hy) as (x & Hx & Hk).
      rewrite Forall_forall in Hd. rewrite (proj1 Hk). now apply Hd.
Qed.

Lemma application_exists_ids k d d' :
  map Application.id (applications d') = map Application.id (applications d) ->
  storage.application_exists k d' = storage.application_exists k d.
Proof.
  unfold storage.application_exists. intros E.
  assert (H : forall l, existsb (fun a => Application.id a =? k) l
                        = existsb (fun i => i =? k) (map Application.id l)).
  { induction l as [|x l IH]; cbn; [reflexivity|]. now rewrite IH. }
  now rewrite !H, E.
Qed.

Lemma application_exists_added k row d :
  storage.application_exists k d = true ->
  storage.application_exists k (add_application row d) = true.
Proof.
  unfold storage.application_exists. cbn [add_application applications].
  intros H. now rewrite existsb_app, H.
Qed.

Lemma application_exists_removed k n d :
  k <> n ->
  storage.application_exists k
    (set_applications
       (filter (fun a => negb (Application.id a =? n)) (applications d)) d)
  = storage.application_exists k d.
Proof.
  unfold storage.application_exists. cbn [set_applications applications].
  intros Hk. induction (applications d) as [|x l IH]; cbn; [reflexivity|].
  destruct (Application.id x =? n) eqn:E; cbn.
  - apply Z.eqb_eq in E.
    assert ((Application.id x =? k) = false) as -> by (apply Z.eqb_neq; lia).
    exact IH.
  - now rewrite IH.
Qed.

Lemma not_referenced {A} (key : A -> Z) (n : Z) (l : list A) x :
  existsb (fun r => key r =? n) l = false -> In x l -> key x <> n.
Proof.
  intros H Hx E.
  assert (T : existsb (fun r => key r =? n) l = true).
  { apply existsb_exists. exists x. split; [exact Hx|]. now apply Z.eqb_eq. }
  congruence.
Qed.

Lemma well_referenced_step d d' :
  db_step d d' -> well_referenced d -> well_referenced d'.
Proof.
  intros Hs (Ha & Hd & He & Hc).
  rewrite Forall_forall in Ha, Hd, He, Hc.
  destruct Hs as [|d0 Ku Ka Kd Ke Kc La Ld|rows Hu|row _ _ Hu _|n [Rd Re]|row _ Hx
                  |d' k t Eu Ee Ec _ _ Fd Fa|row Hx|row Hu];
    unfold well_referenced; rewrite !Forall_forall.
  - auto.
  - unfold storage.user_exists, storage.application_exists.
    rewrite Ku, Ka, Kd, Ke, Kc. auto.
  - repeat split; [|exact Hd|exact He|].
    + intros a Hin. apply Hu. now apply Ha.
    + intros c Hin. apply Hu. now apply Hc.
  - cbn [add_application applications deployments analytics groqConversations].
    repeat split.
    + intros a Hin. apply in_app_or in Hin.
      destruct Hin as [Hin|[<-|[]]]; [now apply Ha|exact Hu].
    + intros r Hin. apply application_exists_added. now apply Hd.
    + intros e Hin. apply application_exists_added. now apply He.
    + exact Hc.
  - cbn [set_applications applications deployments analytics groqConversations].
    repeat split.
    + intros a Hin. apply filter_In in Hin. now apply Ha.
    + intros r Hin. rewrite application_exists_removed; [now apply Hd|].
      exact (not_referenced Deployment.applicationId _ _ Rd Hin).
    + intros e Hin. rewrite application_exists_removed; [now apply He|].
      exact (not_referenced Analytics.applicationId _ _ Re Hin).
    + exact Hc.
  - cbn [add_deployment applications deployments analytics groqConversations].
    repeat split; [exact Ha| |exact He|exact Hc].
    intros r Hin. apply in_app_or in Hin.
    destruct Hin as [Hin|[<-|[]]]; [now apply Hd|exact Hx].
  - assert (Ei : forall k0, storage.application_exists k0 d'
                            = storage.application_exists k0 d).
    { intros k0. apply application_exists_ids.
      exact (Forall2_map_same Application.id
               (fun a b (H : application_kept t a b) => proj1 H) Fa). }
    assert (Ex : forall k0, storage.user_exists k0 d' = storage.user_exists k0 d)
      by (intros k0; unfold storage.user_exists; now rewrite Eu).
    rewrite Ee, Ec. repeat split.
    + intros a' Hin. destruct (@Forall2_in_left _ _ _ _ _ Fa Hin) as (a & Hin' & Hk).
      rewrite Ex. destruct Hk as (_ & -> & _). now apply Ha.
    + intros r' Hin. destruct (@Forall2_in_left _ _ _ _ _ Fd Hin) as (r & Hin' & Hk).
      rewrite Ei. destruct Hk as (_ & -> & _). now apply Hd.
    + intros e Hin. rewrite Ei. now apply He.
    + intros c Hin. rewrite Ex. now apply Hc.
  - cbn [add_analytics applications deployments analytics groqConversations].
    repeat split; [exact Ha|exact Hd| |exact Hc].
    intros e Hin. apply in_app_or in Hin.
    destruct Hin as [Hin|[<-|[]]]; [now apply He|exact Hx].
  - cbn [add_conversation applications deployments analytics groqConversations].
    repeat split; [exact Ha|exact Hd|exact He|].
    intros c Hin. apply in_app_or in Hin.
    destruct Hin as [Hin|[<-|[]]]; [now apply Hc|exact Hu].
Qed.

Lemma subdomains_step d d' :
  db_step d d' ->
  NoDup (map Application.subdomain (applications d)) ->
  NoDup (map Application.subdomain (applications d')).
Proof.
  intros Hs Hnd.
  destruct Hs as [|d0 Ku Ka Kd Ke Kc La Ld|rows _|row _ Ht _ _|n _|row _ _
                  |d' k t _ _ _ _ _ _ Fa|row _|row _];
    cbn [set_users add_application set_applications add_deployment
         add_analytics add_conversation applications]; try assumption.
  - rewrite Ka. exact Hnd.
  - rewrite map_app. cbn [map]. apply NoDup_snoc; [exact Hnd|].
    now apply not_taken_not_in.
  - now apply distinct_after_filter.
  - rewrite (Forall2_map_same Application.subdomain
               (fun a b (H : application_kept t a b) =>
                  proj1 (proj2 (proj2 (proj2 H)))) Fa).
    exact Hnd.
Qed.

Lemma consistent_step d d' : db_step d d' -> consistent d -> consistent d'.
Proof.
  intros Hs (Hk & Hr & Hn). split; [|split].
  - exact (keys_fresh_step Hs Hk).
  - exact (well_referenced_step Hs Hr).
  - exact (subdomains_step Hs Hn).
Qed.

(** X28: what the schema promises is never broken. Starting from tables
    where the sequences are ahead of the keys, no key or subdomain is used
    twice and every reference finds its row, the same holds after any
    sequence of sign-ins, creations, deletions, deploys, pipeline runs,
    tracked visits, chats and reads served one after the other, whoever
    makes them, whatever they send and whenever the database or the
    upstream service fails. *)
Theorem consistent_for_ever l w :
  consistent (db w) -> consistent (db (run_all l w)).
Proof.
  revert w. induction l as [|a l IH]; intros w H; [exact H|].
  cbn [run_all fold_left]. apply IH. exact (consistent_step (act_step a w) H).
Qed.

Lemma sample_is_consistent : consistent (db (Sample.world [] [])).
Proof.
  split; [|split].
  - repeat split; cbn; repeat constructor; cbn; try lia; intuition discriminate.
  - repeat split; cbn; repeat constructor.
  - cbn. repeat constructor. intros [].
Qed.

Lemma consistent_for_ever_witness :
  let w := Sample.world [] [] in
  let shop := JsObj [("name", JsStr "Shop"); ("subdomain", JsStr "shop");
                     ("sourceType", JsStr "zip")] in
  consistent (db w)
  /\ consistent
       (db (run_all [Create "bob" shop; Deploy "bob" "2" None; Delete "bob" "2";
                     RunDetached; Track "shop" (JsObj []) None None;
                     Delete "alice" "1"] w)).
Proof.
  cbv zeta. split; [exact sample_is_consistent|].
  exact (@consistent_for_ever
           [Create "bob" (JsObj [("name", JsStr "Shop"); ("subdomain", JsStr "shop");
                                 ("sourceType", JsStr "zip")]);
            Deploy "bob" "2" None; Delete "bob" "2"; RunDetached;
            Track "shop" (JsObj []) None None; Delete "alice" "1"]
           (Sample.world [] []) sample_is_consistent).
Defined.

Lemma select_application_added_other k row d :
  Application.id row <> k ->
  select_application k (add_application row d) = select_application k d.
Proof.
  unfold select_application. cbn [add_application applications]. intros Hk.
  rewrite filter_app. cbn [filter].
  assert ((Application.id row =? k) = false) as -> by now apply Z.eqb_neq.
  now rewrite app_nil_r.
Qed.

Lemma select_application_kept_none t n d d' :
  Forall2 (application_kept t) (applications d) (applications d') ->
  select_application n d = None ->
  select_application n d' = None.
Proof.
  unfold select_application.
  generalize (applications d) (applications d'). intros l l'.
  induction 1 as [|x y l l' Hxy _ IH]; cbn [filter]; [reflexivity|].
  assert (E : Application.id y = Application.id x) by apply Hxy.
  rewrite E. destruct (Application.id x =? n); cbn; [discriminate|exact IH].
Qed.

Lemma same_identity_kept t a a1 a2 :
  same_identity a a1 -> application_kept t a1 a2 -> same_identity a a2.
Proof.
  intros (H1 & H2 & H3 & H4 & H5 & H6 & H7 & H8 & H9 & H10 & H11)
         (K1 & K2 & K3 & K4 & K5 & K6 & K7 & K8 & K9 & K10 & K11 & _).
  repeat split; congruence.
Qed.

Lemma identity_step n a d d' :
  db_step d d' ->
  n < applications_seq d ->
  (forall a1, select_application n d = Some a1 -> same_identity a a1) ->
  n < applications_seq d'
  /\ (forall a2, select_application n d' = Some a2 -> same_identity a a2).
Proof.
  intros Hs Hn Hold.
  destruct Hs as [|d0 Ku Ka Kd Ke Kc La Ld|rows _|row Hid _ _ _|k _|row _ _
                  |d' k t _ _ _ Sa _ _ Fa|row _|row _];
    try (split; [exact Hn|exact Hold]).
  - split; [lia|]. intros a2. unfold select_application. rewrite Ka.
    apply Hold.
  - split; [cbn [add_application applications_seq]; lia|].
    intros a2. rewrite select_application_added_other by lia. apply Hold.
  - split; [exact Hn|]. intros a2. rewrite select_application_removed.
    destruct (n =? k); [discriminate|apply Hold].
  - split; [now rewrite Sa|]. intros a2 H2.
    destruct (select_application n d) as [a1|] eqn:E1.
    + destruct (@select_application_kept t n d d' a1 Fa E1) as (a1' & E & Hk).
      assert (a1' = a2) as <- by congruence.
      exact (same_identity_kept (Hold a1 eq_refl) Hk).
    + rewrite (@select_application_kept_none t n d d' Fa E1) in H2.
      discriminate H2.
Qed.

Lemma identity_run n a l :
  forall w,
    n < applications_seq (db w) ->
    (forall a1, select_application n (db w) = Some a1 -> same_identity a a1) ->
    forall a', select_application n (db (run_all l w)) = Some a' ->
               same_identity a a'.
Proof.
  induction l as [|x l IH]; intros w Hn Hold; [exact Hold|].
  cbn [run_all fold_left].
  destruct (identity_step (act_step x w) Hn Hold) as [Hn' Hold'].
  exact (IH (act x w) Hn' Hold').
Qed.

(** X29: what an application is, and whose, never changes. Take any
    application and any sequence of actions by anyone, served one after the
    other: if a row with its key is still there afterwards, it has the same owner, name, subdomain
    and source, and the same creation time, description, build command,
    output directory and storage figure. Only the status, the deployment
    URL and the two later timestamps are ever rewritten, and a key is never
    given to a second application. *)
Theorem application_identity_is_fixed l w n a a' :
  keys_fresh (db w) ->
  select_application n (db w) = Some a ->
  select_application n (db (run_all l w)) = Some a' ->
  same_identity a a'.
Proof.
  intros (Hf & _) Ha. destruct (select_application_some _ _ Ha) as (Hid & Hin & _).
  rewrite Forall_forall in Hf. specialize (Hf a Hin). rewrite Hid in Hf.
  apply identity_run; [exact Hf|].
  intros a1 H1. assert (a1 = a) as -> by congruence. repeat split.
Qed.

Lemma application_identity_is_fixed_witness :
  let w := Sample.world [] [] in
  let w' := run_all [Chat "bob" (JsObj [("message", JsStr "hi"); ("response", JsStr "")]);
                     Deploy "alice" "1" None; RunDetached] w in
  keys_fresh (db w)
  /\ select_application 1 (db w) = Some Sample.demo
  /\ exists a',
       select_application 1 (db w') = Some a'
       /\ Application.status a' = "live"
       /\ same_identity Sample.demo a'.
Proof.
  cbv zeta.
  pose proof (proj1 sample_is_consistent) as Hk.
  split; [exact Hk|]. split; [reflexivity|].
  eexists. split; [vm_compute; reflexivity|]. split; [reflexivity|].
  refine (@application_identity_is_fixed
            [Chat "bob" (JsObj [("message", JsStr "hi"); ("response", JsStr "")]);
             Deploy "alice" "1" None; RunDetached]
            (Sample.world [] []) 1 Sample.demo _ Hk eq_refl _).
  vm_compute. reflexivity.
Defined.

(* ================================================================== *)
(** ** The quota, over time *)

Lemma length_filter_filter {A} (p q : A -> bool) (l : list A) :
  (List.length (filter p (filter q l)) <= List.length (filter p l))%nat.
Proof.
  induction l as [|x l IH]; cbn; [lia|].
  destruct (q x), (p x) eqn:E; cbn; rewrite ?E; cbn; lia.
Qed.

Lemma length_filter_kept {A} (R : A -> A -> Prop) (p : A -> bool) (l l' : list A) :
  (forall a b, R a b -> p b = p a) ->
  Forall2 R l l' ->
  List.length (filter p l') = List.length (filter p l).
Proof.
  intros H. induction 1 as [|a b l l' Hab _ IH]; cbn; [reflexivity|].
  rewrite (H _ _ Hab). destruct (p a); cbn; congruence.
Qed.

Lemma quota_step d d' :
  db_step d d' -> users d' = users d -> quota_respected d -> quota_respected d'.
Proof.
  intros Hs Hu Hq sub Hp.
  assert (Hp' : not_premium (select_user sub d) = true)
    by (unfold select_user in *; now rewrite <- Hu).
  specialize (Hq sub Hp'). clear Hp.
  destruct Hs as [|d0 Ku Ka Kd Ke Kc La Ld|rows _|row _ _ _ Hw|n _|row _ _
                  |d' k t _ _ _ _ _ _ Fa|row _|row _];
    try exact Hq.
  - unfold owned_by. rewrite Ka. exact Hq.
  - unfold owned_by. cbn [add_application applications].
    rewrite filter_app, length_app. cbn [filter].
    destruct (str_eqb (Application.userId row) sub) eqn:E; cbn [List.length];
      [|fold (owned_by sub d); lia].
    apply String.eqb_eq in E. rewrite E in Hw.
    destruct Hw as [Hw|Hw]; [congruence|].
    fold (owned_by sub d). rewrite Hw. cbn. lia.
  - unfold owned_by. cbn [set_applications applications].
    etransitivity; [apply length_filter_filter|exact Hq].
  - unfold owned_by.
    rewrite (length_filter_kept
               (fun a => str_eqb (Application.userId a) sub)
               (fun a b (H : application_kept t a b) =>
                  f_equal (fun s => str_eqb s sub) (proj1 (proj2 H))) Fa).
    exact Hq.
Qed.

(** X30: the quota holds over time. While nobody signs in (which is what
    can change [isPremium]), from tables where every user who is not
    premium owns at most one application, no sequence of creations,
    deletions, deploys, pipeline runs, tracked visits, chats and reads,
    served one after the other, leaves such a user with two. *)
Theorem quota_for_ever l w :
  forallb keeps_users l = true ->
  quota_respected (db w) ->
  quota_respected (db (run_all l w)).
Proof.
  revert w. induction l as [|a l IH]; intros w Hl H; [exact H|].
  cbn [forallb] in Hl. apply andb_true_iff in Hl. destruct Hl as [Ha Hl].
  cbn [run_all fold_left]. apply IH; [exact Hl|].
  exact (quota_step (act_step a w) (act_users a w Ha) H).
Qed.

Lemma sample_respects_quota : quota_respected (db (Sample.world [] [])).
Proof.
  intros sub _. unfold owned_by. cbn [Sample.world db Sample.tables applications filter].
  destruct (str_eqb _ _); cbn; lia.
Qed.

Lemma quota_for_ever_witness :
  let w := Sample.world [] [] in
  let second := JsObj [("name", JsStr "Second"); ("subdomain", JsStr "second");
                       ("sourceType", JsStr "zip")] in
  let l := [Create "alice" second; Deploy "alice" "1" None; RunDetached;
            Create "alice" second] in
  forallb keeps_users l = true
  /\ quota_respected (db w)
  /\ not_premium (select_user "alice" (db (run_all l w))) = true
  /\ (List.length (owned_by "alice" (db (run_all l w))) <= 1)%nat.
Proof.
  cbv zeta. split; [reflexivity|]. split; [exact sample_respects_quota|].
  assert (Hp : not_premium
                 (select_user "alice"
                    (db (run_all
                           [Create "alice" (JsObj [("name", JsStr "Second");
                                                   ("subdomain", JsStr "second");
                                                   ("sourceType", JsStr "zip")]);
                            Deploy "alice" "1" None; RunDetached;
                            Create "alice" (JsObj [("name", JsStr "Second");
                                                   ("subdomain", JsStr "second");
                                                   ("sourceType", JsStr "zip")])]
                           (Sample.world [] [])))) = true)
    by (vm_compute; reflexivity).
  split; [exact Hp|].
  exact (@quota_for_ever
           [Create "alice" (JsObj [("name", JsStr "Second");
                                   ("subdomain", JsStr "second");
                                   ("sourceType", JsStr "zip")]);
            Deploy "alice" "1" None; RunDetached;
            Create "alice" (JsObj [("name", JsStr "Second");
                                   ("subdomain", JsStr "second");
                                   ("sourceType", JsStr "zip")])]
           (Sample.world [] []) eq_refl sample_respects_quota "alice" Hp).
Defined.
